(** * CodeBlock re-render trigger: a shallow embedding of the two scripts

    The repository holds two variants of one browser script:
    - the userscript "CodeBlock Re-render Trigger (TavernHelper)", version 0.4,
      embedded in [Module Userscript];
    - the extension "CodeBlock-Render-Fixer-v3" ([index.js]), embedded in
      [Module V3].

    [index.js] carries, after the extension, the tail of the userscript once
    more, word for word ([isPreRendered] to the end); it is embedded once, in
    [Module Userscript].

    Both watch the message-text elements of a chat for DOM mutations and ask
    the host application to render a message again.  The browser and the host
    application are the environment of the scripts: the DOM is a forest of
    nodes with identities, timers are a table of pending tasks, and every call
    into the host is an arbitrary state transformer that may throw.  The
    record of a run ([trace]) is kept for the statements of the properties;
    the scripts do not read it.

    The start-up code of the two scripts ([setup] of the userscript,
    [setupObservers] of the extension) is embedded in [Module UserscriptSetup]
    and [Module V3Setup]. *)

From Stdlib Require Import Ascii String Sorted.
From stdpp Require Import gmap strings list.

Local Open Scope string_scope.

(** ** JavaScript strings

    Strings are sequences of code units, here the bytes of their UTF-8
    encoding; on well-formed strings a substring search finds the same
    matches on either.  The markers and names the scripts match are ASCII.
    [toLowerCase] folds the ASCII capitals, which is what
    [String.prototype.toLowerCase] does on them, and leaves the other code
    units alone.  [trim] strips what [String.prototype.trim] strips: the
    white space and the line terminators of ECMAScript, each in its UTF-8
    encoding. *)

Module JSString.

Definition is_upper (c : ascii) : bool :=
  let n := nat_of_ascii c in (65 <=? n)%nat && (n <=? 90)%nat.

Definition lower_char (c : ascii) : ascii :=
  if is_upper c then ascii_of_nat (nat_of_ascii c + 32) else c.

Fixpoint toLowerCase (s : string) : string :=
  match s with
  | EmptyString => EmptyString
  | String c s' => String (lower_char c) (toLowerCase s')
  end.

(** [startsWith s t]: [t] is a prefix of [s]. *)
Fixpoint startsWith (s t : string) : bool :=
  match t, s with
  | EmptyString, _ => true
  | String _ _, EmptyString => false
  | String b t', String a s' => if Ascii.eqb a b then startsWith s' t' else false
  end.

(** [includes s t] is [s.includes(t)]. *)
Fixpoint includes (s t : string) : bool :=
  startsWith s t ||
  match s with
  | EmptyString => false
  | String _ s' => includes s' t
  end.

(** The white space of one byte: U+0009 to U+000D and U+0020. *)
Definition is_space (c : ascii) : bool :=
  let n := nat_of_ascii c in ((9 <=? n)%nat && (n <=? 13)%nat) || (n =? 32)%nat.

(** The white space of two bytes: U+00A0 (C2 A0). *)
Definition is_space2 (c1 c2 : ascii) : bool :=
  (nat_of_ascii c1 =? 194)%nat && (nat_of_ascii c2 =? 160)%nat.

(** The white space of three bytes: U+1680 (E1 9A 80), U+2000 to U+200A
    (E2 80 80 to E2 80 8A), U+2028 and U+2029 (E2 80 A8, E2 80 A9), U+202F
    (E2 80 AF), U+205F (E2 81 9F), U+3000 (E3 80 80) and U+FEFF
    (EF BB BF). *)
Definition is_space3 (c1 c2 c3 : ascii) : bool :=
  let a := nat_of_ascii c1 in
  let b := nat_of_ascii c2 in
  let c := nat_of_ascii c3 in
  ((a =? 225)%nat && (b =? 154)%nat && (c =? 128)%nat)
  || ((a =? 226)%nat && (b =? 128)%nat &&
      (((128 <=? c)%nat && (c <=? 138)%nat) || (c =? 168)%nat || (c =? 169)%nat
       || (c =? 175)%nat))
  || ((a =? 226)%nat && (b =? 129)%nat && (c =? 159)%nat)
  || ((a =? 227)%nat && (b =? 128)%nat && (c =? 128)%nat)
  || ((a =? 239)%nat && (b =? 187)%nat && (c =? 191)%nat).

Fixpoint trimStart (s : string) : string :=
  match s with
  | EmptyString => EmptyString
  | String c1 s1 =>
      if is_space c1 then trimStart s1
      else
        match s1 with
        | EmptyString => s
        | String c2 s2 =>
            if is_space2 c1 c2 then trimStart s2
            else
              match s2 with
              | EmptyString => s
              | String c3 s3 => if is_space3 c1 c2 c3 then trimStart s3 else s
              end
        end
  end.

(** A string is falsy exactly when it is empty. *)
Definition nonempty (s : string) : bool :=
  match s with EmptyString => false | _ => true end.

(** [trimEnd] drops the trailing white space: a byte is kept as long as
    what starts with it is not white space throughout. *)
Fixpoint trimEnd (s : string) : string :=
  match s with
  | EmptyString => EmptyString
  | String c s' => if nonempty (trimStart s) then String c (trimEnd s') else EmptyString
  end.

Definition trim (s : string) : string := trimEnd (trimStart s).

(** The substring relation the claims speak of. *)
Definition contains (s t : string) : Prop :=
  exists pre post, s = pre ++ t ++ post.

End JSString.

(** ** JavaScript values and completions *)

(** The values a caller can hand to [isFrontend]. *)
Inductive JSValue :=
| JSUndefined
| JSNull
| JSStr (s : string).

Inductive Exn :=
| TypeError
| HostError (what : string).

(** The result of evaluating an expression: a value or a thrown exception. *)
Inductive Result (A : Type) :=
| Ok (a : A)
| Raise (e : Exn).
Arguments Ok {A} a.
Arguments Raise {A} e.

(** [Array.prototype.some]. *)
Fixpoint some {A} (p : A -> bool) (l : list A) : bool :=
  match l with
  | [] => false
  | x :: l' => if p x then true else some p l'
  end.


(** ** Statements

    A statement runs on a state and completes normally, by [return] out of the
    enclosing function, or by a thrown exception. *)

Inductive Completion (R A : Type) :=
| Normal (a : A)
| Return (r : R)
| Throw (e : Exn).
Arguments Normal {R A} a.
Arguments Return {R A} r.
Arguments Throw {R A} e.

Definition Stmt (S R A : Type) : Type := S -> Completion R A * S.

Definition ret {S R A} (a : A) : Stmt S R A := fun s => (Normal a, s).

Definition bind {S R A B} (m : Stmt S R A) (k : A -> Stmt S R B) : Stmt S R B :=
  fun s =>
    match m s with
    | (Normal a, s') => k a s'
    | (Return r, s') => (Return r, s')
    | (Throw e, s') => (Throw e, s')
    end.

Declare Scope stmt_scope.
Delimit Scope stmt_scope with stmt.
Notation "x <- m ;; k" := (bind m (fun x => k))
  (at level 100, m at next level, k at level 200, right associativity) : stmt_scope.
Notation "m ;; k" := (bind m (fun _ => k))
  (at level 100, k at level 200, right associativity) : stmt_scope.

(** [return r;] *)
Definition return_ {S R A} (r : R) : Stmt S R A := fun s => (Return r, s).

(** [throw e;] *)
Definition throw {S R A} (e : Exn) : Stmt S R A := fun s => (Throw e, s).

(** [try { body } catch (e) { handler }]: what the body did to the state before
    it threw stays done. *)
Definition try_catch {S R A} (body : Stmt S R A) (handler : Exn -> Stmt S R A) : Stmt S R A :=
  fun s =>
    match body s with
    | (Throw e, s') => handler e s'
    | other => other
    end.

(** [for (const x of l) { body }], with [continue] written as the end of the
    body. *)
Fixpoint for_of {S R X} (l : list X) (body : X -> Stmt S R unit) : Stmt S R unit :=
  match l with
  | [] => ret tt
  | x :: l' => (body x ;; for_of l' body)%stmt
  end.

Definition gets {S R A} (f : S -> A) : Stmt S R A := fun s => (Normal (f s), s).

Definition modify {S R} (f : S -> S) : Stmt S R unit := fun s => (Normal tt, f s).

(** A function body seen from its caller: falling off the end returns
    [undefined]. *)
Definition function {S R} (undefined : R) (body : Stmt S R unit) : S -> Result R * S :=
  fun s =>
    match body s with
    | (Normal _, s') => (Ok undefined, s')
    | (Return r, s') => (Ok r, s')
    | (Throw e, s') => (Raise e, s')
    end.

(** A call of a function of the script from inside a statement. *)
Definition call {S R A} (f : S -> Result A * S) : Stmt S R A :=
  fun s =>
    match f s with
    | (Ok a, s') => (Normal a, s')
    | (Raise e, s') => (Throw e, s')
    end.

(** ** The DOM

    A forest of nodes.  A node's identity is its [id]: the browser never gives
    two live nodes the same identity, and the scripts hold on to nodes by
    identity (element references in closures, the [WeakSet] of observed
    elements).  Tag names are in lower case, as the selectors of the scripts
    write them. *)

Module Dom.

Definition NodeId := N.

#[local] Unset Elimination Schemes.
Inductive Node :=
| Element (id : NodeId) (tagName : string) (classList : list string)
          (attributes : list (string * string)) (childNodes : list Node)
| Text (id : NodeId) (data : string).
#[local] Set Elimination Schemes.

Definition DOM := list Node.

Definition node_id (n : Node) : NodeId :=
  match n with Element i _ _ _ _ => i | Text i _ => i end.

Definition is_element (n : Node) : bool :=
  match n with Element _ _ _ _ _ => true | Text _ _ => false end.

Definition children (n : Node) : list Node :=
  match n with Element _ _ _ _ cs => cs | Text _ _ => [] end.

Definition has_tag (t : string) (n : Node) : bool :=
  match n with Element _ t' _ _ _ => String.eqb t t' | Text _ _ => false end.

(** [n.classList.contains(c)] *)
Definition has_class (c : string) (n : Node) : bool :=
  match n with
  | Element _ _ cl _ _ => existsb (String.eqb c) cl
  | Text _ _ => false
  end.

(** [n.getAttribute(name)]: [None] is [null]. *)
Definition getAttribute (name : string) (n : Node) : option string :=
  match n with
  | Element _ _ _ attrs _ =>
      match List.find (fun kv => String.eqb name (fst kv)) attrs with
      | Some kv => Some (snd kv)
      | None => None
      end
  | Text _ _ => None
  end.

(** [n.textContent]: the text of the descendants, in document order. *)
Fixpoint textContent (n : Node) : string :=
  match n with
  | Text _ d => d
  | Element _ _ _ _ cs =>
      (fix go (cs : list Node) : string :=
         match cs with
         | [] => ""
         | c :: cs' => textContent c ++ go cs'
         end) cs
  end.

(** The descendants of a node in document order, the node itself excluded. *)
Fixpoint descendants (n : Node) : list Node :=
  match n with
  | Text _ _ => []
  | Element _ _ _ _ cs =>
      (fix go (cs : list Node) : list Node :=
         match cs with
         | [] => []
         | c :: cs' => ((c :: descendants c) ++ go cs')%list
         end) cs
  end.

Definition subtree (n : Node) : list Node := n :: descendants n.

Definition all_nodes (d : DOM) : list Node := flat_map subtree d.

Definition find_node (d : DOM) (i : NodeId) : option Node :=
  List.find (fun n => N.eqb (node_id n) i) (all_nodes d).

(** [n.parentElement], looked up in the forest. *)
Definition parentElement (d : DOM) (i : NodeId) : option Node :=
  List.find (fun p => existsb (fun c => N.eqb (node_id c) i) (children p)) (all_nodes d).

(** The chain from [n] down to the node [i], empty when [i] is not in [n]. *)
Fixpoint path_to (i : NodeId) (n : Node) : list Node :=
  if N.eqb (node_id n) i then [n]
  else
    match n with
    | Text _ _ => []
    | Element _ _ _ _ cs =>
        match
          (fix go (cs : list Node) : list Node :=
             match cs with
             | [] => []
             | c :: cs' => match path_to i c with [] => go cs' | p => p end
             end) cs
        with
        | [] => []
        | p => n :: p
        end
    end.

Fixpoint path_in (d : DOM) (i : NodeId) : list Node :=
  match d with
  | [] => []
  | n :: d' => match path_to i n with [] => path_in d' i | p => p end
  end.

(** [el.closest(sel)]: the nearest of the element and its ancestors that
    matches. *)
Definition closest (d : DOM) (i : NodeId) (sel : Node -> bool) : option Node :=
  List.find sel (rev (path_in d i)).

(** [el.querySelectorAll(sel)] and [el.querySelector(sel)] for a selector
    that tests one element. *)
Definition querySelectorAll_of (n : Node) (sel : Node -> bool) : list Node :=
  List.filter (fun c => is_element c && sel c) (descendants n).

Definition querySelectorAll (d : DOM) (i : NodeId) (sel : Node -> bool) : list Node :=
  match find_node d i with
  | Some n => querySelectorAll_of n sel
  | None => []
  end.

Definition querySelector_of (n : Node) (sel : Node -> bool) : option Node :=
  head (querySelectorAll_of n sel).

Definition querySelector (d : DOM) (i : NodeId) (sel : Node -> bool) : option Node :=
  head (querySelectorAll d i sel).

(** An identity no node of the forest has: what [document.createElement]
    gives the node it makes. *)
Definition fresh_id (d : DOM) : NodeId :=
  N.succ (fold_right N.max 0%N (map node_id (all_nodes d))).

(** [parent.appendChild(c)] for a node [c] that is in no tree yet. *)
Fixpoint append_under (p : NodeId) (c : Node) (n : Node) {struct n} : Node :=
  match n with
  | Text _ _ => n
  | Element i t cl attrs cs =>
      let cs' := List.map (append_under p c) cs in
      Element i t cl attrs (if N.eqb i p then (cs' ++ [c])%list else cs')
  end.

Definition appendChild (p : NodeId) (c : Node) (d : DOM) : Result DOM :=
  match find_node d p with
  | Some (Element _ _ _ _ _) => Ok (map (append_under p c) d)
  | _ => Raise TypeError
  end.

(** [c.remove()]: the node leaves the child list of its parent; a node
    without a parent stays where it is. *)
Fixpoint prune (c : NodeId) (n : Node) {struct n} : Node :=
  match n with
  | Text _ _ => n
  | Element i t cl attrs cs =>
      Element i t cl attrs
        ((fix go (cs : list Node) : list Node :=
            match cs with
            | [] => []
            | k :: cs' => if N.eqb (node_id k) c then go cs' else prune c k :: go cs'
            end) cs)
  end.

Definition remove (c : NodeId) (d : DOM) : DOM := map (prune c) d.

(** *** Mutation records and observer options *)

Inductive MutationType := childList | characterData | attributes.

Record MutationRecord := {
  type : MutationType;
  target : NodeId;
  addedNodes : list Node;
  removedNodes : list Node;
}.

(** The second argument of [observe]; a field the script leaves out is
    [false]. *)
Record MutationObserverInit := {
  init_childList : bool;
  init_subtree : bool;
  init_characterData : bool;
  init_attributes : bool;
}.

(** Whether the browser queues a record for an observer registered on the
    node [observed] with options [o] (DOM Standard, "queue a mutation
    record"): the target is the observed node, or a descendant of it when
    [subtree] is set, and the option named by the record's type is set. *)
Definition in_scope (d : DOM) (observed : NodeId) (o : MutationObserverInit) (t : NodeId) : bool :=
  N.eqb t observed ||
  (init_subtree o &&
   match find_node d observed with
   | Some n => existsb (fun c => N.eqb (node_id c) t) (descendants n)
   | None => false
   end).

Definition wants (o : MutationObserverInit) (ty : MutationType) : bool :=
  match ty with
  | childList => init_childList o
  | characterData => init_characterData o
  | attributes => init_attributes o
  end.

Definition queued (d : DOM) (observed : NodeId) (o : MutationObserverInit)
    (changes : list MutationRecord) : list MutationRecord :=
  List.filter (fun r => in_scope d observed o (target r) && wants o (type r)) changes.

End Dom.

(** ** Timers

    [setTimeout] hands out positive identifiers (HTML Standard), so a timer
    identifier is truthy and [if (timer)] tests for [null]. *)

Module Timers.

Record Timer (Task : Type) := {
  timer_id : positive;
  due : N;
  task : Task;
}.
Arguments timer_id {Task} _.
Arguments due {Task} _.
Arguments task {Task} _.

Record Table (Task : Type) := {
  pending : list (Timer Task);
  next_id : positive;
}.
Arguments pending {Task} _.
Arguments next_id {Task} _.

Definition empty {Task} : Table Task := {| pending := []; next_id := 1 |}.

Definition setTimeout {Task} (t : Task) (delay now : N) (tb : Table Task) : positive * Table Task :=
  (next_id tb,
   {| pending := pending tb ++ [{| timer_id := next_id tb; due := (now + delay)%N; task := t |}];
      next_id := Pos.succ (next_id tb) |}).

Definition clearTimeout {Task} (i : positive) (tb : Table Task) : Table Task :=
  {| pending := List.filter (fun t => negb (Pos.eqb (timer_id t) i)) (pending tb);
     next_id := next_id tb |}.

(** The browser runs a timer no earlier than it is due; the timer leaves the
    table when it runs. *)
Definition take {Task} (i : positive) (now : N) (tb : Table Task) : option (Task * Table Task) :=
  match List.find (fun t => Pos.eqb (timer_id t) i) (pending tb) with
  | Some t => if (due t <=? now)%N then Some (task t, clearTimeout i tb) else None
  | None => None
  end.

End Timers.

(** ** The host application

    What the scripts find on [window] and what a call into the host does are
    parameters: a call is any transformer of the host's own state and of the
    DOM, and it may throw.  A host call does not touch the bindings that are
    local to the script's closures. *)

Inductive JSNumber := Number (v : option string).

Inductive TavernHelperShape :=
| TH_undefined
| TH_null
| TH_object (refreshOneMessage_is_function : bool).

Inductive EventSourceShape :=
| ES_undefined
| ES_null
| ES_object.

Inductive EventTypesShape :=
| ET_undefined
| ET_null
| ET_object (MESSAGE_UPDATED : JSValue).

Definition truthy (v : JSValue) : bool :=
  match v with
  | JSStr s => JSString.nonempty s
  | _ => false
  end.

Definition HostCall (World : Type) : Type :=
  World -> Dom.DOM -> Result unit * World * Dom.DOM.

Record Host (World : Type) := {
  console_log : HostCall World;
  window_TavernHelper : World -> TavernHelperShape;
  refreshOneMessage : JSNumber -> HostCall World;
  window_eventSource : World -> EventSourceShape;
  window_event_types : World -> EventTypesShape;
  eventSource_emit : JSValue -> JSNumber -> HostCall World;
  (** [new CustomEvent(...)] and [el.dispatchEvent(ev)] *)
  dispatchEvent : Dom.NodeId -> JSNumber -> HostCall World;
  getOwnPropertyNames : World -> list string;
  (** [typeof window[name] === 'function'] *)
  window_is_function : World -> string -> bool;
  call_global : string -> JSNumber -> HostCall World;
  click : Dom.NodeId -> HostCall World;
  (** [document.createElement(tag)], which the page may have replaced: it
      makes an element and leaves the tree alone, unless it throws *)
  document_createElement : World -> Result unit * World;
}.
Arguments console_log {World} _.
Arguments window_TavernHelper {World} _.
Arguments refreshOneMessage {World} _.
Arguments window_eventSource {World} _.
Arguments window_event_types {World} _.
Arguments eventSource_emit {World} _.
Arguments dispatchEvent {World} _.
Arguments getOwnPropertyNames {World} _.
Arguments window_is_function {World} _.
Arguments call_global {World} _.
Arguments click {World} _.
Arguments document_createElement {World} _.

(** ** The userscript (version 0.4) *)

Module Userscript.
Import Dom.

(** *** CONFIG *)
Definition DEBUG : bool := false.
Definition DEBOUNCE_MS : N := 120.
Definition MESSAGE_SELECTOR : Node -> bool := has_class "mes".
Definition FRONTEND_MARKERS : list string := ["html>"; "<head>"; "<body"].

Definition isFrontend (content : JSValue) : Result bool :=
  match content with
  | JSUndefined | JSNull => Ok false
  | JSStr s =>
      if negb (JSString.nonempty s) then Ok false
      else
        let content := JSString.toLowerCase s in
        Ok (some (fun tag => JSString.includes content tag) FRONTEND_MARKERS)
  end.

(** [isPreRendered(preEl)]: the parent carries the class [TH-render] and has
    an [iframe] below it. *)
Definition isPreRendered (d : DOM) (preEl : option Node) : bool :=
  match preEl with
  | None => false
  | Some pre =>
      match parentElement d (node_id pre) with
      | None => false
      | Some parent =>
          if has_class "TH-render" parent
          then match querySelector_of parent (has_tag "iframe") with
               | Some _ => true
               | None => false
               end
          else false
      end
  end.

(** What the script does to its environment, for the record of a run. *)
Inductive Action :=
| CallRefreshOneMessage (n : JSNumber)
| Emit (name : JSValue) (n : JSNumber)
| DispatchCustomEvent (el : NodeId) (n : JSNumber)
| CallGlobal (fnName : string) (n : JSNumber)
| ClickButton (btn : NodeId)
| InsertMarker (el : NodeId) (marker : NodeId).

(** The strategy of [tryTriggerRerender] an action belongs to. *)
Definition strategy (a : Action) : nat :=
  match a with
  | CallRefreshOneMessage _ => 1
  | Emit _ _ => 2
  | DispatchCustomEvent _ _ => 3
  | CallGlobal _ _ => 4
  | ClickButton _ => 5
  | InsertMarker _ _ => 6
  end.

Inductive Event :=
| Entered (messageId : option string) (mesTextEl : option NodeId)
    (** [tryTriggerRerender] was called *)
| Attempt (a : Action) (returned : bool)
    (** an action was tried; [returned] tells whether it came back without
        throwing *)
| Evaluated (closure : nat)
    (** the debounced evaluation of an observer ran *).

Inductive Task :=
| DebouncedEvaluation (closure : nat)
| Retry (messageId : option string) (mesTextEl : option NodeId)
| RemoveMarker (marker : NodeId).

(** A mutation observer together with the bindings of the call of
    [observeMesText] that made it: [mesTextEl], [messageId] and the
    debounce [timer]. *)
Record Observer := {
  mesTextEl_of : NodeId;
  messageId_of : option string;
  options : MutationObserverInit;
  timer : option positive;
}.

Section WithHost.
Context {World : Type} (host : Host World).

Record State := {
  world : World;
  dom : DOM;
  now : N;
  timers : Timers.Table Task;
  observed : gset NodeId;       (** [state.observed] *)
  observers : list Observer;    (** [state.observers] *)
  trace : list Event;
}.

Definition set_env (w : World) (d : DOM) (st : State) : State :=
  {| world := w; dom := d; now := now st; timers := timers st;
     observed := observed st; observers := observers st; trace := trace st |}.

Definition set_dom (d : DOM) (st : State) : State := set_env (world st) d st.

Definition set_now (t : N) (st : State) : State :=
  {| world := world st; dom := dom st; now := t; timers := timers st;
     observed := observed st; observers := observers st; trace := trace st |}.

Definition set_timers (tb : Timers.Table Task) (st : State) : State :=
  {| world := world st; dom := dom st; now := now st; timers := tb;
     observed := observed st; observers := observers st; trace := trace st |}.

Definition set_observed (o : gset NodeId) (st : State) : State :=
  {| world := world st; dom := dom st; now := now st; timers := timers st;
     observed := o; observers := observers st; trace := trace st |}.

Definition set_observers (l : list Observer) (st : State) : State :=
  {| world := world st; dom := dom st; now := now st; timers := timers st;
     observed := observed st; observers := l; trace := trace st |}.

Definition record (e : Event) (st : State) : State :=
  {| world := world st; dom := dom st; now := now st; timers := timers st;
     observed := observed st; observers := observers st; trace := trace st ++ [e] |}.

(** A call into the host that is not one of the six actions. *)
Definition host_call {R} (f : HostCall World) : Stmt State R unit :=
  fun st =>
    match f (world st) (dom st) with
    | (Ok _, w, d) => (Normal tt, set_env w d st)
    | (Raise e, w, d) => (Throw e, set_env w d st)
    end.

(** An action carried out by the host: it goes on record with its
    outcome. *)
Definition attempt {R} (a : Action) (f : HostCall World) : Stmt State R unit :=
  fun st =>
    match f (world st) (dom st) with
    | (Ok _, w, d) => (Normal tt, record (Attempt a true) (set_env w d st))
    | (Raise e, w, d) => (Throw e, record (Attempt a false) (set_env w d st))
    end.

(** An action that throws before the host is reached. *)
Definition attempt_fails {R} (a : Action) (e : Exn) : Stmt State R unit :=
  fun st => (Throw e, record (Attempt a false) st).

Definition setTimeout {R} (t : Task) (delay : N) : Stmt State R positive :=
  fun st =>
    let (i, tb) := Timers.setTimeout t delay (now st) (timers st) in
    (Normal i, set_timers tb st).

Definition clearTimeout {R} (i : positive) : Stmt State R unit :=
  modify (fun st => set_timers (Timers.clearTimeout i (timers st)) st).

Definition log {R} : Stmt State R unit :=
  if DEBUG then host_call (console_log host) else ret tt.

(** [window.eventSource.emit(name, n)] *)
Definition emit {R} (name : JSValue) (n : JSNumber) : Stmt State R unit :=
  (es <- gets (fun st => window_eventSource host (world st)) ;;
   match es with
   | ES_object => attempt (Emit name n) (eventSource_emit host name n)
   | _ => attempt_fails (Emit name n) TypeError
   end)%stmt.

Definition possibleButtonTexts : list string :=
  ["渲染前端界面"; "Render frontend"; "Render"; "显示前端代码块"; "显示前端";
   "render front"; "Render code"].

(** The selector ['button, a, .btn, .TH-collapse-code-block-button']. *)
Definition button_selector (n : Node) : bool :=
  has_tag "button" n || has_tag "a" n || has_class "btn" n
  || has_class "TH-collapse-code-block-button" n.

(** The marker of the last resort: a hidden [span]. *)
Definition marker_node (i : NodeId) : Node :=
  Element i "span" ["__cb_rerender_marker__"] [("style", "display: none;")] [].

(** The six [try] blocks of [tryTriggerRerender], in the order of the
    source. *)

(** Primary: [TavernHelper.refreshOneMessage] if available. *)
Definition primary (messageId : option string) : Stmt State bool unit :=
  try_catch
    (th <- gets (fun st => window_TavernHelper host (world st)) ;;
     available <- match th with
                  | TH_undefined => ret false
                  | TH_null => throw TypeError
                  | TH_object is_function => ret is_function
                  end ;;
     if available : bool then
       log ;;
       attempt (CallRefreshOneMessage (Number messageId))
               (refreshOneMessage host (Number messageId)) ;;
       return_ true
     else ret tt)%stmt
    (fun e => log).

(** Secondary: [eventSource] and the known event type, then a few likely
    event names. *)
Definition secondary (messageId : option string) : Stmt State bool unit :=
  try_catch
    (es <- gets (fun st => window_eventSource host (world st)) ;;
     match es with
     | ES_undefined => ret tt
     | _ =>
         et <- gets (fun st => window_event_types host (world st)) ;;
         match et with
         | ET_object v =>
             if truthy v then
               log ;; emit v (Number messageId) ;; return_ true
             else ret tt
         | _ => ret tt
         end ;;
         for_of ["MESSAGE_UPDATED"; "message_updated"; "messageUpdated";
                 "MESSAGE:UPDATED"; "render_message"; "refresh_message"]
           (fun name =>
              try_catch
                (log ;; emit (JSStr name) (Number messageId) ;; return_ true)
                (fun e => ret tt))
     end)%stmt
    (fun e => log).

(** Third: a [CustomEvent] on the message node. *)
Definition third (messageId : option string) (mesTextEl : option NodeId) : Stmt State bool unit :=
  try_catch
    (match mesTextEl with
     | Some el =>
         attempt (DispatchCustomEvent el (Number messageId))
                 (dispatchEvent host el (Number messageId)) ;;
         log ;;
         return_ true
     | None => ret tt
     end)%stmt
    (fun e => log).

(** Fourth: global functions found by name. *)
Definition fourth (messageId : option string) : Stmt State bool unit :=
  try_catch
    (names <- gets (fun st => getOwnPropertyNames host (world st)) ;;
     for_of names
       (fun fnName =>
          if negb (JSString.includes (JSString.toLowerCase fnName) "message")
             && negb (JSString.includes (JSString.toLowerCase fnName) "refresh")
          then ret tt
          else
            is_function <- gets (fun st => window_is_function host (world st) fnName) ;;
            if is_function : bool then
              try_catch
                (attempt (CallGlobal fnName (Number messageId))
                         (call_global host fnName (Number messageId)) ;;
                 log ;;
                 return_ true)
                (fun e => ret tt)
            else ret tt))%stmt
    (fun e => log).

(** Fifth: render buttons near the message. *)
Definition fifth (mesTextEl : option NodeId) : Stmt State bool unit :=
  try_catch
    (match mesTextEl with
     | Some el =>
         buttons <- gets (fun st => querySelectorAll (dom st) el button_selector) ;;
         for_of buttons
           (fun btn =>
              let txt := JSString.trim (textContent btn) in
              if negb (JSString.nonempty txt) then ret tt
              else
                for_of possibleButtonTexts
                  (fun candidate =>
                     if JSString.includes txt candidate || JSString.includes candidate txt
                     then
                       log ;;
                       attempt (ClickButton (node_id btn)) (click host (node_id btn)) ;;
                       return_ true
                     else ret tt))
     | None => ret tt
     end)%stmt
    (fun e => log).

(** [document.createElement('span')] with the style and the class name of
    the marker.  The new element gets an identity no node of the DOM has. *)
Definition createMarker {R} (el : NodeId) : Stmt State R Node :=
  fun st =>
    let marker := marker_node (fresh_id (dom st)) in
    match document_createElement host (world st) with
    | (Ok _, w) => (Normal marker, set_env w (dom st) st)
    | (Raise e, w) =>
        (Throw e, record (Attempt (InsertMarker el (node_id marker)) false)
                    (set_env w (dom st) st))
    end.

(** [mesTextEl.appendChild(marker)] *)
Definition appendMarker {R} (el : NodeId) (marker : Node) : Stmt State R unit :=
  fun st =>
    match appendChild el marker (dom st) with
    | Ok d => (Normal tt, record (Attempt (InsertMarker el (node_id marker)) true) (set_dom d st))
    | Raise e => (Throw e, record (Attempt (InsertMarker el (node_id marker)) false) st)
    end.

(** Last resort: a tiny mutation, taken back 300ms later. *)
Definition last_resort (mesTextEl : option NodeId) : Stmt State bool unit :=
  try_catch
    (match mesTextEl with
     | Some el =>
         marker <- createMarker el ;;
         appendMarker el marker ;;
         setTimeout (RemoveMarker (node_id marker)) 300 ;;
         log ;;
         return_ true
     | None => ret tt
     end)%stmt
    (fun e => log).

Definition tryTriggerRerender (messageId : option string) (mesTextEl : option NodeId)
  : State -> Result bool * State :=
  function false
    (modify (record (Entered messageId mesTextEl)) ;;
     log ;;
     primary messageId ;;
     secondary messageId ;;
     third messageId mesTextEl ;;
     fourth messageId ;;
     fifth mesTextEl ;;
     last_resort mesTextEl ;;
     log ;;
     return_ false)%stmt.


(** [a || b] on two attribute values: [null] and the empty string are
    falsy. *)
Definition or_else (a b : option string) : option string :=
  match a with
  | Some s => if JSString.nonempty s then a else b
  | None => b
  end.

(** The options [observeMesText] passes to [observe]. *)
Definition observer_options : MutationObserverInit :=
  {| init_childList := true; init_subtree := true;
     init_characterData := true; init_attributes := false |}.

(** [observeMesText(mesTextEl, state)].  [new MutationObserver],
    [mo.observe] and [state.observers.push(mo)] put the observer, with the
    bindings of this call, at the end of [observers]. *)
Definition observeMesText (mesTextEl : option NodeId) : State -> Result unit * State :=
  function tt
    (match mesTextEl with
     | None => return_ tt
     | Some el =>
         seen <- gets (fun st => bool_decide (el ∈ observed st)) ;;
         if seen : bool then return_ tt
         else
           modify (fun st => set_observed ({[el]} ∪ observed st) st) ;;
           mesEl <- gets (fun st => closest (dom st) el MESSAGE_SELECTOR) ;;
           match mesEl with
           | None => return_ tt
           | Some mesEl =>
               let messageId :=
                 or_else (or_else (getAttribute "mesid" mesEl)
                                  (getAttribute "data-mesid" mesEl))
                         (getAttribute "data-id" mesEl) in
               modify (fun st =>
                 set_observers
                   (observers st ++
                      [{| mesTextEl_of := el; messageId_of := messageId;
                          options := observer_options; timer := None |}]) st) ;;
               log
           end
     end)%stmt.

(** The quick filter of the observer callback. *)
Fixpoint significant (mutations : list MutationRecord) : bool :=
  match mutations with
  | [] => false
  | m :: rest =>
      match type m with
      | childList =>
          if (0 <? length (addedNodes m))%nat || (0 <? length (removedNodes m))%nat
          then true
          else significant rest
      | characterData => true
      | attributes => true
      end
  end.

Definition timer_of (k : nat) (st : State) : option positive :=
  match observers st !! k with
  | Some o => timer o
  | None => None
  end.

Definition set_timer (k : nat) (v : option positive) (st : State) : State :=
  set_observers
    (alter (fun o => {| mesTextEl_of := mesTextEl_of o; messageId_of := messageId_of o;
                        options := options o; timer := v |}) k (observers st)) st.

(** The callback of the observer made by the [k]-th call that got as far
    as making one. *)
Definition onMutations (k : nat) (mutations : list MutationRecord)
  : State -> Result unit * State :=
  function tt
    (if negb (significant mutations) then return_ tt
     else
       t <- gets (timer_of k) ;;
       match t with
       | Some i => clearTimeout i
       | None => ret tt
       end ;;
       i <- setTimeout (DebouncedEvaluation k) DEBOUNCE_MS ;;
       modify (set_timer k (Some i)))%stmt.

(** The loop over the [pre] blocks: [(foundFrontend, needsRender)]. *)
Fixpoint scan (d : DOM) (pres : list Node) (foundFrontend : bool) : Result (bool * bool) :=
  match pres with
  | [] => Ok (foundFrontend, false)
  | pre :: rest =>
      let content := JSString.trim (textContent pre) in
      match isFrontend (JSStr content) with
      | Raise e => Raise e
      | Ok false => scan d rest foundFrontend
      | Ok true =>
          if negb (isPreRendered d (Some pre)) then Ok (true, true)
          else scan d rest true
      end
  end.

(** The debounced evaluation: the function handed to [setTimeout] by the
    observer callback. *)
Definition evaluate (k : nat) : State -> Result unit * State :=
  function tt
    (modify (set_timer k None) ;;
     modify (record (Evaluated k)) ;;
     o <- gets (fun st => observers st !! k) ;;
     match o with
     | None => return_ tt
     | Some o =>
         pres <- gets (fun st => querySelectorAll (dom st) (mesTextEl_of o) (has_tag "pre")) ;;
         r <- call (fun st => (scan (dom st) pres false, st)) ;;
         let '(foundFrontend, needsRender) := r in
         if negb foundFrontend then return_ tt
         else if negb needsRender then return_ tt
         else
           log ;;
           done <- call (tryTriggerRerender (messageId_of o) (Some (mesTextEl_of o))) ;;
           if negb done then
             log ;;
             setTimeout (Retry (messageId_of o) (Some (mesTextEl_of o))) 250 ;;
             ret tt
           else ret tt
     end)%stmt.

Definition run_task (t : Task) : State -> Result unit * State :=
  match t with
  | DebouncedEvaluation k => evaluate k
  | Retry messageId mesTextEl =>
      function tt (call (tryTriggerRerender messageId mesTextEl) ;; ret tt)%stmt
  | RemoveMarker marker =>
      function tt (modify (fun st => set_dom (remove marker (dom st)) st))
  end.

(** *** The event loop, as far as the script is concerned *)

(** Time passes. *)
Definition elapse (d : N) (st : State) : State := set_now (now st + d)%N st.

(** A pending timer that is due runs. *)
Definition fire (i : positive) (st : State) : option (Result unit * State) :=
  match Timers.take i (now st) (timers st) with
  | Some (t, tb) => Some (run_task t (set_timers tb st))
  | None => None
  end.

(** The DOM changed: the browser hands an observer the records it
    registered for, and does not call it when there are none. *)
Definition notify (k : nat) (changes : list MutationRecord) (st : State)
  : Result unit * State :=
  match observers st !! k with
  | Some o =>
      match queued (dom st) (mesTextEl_of o) (options o) changes with
      | [] => (Ok tt, st)
      | records => onMutations k records st
      end
  | None => (Ok tt, st)
  end.

(** The state [setup] starts from. *)
Definition initial (w : World) (d : DOM) : State :=
  {| world := w; dom := d; now := 0; timers := Timers.empty;
     observed := ∅; observers := []; trace := [] |}.

End WithHost.
End Userscript.

(** ** The extension CodeBlock-Render-Fixer-v3 *)

Module V3.
Import Dom.

Definition DEBUG : bool := true.
Definition DEBOUNCE_MS : N := 600.

(** [isFrontend] of the extension: [content.includes] is called on the
    argument as it comes, so [null] and [undefined] make it throw. *)
Definition isFrontend (content : JSValue) : Result bool :=
  match content with
  | JSStr s => Ok (some (fun tag => JSString.includes s tag) ["html>"; "<head>"; "<body"])
  | _ => Raise TypeError
  end.

Inductive Event :=
| PartialRender (mesTextEl : NodeId)
    (** [triggerPartialRender] was called *)
| EmitMessageUpdated (name : JSValue) (n : JSNumber) (returned : bool)
| Checked (mesTextEl : NodeId)
    (** the debounced check of a message-text element ran *).

(** The function handed to [setTimeout] closes over [mesTextEl]; the
    message identifier for which it was scheduled is remembered with it. *)
Inductive Task :=
| DebouncedCheck (mesTextEl : NodeId) (key : string).

(** [debounceTimers] is a plain object, [{}], used as a map from message
    identifiers to timer identifiers; its own properties are kept in a
    [gmap].  A plain object inherits from [Object.prototype], taken here as
    the standard has it:
    - [__proto__] is an accessor there.  Reading
      [debounceTimers['__proto__']] gives the prototype object, and assigning
      a number to it is ignored: the object never has an own property of that
      name.
    - A name such as [constructor] reads as the inherited function until it
      is assigned, and as the number assigned from then on.
    So what is read under a key is the timer identifier stored there, or
    else an object, a function or [undefined]; [clearTimeout] of those
    clears no timer (as a handle they convert to 0, and timer identifiers are
    positive). *)
Definition is_proto (key : string) : bool := String.eqb key "__proto__".

(** The timer identifier [debounceTimers[key]] holds, if it holds one. *)
Definition stored (key : string) (o : gmap string positive) : option positive :=
  if is_proto key then None else o !! key.

(** [debounceTimers[key] = i] *)
Definition store (key : string) (i : positive) (o : gmap string positive)
  : gmap string positive :=
  if is_proto key then o else <[key := i]> o.

(** An observer attached by [observer.observe(mesTextEl, options)]. *)
Record Observer := {
  mesTextEl_of : NodeId;
  options : MutationObserverInit;
}.

Section WithHost.
Context {World : Type} (host : Host World).

Record State := {
  world : World;
  dom : DOM;
  now : N;
  timers : Timers.Table Task;
  observedElements : gset NodeId;
  debounceTimers : gmap string positive;
  attached : list Observer;
  trace : list Event;
}.

Definition set_env (w : World) (d : DOM) (st : State) : State :=
  {| world := w; dom := d; now := now st; timers := timers st;
     observedElements := observedElements st; debounceTimers := debounceTimers st;
     attached := attached st; trace := trace st |}.

Definition set_now (t : N) (st : State) : State :=
  {| world := world st; dom := dom st; now := t; timers := timers st;
     observedElements := observedElements st; debounceTimers := debounceTimers st;
     attached := attached st; trace := trace st |}.

Definition set_timers (tb : Timers.Table Task) (st : State) : State :=
  {| world := world st; dom := dom st; now := now st; timers := tb;
     observedElements := observedElements st; debounceTimers := debounceTimers st;
     attached := attached st; trace := trace st |}.

Definition set_debounceTimers (m : gmap string positive) (st : State) : State :=
  {| world := world st; dom := dom st; now := now st; timers := timers st;
     observedElements := observedElements st; debounceTimers := m;
     attached := attached st; trace := trace st |}.

Definition set_attached (l : list Observer) (st : State) : State :=
  {| world := world st; dom := dom st; now := now st; timers := timers st;
     observedElements := observedElements st; debounceTimers := debounceTimers st;
     attached := l; trace := trace st |}.

Definition record (e : Event) (st : State) : State :=
  {| world := world st; dom := dom st; now := now st; timers := timers st;
     observedElements := observedElements st; debounceTimers := debounceTimers st;
     attached := attached st; trace := trace st ++ [e] |}.

Definition host_call {R} (f : HostCall World) : Stmt State R unit :=
  fun st =>
    match f (world st) (dom st) with
    | (Ok _, w, d) => (Normal tt, set_env w d st)
    | (Raise e, w, d) => (Throw e, set_env w d st)
    end.

Definition setTimeout {R} (t : Task) (delay : N) : Stmt State R positive :=
  fun st =>
    let (i, tb) := Timers.setTimeout t delay (now st) (timers st) in
    (Normal i, set_timers tb st).

Definition clearTimeout {R} (i : positive) : Stmt State R unit :=
  modify (fun st => set_timers (Timers.clearTimeout i (timers st)) st).

Definition log {R} : Stmt State R unit :=
  if DEBUG then host_call (console_log host) else ret tt.

Definition getMessageId (d : DOM) (el : NodeId) : option string :=
  match closest d el (has_class "mes") with
  | Some mesEl => getAttribute "mesid" mesEl
  | None => None
  end.

(** [!messageId] *)
Definition no_id (messageId : option string) : bool :=
  match messageId with
  | Some s => negb (JSString.nonempty s)
  | None => true
  end.

Definition triggerPartialRender (mesTextEl : NodeId) : State -> Result unit * State :=
  function tt
    (modify (record (PartialRender mesTextEl)) ;;
     messageId <- gets (fun st => getMessageId (dom st) mesTextEl) ;;
     if no_id messageId then return_ tt
     else
       log ;;
       es <- gets (fun st => window_eventSource host (world st)) ;;
       et <- gets (fun st => window_event_types host (world st)) ;;
       match es, et with
       | ES_undefined, _ => ret tt
       | _, ET_undefined => ret tt
       | ES_object, ET_object v =>
           fun st =>
             match eventSource_emit host v (Number messageId) (world st) (dom st) with
             | (Ok _, w, d) =>
                 (Normal tt, record (EmitMessageUpdated v (Number messageId) true) (set_env w d st))
             | (Raise e, w, d) =>
                 (Throw e, record (EmitMessageUpdated v (Number messageId) false) (set_env w d st))
             end
       | _, _ => throw TypeError
       end)%stmt.

(** [observeMesText(mesTextEl)].  The second statement of the source,
    [observedElements.has(mesTextEl);], is an expression statement: it
    looks the element up once more and changes nothing. *)
Definition observeMesText (mesTextEl : NodeId) : State -> Result unit * State :=
  function tt
    (seen <- gets (fun st => bool_decide (mesTextEl ∈ observedElements st)) ;;
     if seen : bool then return_ tt
     else
       _ <- gets (fun st => bool_decide (mesTextEl ∈ observedElements st)) ;;
       modify (fun st =>
         set_attached
           (attached st ++
              [{| mesTextEl_of := mesTextEl;
                  options := {| init_childList := true; init_subtree := true;
                                init_characterData := false; init_attributes := false |} |}])
           st))%stmt.

(** Whether a removed node is, or holds, a [TH-render] wrapper. *)
Definition removes_render (node : Node) : bool :=
  is_element node &&
  (has_class "TH-render" node ||
   match querySelector_of node (has_class "TH-render") with
   | Some _ => true
   | None => false
   end).

Fixpoint shouldRender (mutations : list MutationRecord) : bool :=
  match mutations with
  | [] => false
  | mutation :: rest =>
      (if (0 <? length (removedNodes mutation))%nat
       then existsb removes_render (removedNodes mutation)
       else false)
      || shouldRender rest
  end.

(** The callback of an observer on [mesTextEl]. *)
Definition onMutations (mesTextEl : NodeId) (mutations : list MutationRecord)
  : State -> Result unit * State :=
  function tt
    (if negb (shouldRender mutations) then return_ tt
     else
       messageId <- gets (fun st => getMessageId (dom st) mesTextEl) ;;
       match messageId with
       | None => return_ tt
       | Some id =>
           if negb (JSString.nonempty id) then return_ tt
           else
             t <- gets (fun st => stored id (debounceTimers st)) ;;
             match t with
             | Some i => clearTimeout i
             | None => ret tt
             end ;;
             i <- setTimeout (DebouncedCheck mesTextEl id) DEBOUNCE_MS ;;
             modify (fun st => set_debounceTimers (store id i (debounceTimers st)) st)
       end)%stmt.

(** The function handed to [setTimeout] by the observer callback. *)
Definition check (mesTextEl : NodeId) : State -> Result unit * State :=
  function tt
    (modify (record (Checked mesTextEl)) ;;
     frame <- gets (fun st => querySelector (dom st) mesTextEl (has_tag "iframe")) ;;
     match frame with
     | Some _ => return_ tt
     | None =>
         pre <- gets (fun st => querySelector (dom st) mesTextEl (has_tag "pre")) ;;
         let code := match pre with Some p => textContent p | None => "" end in
         front <- call (fun st => (isFrontend (JSStr code), st)) ;;
         if front : bool then
           log ;;
           call (triggerPartialRender mesTextEl)
         else ret tt
     end)%stmt.

Definition run_task (t : Task) : State -> Result unit * State :=
  match t with
  | DebouncedCheck mesTextEl _ => check mesTextEl
  end.

(** The callback of the observer on the chat container: every added
    [.mes] element has its [.mes_text] observed. *)
Definition onChatMutations (mutations : list MutationRecord)
  : State -> Result unit * State :=
  function tt
    (for_of mutations
       (fun mutation =>
          for_of (addedNodes mutation)
            (fun node =>
               if is_element node && has_class "mes" node then
                 match querySelector_of node (has_class "mes_text") with
                 | Some mesText => call (observeMesText (node_id mesText))
                 | None => ret tt
                 end
               else ret tt)))%stmt.

Definition elapse (d : N) (st : State) : State := set_now (now st + d)%N st.

Definition fire (i : positive) (st : State) : option (Result unit * State) :=
  match Timers.take i (now st) (timers st) with
  | Some (t, tb) => Some (run_task t (set_timers tb st))
  | None => None
  end.

(** The browser hands the [k]-th attached observer the records it
    registered for. *)
Definition notify (k : nat) (changes : list MutationRecord) (st : State)
  : Result unit * State :=
  match attached st !! k with
  | Some o =>
      match queued (dom st) (mesTextEl_of o) (options o) changes with
      | [] => (Ok tt, st)
      | records => onMutations (mesTextEl_of o) records st
      end
  | None => (Ok tt, st)
  end.

(** The state [setupObservers] starts from. *)
Definition initial (w : World) (d : DOM) : State :=
  {| world := w; dom := d; now := 0; timers := Timers.empty;
     observedElements := ∅; debounceTimers := ∅; attached := []; trace := [] |}.

End WithHost.
End V3.

(** * The vocabulary of the properties *)

Local Open Scope list_scope.

Section DomVocabulary.
Import Dom.

Definition ids (l : list Node) : list NodeId := map node_id l.

(** The children of an element after [prune]. *)
Fixpoint prune_children (c : NodeId) (cs : list Node) : list Node :=
  match cs with
  | [] => []
  | k :: cs' =>
      if N.eqb (node_id k) c then prune_children c cs'
      else prune c k :: prune_children c cs'
  end.

End DomVocabulary.

Section TriggerVocabulary.
Import Dom Userscript.
Context {World : Type} (host : Host World).

(** An attempt that threw. *)
Definition failed (e : Event) : Prop := exists a, e = Attempt a false.

(** An attempt of a strategy between [lo] and [hi]. *)
Definition attempt_in (lo hi : nat) (e : Event) : Prop :=
  exists a ok, e = Attempt a ok /\ lo <= strategy a <= hi.

Definition rank (e : Event) : nat :=
  match e with
  | Attempt a _ => strategy a
  | _ => 0
  end.

(** The attempts come in the order of the strategies. *)
Definition in_order (evs : list Event) : Prop :=
  StronglySorted (fun e1 e2 => rank e1 <= rank e2) evs.

(** How a run ends, given the attempts it made: a [return true] comes
    straight after the one attempt that came back, the attempts before it
    having thrown; any other end comes after thrown attempts only. *)
Definition ends {A} (c : Completion bool A) (evs : list Event) : Prop :=
  match c with
  | Return true => exists pre a, evs = pre ++ [Attempt a true] /\ Forall failed pre
  | _ => Forall failed evs
  end.

Definition cascade {A} (lo hi : nat) (m : Stmt (@State World) bool A) : Prop :=
  forall st, exists evs,
    trace (m st).2 = trace st ++ evs /\
    Forall (attempt_in lo hi) evs /\
    in_order evs /\
    ends (m st).1 evs.

(** [rest] goes on to [return true] without another attempt. *)
Definition returns_true {A} (rest : Stmt (@State World) bool A) : Prop :=
  forall st, (rest st).1 = Return true /\ trace (rest st).2 = trace st.

(** How a statement of [tryTriggerRerender] may complete: it never does
    [return false], and it throws only where [may_throw] allows. *)
Definition completes {A} (may_throw : bool) (m : Stmt (@State World) bool A) : Prop :=
  forall st,
    match (m st).1 with
    | Normal _ => True
    | Return b => b = true
    | Throw _ => may_throw = true
    end.

(** The statements of [tryTriggerRerender] after the entry. *)
Definition blocks (messageId : option string) (mesTextEl : option NodeId)
  : Stmt (@State World) bool unit :=
  (log host ;;
   primary host messageId ;;
   secondary host messageId ;;
   third host messageId mesTextEl ;;
   fourth host messageId ;;
   fifth host mesTextEl ;;
   last_resort host mesTextEl ;;
   log host ;;
   return_ false)%stmt.

(** The names the fourth strategy takes for promising. *)
Definition by_name (fnName : string) : bool :=
  JSString.includes (JSString.toLowerCase fnName) "message"
  || JSString.includes (JSString.toLowerCase fnName) "refresh".

(** A button the fifth strategy clicks: its trimmed label is not empty and
    holds, or is held by, one of the known phrases. *)
Definition render_button (btn : Node) : bool :=
  let txt := JSString.trim (textContent btn) in
  JSString.nonempty txt
  && existsb (fun candidate => JSString.includes txt candidate || JSString.includes candidate txt)
       possibleButtonTexts.

(** The body of the loop of the fourth strategy. *)
Definition fourth_body (messageId : option string) (fnName : string)
  : Stmt (@State World) bool unit :=
  (if negb (JSString.includes (JSString.toLowerCase fnName) "message")
      && negb (JSString.includes (JSString.toLowerCase fnName) "refresh")
   then ret tt
   else
     is_function <- gets (fun st => window_is_function host (world st) fnName) ;;
     if is_function : bool then
       try_catch
         (attempt (CallGlobal fnName (Number messageId))
                  (call_global host fnName (Number messageId)) ;;
          log host ;;
          return_ true)
         (fun e => ret tt)
     else ret tt)%stmt.

(** The body of the loop over the buttons of the fifth strategy. *)
Definition fifth_body (btn : Node) : Stmt (@State World) bool unit :=
  let txt := JSString.trim (textContent btn) in
  if negb (JSString.nonempty txt) then ret tt
  else
    for_of possibleButtonTexts
      (fun candidate =>
         if JSString.includes txt candidate || JSString.includes candidate txt
         then
           log host ;;
           attempt (ClickButton (node_id btn)) (click host (node_id btn)) ;;
           return_ true
         else ret tt)%stmt.












End TriggerVocabulary.

(** ** Hosts and pages to run the scripts on *)

(** A host call that comes back, and one that throws. *)
Definition returns_normally : HostCall unit := fun w d => (Ok tt, w, d).
Definition throws : HostCall unit := fun w d => (Raise (HostError "boom"), w, d).

(** A page without TavernHelper, event bus or matching globals; custom events
    can be dispatched. *)
Definition bare_host : Host unit :=
  {| console_log := returns_normally;
     window_TavernHelper := fun _ => TH_undefined;
     refreshOneMessage := fun _ => throws;
     window_eventSource := fun _ => ES_undefined;
     window_event_types := fun _ => ET_undefined;
     eventSource_emit := fun _ _ => throws;
     dispatchEvent := fun _ _ => returns_normally;
     getOwnPropertyNames := fun _ => ["postMessage"; "document"];
     window_is_function := fun _ name => String.eqb name "postMessage";
     call_global := fun _ _ => returns_normally;
     click := fun _ => returns_normally;
     document_createElement := fun w => (Ok tt, w) |}.

(** A page where every call into the host throws. *)
Definition hostile_host : Host unit :=
  {| console_log := throws;
     window_TavernHelper := fun _ => TH_object true;
     refreshOneMessage := fun _ => throws;
     window_eventSource := fun _ => ES_object;
     window_event_types := fun _ => ET_object (JSStr "message_updated");
     eventSource_emit := fun _ _ => throws;
     dispatchEvent := fun _ _ => throws;
     getOwnPropertyNames := fun _ => ["postMessage"; "document"];
     window_is_function := fun _ name => String.eqb name "postMessage";
     call_global := fun _ _ => throws;
     click := fun _ => throws;
     document_createElement := fun w => (Raise (HostError "boom"), w) |}.

(** A chat with one message: a rendered front-end block (inside a
    [TH-render] wrapper with its [iframe]) followed by a bare one. *)
Definition page_mes : Dom.Node :=
  Dom.Element 2%N "div" ["mes"] [("mesid", "7")]
    [Dom.Element 3%N "div" ["mes_text"] []
       [Dom.Element 4%N "div" ["TH-render"] []
          [Dom.Element 5%N "pre" [] [] [Dom.Text 6%N "<html><body>one</body></html>"];
           Dom.Element 7%N "iframe" [] [] []];
        Dom.Element 8%N "pre" [] [] [Dom.Text 9%N "<html><body>two</body></html>"];
        Dom.Element 10%N "button" [] [] [Dom.Text 11%N " Render "]]].

Definition page : Dom.DOM :=
  [Dom.Element 1%N "div" ["chat"] [("id", "chat")] [page_mes]].

Section ObserverVocabulary.
Import Dom.
Context {World : Type} (host : Host World).

(** Every observer made so far sits on an element of [state.observed], and no
    two of them sit on the same element. *)
Definition once_each (st : @Userscript.State World) : Prop :=
  NoDup (map Userscript.mesTextEl_of (Userscript.observers st)) /\
  forall o, o ∈ Userscript.observers st ->
    Userscript.mesTextEl_of o ∈ Userscript.observed st.

(** The observer a call of the userscript's [observeMesText] makes. *)
Definition userscript_observer (el : NodeId) (mesEl : Node) : Userscript.Observer :=
  {| Userscript.mesTextEl_of := el;
     Userscript.messageId_of :=
       Userscript.or_else
         (Userscript.or_else (getAttribute "mesid" mesEl) (getAttribute "data-mesid" mesEl))
         (getAttribute "data-id" mesEl);
     Userscript.options := Userscript.observer_options;
     Userscript.timer := None |}.

(** Any run of calls of the userscript's [observeMesText]. *)
Fixpoint userscript_observe_all (calls : list (option NodeId)) (st : @Userscript.State World)
  : @Userscript.State World :=
  match calls with
  | [] => st
  | el :: rest => userscript_observe_all rest (Userscript.observeMesText host el st).2
  end.

(** The observer the extension attaches to an element. *)
Definition v3_observer (el : NodeId) : V3.Observer :=
  {| V3.mesTextEl_of := el;
     V3.options := {| init_childList := true; init_subtree := true;
                      init_characterData := false; init_attributes := false |} |}.

End ObserverVocabulary.

Section AttributeVocabulary.
Import Dom Userscript.
Context {World : Type} (host : Host World).

(** The browser reports batches of changes to observers, one after the
    other. *)
Fixpoint notify_all (batches : list (nat * list MutationRecord)) (st : @State World)
  : @State World :=
  match batches with
  | [] => st
  | (k, changes) :: rest => notify_all rest (notify k changes st).2
  end.

Definition attribute_only (changes : list MutationRecord) : Prop :=
  Forall (fun r => type r = attributes) changes.

End AttributeVocabulary.

Section EvaluationVocabulary.
Import Dom Userscript.
Context {World : Type} (host : Host World).

(** A [pre] block whose trimmed text is front-end code. *)
Definition front_end (pre : Node) : bool :=
  match isFrontend (JSStr (JSString.trim (textContent pre))) with
  | Ok b => b
  | Raise _ => false
  end.

(** A front-end [pre] block that is not inside a rendered wrapper. *)
Definition unrendered (d : DOM) (pre : Node) : bool :=
  front_end pre && negb (isPreRendered d (Some pre)).

(** The state in which the evaluation looks at the message: the timer
    binding is cleared and the run is on record. *)
Definition evaluating (k : nat) (st : @State World) : @State World :=
  record (Evaluated k) (set_timer k None st).

End EvaluationVocabulary.

(** The message of [page], observed by the userscript. *)
Definition observed_page : @Userscript.State unit :=
  (Userscript.observeMesText bare_host (Some 3%N) (Userscript.initial tt page)).2.

(** The same message with the bare block taken out. *)
Definition rendered_page : Dom.DOM :=
  [Dom.Element 1%N "div" ["chat"] [("id", "chat")]
     [Dom.Element 2%N "div" ["mes"] [("mesid", "7")]
        [Dom.Element 3%N "div" ["mes_text"] []
           [Dom.Element 4%N "div" ["TH-render"] []
              [Dom.Element 5%N "pre" [] [] [Dom.Text 6%N "<html><body>one</body></html>"];
               Dom.Element 7%N "iframe" [] [] []];
            Dom.Element 8%N "pre" [] [] [Dom.Text 9%N "plain text"]]]]].

Section FrameVocabulary.
Import Dom Userscript.
Context {World : Type} (host : Host World).

(** The timer table after a statement of [tryTriggerRerender]: as before, or,
    on [return true], with the removal of a marker added. *)
Definition timers_after {A} (tb : Timers.Table Task) (t : N) (c : Completion bool A)
    (tb' : Timers.Table Task) : Prop :=
  tb' = tb \/
  (c = Return true /\
   exists marker, tb' = (Timers.setTimeout (RemoveMarker marker) 300 t tb).2).

Definition keeps {A} (m : Stmt (@State World) bool A) : Prop :=
  forall st,
    observers (m st).2 = observers st /\
    observed (m st).2 = observed st /\
    now (m st).2 = now st /\
    timers_after (timers st) (now st) (m st).1 (timers (m st).2).

Definition is_entered (e : Event) : bool :=
  match e with
  | Entered _ _ => true
  | _ => false
  end.

(** How often [tryTriggerRerender] was called. *)
Definition entries (tr : list Event) : nat := length (List.filter is_entered tr).

Definition is_retry (t : Task) : bool :=
  match t with
  | Retry _ _ => true
  | _ => false
  end.

(** The re-attempts that are scheduled. *)
Definition retries (st : @State World) : list (Timers.Timer Task) :=
  List.filter (fun t => is_retry (Timers.task t)) (Timers.pending (timers st)).

End FrameVocabulary.

Section TimerVocabulary.
Context {Task : Type}.

(** The identifiers of the pending timers are distinct and below the next
    one [setTimeout] hands out. *)
Definition timers_wf (tb : Timers.Table Task) : Prop :=
  NoDup (map Timers.timer_id (Timers.pending tb)) /\
  Forall (fun t => (Timers.timer_id t < Timers.next_id tb)%positive) (Timers.pending tb).

End TimerVocabulary.

Section DebounceVocabulary.
Import Dom Userscript.
Context {World : Type} (host : Host World).

Definition is_evaluation (k : nat) (t : Task) : bool :=
  match t with
  | DebouncedEvaluation k' => Nat.eqb k' k
  | _ => false
  end.

(** The pending timers that will run the evaluation of observer [k]. *)
Definition pending_evaluations (k : nat) (st : @State World) : list (Timers.Timer Task) :=
  List.filter (fun t => is_evaluation k (Timers.task t)) (Timers.pending (timers st)).

(** The debounce discipline of observer [k]: a pending evaluation timer of
    [k] is the one its [timer] binding holds. *)
Definition debounce_inv (k : nat) (st : @State World) : Prop :=
  timers_wf (timers st) /\
  Forall (fun t => is_evaluation k (Timers.task t) = true ->
                   timer_of k st = Some (Timers.timer_id t))
    (Timers.pending (timers st)).

(** The timer table once the callback has cleared the pending timer. *)
Definition cleared (k : nat) (st : @State World) : Timers.Table Task :=
  match timer_of k st with
  | Some i => Timers.clearTimeout i (timers st)
  | None => timers st
  end.






End DebounceVocabulary.

Section V3DebounceVocabulary.
Import Dom.
Context {World : Type} (host : Host World).

Definition is_check (m : string) (t : V3.Task) : bool :=
  match t with
  | V3.DebouncedCheck _ key => String.eqb key m
  end.


(** The debounce discipline of message [m]: a pending check timer of [m] is
    the one [debounceTimers[m]] holds. *)
Definition v3_debounce_inv (m : string) (st : @V3.State World) : Prop :=
  timers_wf (V3.timers st) /\
  Forall (fun t => is_check m (Timers.task t) = true ->
                   V3.stored m (V3.debounceTimers st) = Some (Timers.timer_id t))
    (Timers.pending (V3.timers st)).

(** The timer table once the callback has cleared the timer it found under
    [m]. *)
Definition v3_cleared (m : string) (st : @V3.State World) : Timers.Table V3.Task :=
  match V3.stored m (V3.debounceTimers st) with
  | Some i => Timers.clearTimeout i (V3.timers st)
  | None => V3.timers st
  end.

(** A batch that makes the callback of the observer on [el] schedule a check
    for message [m]. *)
Definition v3_significant (m : string) (el : NodeId) (records : list MutationRecord)
    (st : @V3.State World) : Prop :=
  V3.shouldRender records = true /\
  V3.getMessageId (V3.dom st) el = Some m /\
  JSString.nonempty m = true.

Fixpoint v3_burst (el : NodeId) (followers : list (N * list MutationRecord))
    (st : @V3.State World) : @V3.State World :=
  match followers with
  | [] => st
  | (gap, records) :: rest => v3_burst el rest (V3.onMutations el records (V3.elapse gap st)).2
  end.





End V3DebounceVocabulary.

Section ReachableVocabulary.
Import Dom Userscript.
Context {World : Type} (host : Host World).

(** What can happen to the state of the userscript. *)
Inductive step : @State World -> @State World -> Prop :=
| step_observe mesTextEl st : step st (observeMesText host mesTextEl st).2
| step_notify k changes st : step st (notify k changes st).2
| step_fire i st r : fire host i st = Some r -> step st r.2
| step_elapse gap st : step st (elapse gap st)
| step_page w d st : step st (set_env w d st).

Definition reachable (st : @State World) : Prop :=
  exists w d, rtc step (initial w d) st.

(** The timers and the [timer] bindings of the observers fit together. *)
Record coherent (st : @State World) : Prop := {
  coherent_wf : timers_wf (timers st);
  coherent_pending : forall k t,
    t ∈ Timers.pending (timers st) -> is_evaluation k (Timers.task t) = true ->
    timer_of k st = Some (Timers.timer_id t);
  coherent_binding : forall k t,
    timer_of k st = Some (Timers.timer_id t) -> t ∈ Timers.pending (timers st) ->
    is_evaluation k (Timers.task t) = true;
  coherent_below : forall k i,
    timer_of k st = Some i -> (i < Timers.next_id (timers st))%positive;
}.

End ReachableVocabulary.

Section V3ReachableVocabulary.
Import Dom.
Context {World : Type} (host : Host World).

Inductive v3_step : @V3.State World -> @V3.State World -> Prop :=
| v3_step_observe mesTextEl st : v3_step st (V3.observeMesText mesTextEl st).2
| v3_step_chat mutations st : v3_step st (V3.onChatMutations mutations st).2
| v3_step_notify k changes st : v3_step st (V3.notify k changes st).2
| v3_step_fire i st r : V3.fire host i st = Some r -> v3_step st r.2
| v3_step_elapse gap st : v3_step st (V3.elapse gap st)
| v3_step_page w d st : v3_step st (V3.set_env w d st).

Definition v3_reachable (st : @V3.State World) : Prop :=
  exists w d, rtc v3_step (V3.initial w d) st.

(** The timers and the entries of [debounceTimers] fit together; the
    checks scheduled for a message called [__proto__] are in no entry. *)
Record v3_coherent (st : @V3.State World) : Prop := {
  v3_coherent_wf : timers_wf (V3.timers st);
  v3_coherent_pending : forall m t,
    V3.is_proto m = false ->
    t ∈ Timers.pending (V3.timers st) -> is_check m (Timers.task t) = true ->
    V3.debounceTimers st !! m = Some (Timers.timer_id t);
  v3_coherent_entry : forall m t,
    V3.debounceTimers st !! m = Some (Timers.timer_id t) ->
    t ∈ Timers.pending (V3.timers st) ->
    is_check m (Timers.task t) = true;
  v3_coherent_below : forall m i,
    V3.debounceTimers st !! m = Some i -> (i < Timers.next_id (V3.timers st))%positive;
}.

End V3ReachableVocabulary.

(** Two nodes arrive in the message of [page]. *)
Definition nodes_added : list Dom.MutationRecord :=
  [{| Dom.type := Dom.childList; Dom.target := 3%N;
      Dom.addedNodes := [Dom.Text 20%N "translated"]; Dom.removedNodes := [] |}].

(** The rendered wrapper leaves the message of [page]. *)
Definition wrapper_removed : list Dom.MutationRecord :=
  [{| Dom.type := Dom.childList; Dom.target := 3%N;
      Dom.addedNodes := [];
      Dom.removedNodes :=
        [Dom.Element 4%N "div" ["TH-render"] []
           [Dom.Element 7%N "iframe" [] [] []]] |}].

(** * The start-up code of the two scripts

    What the scripts do when they are loaded: they look for the chat
    container, observe the messages that are there and register an observer on
    the container for the messages to come. *)

(** ** Queries on the document *)

Module Document.
Import Dom.

(** The selector [#i]. *)
Definition has_id (i : string) (n : Node) : bool :=
  match getAttribute "id" n with
  | Some v => String.eqb v i
  | None => false
  end.

(** [document.querySelector(sel)]: the first element in document order that
    matches. *)
Definition querySelector (d : DOM) (sel : Node -> bool) : option Node :=
  List.find (fun n => is_element n && sel n) (all_nodes d).

Definition getElementById (d : DOM) (i : string) : option Node :=
  querySelector d (has_id i).

(** [document.body]: the first [body] or [frameset] child of the [html]
    element. *)
Definition body (d : DOM) : option Node :=
  match List.find is_element d with
  | Some html =>
      if has_tag "html" html
      then List.find (fun c => has_tag "body" c || has_tag "frameset" c) (children html)
      else None
  | None => None
  end.

(** The ancestors of a node, the nearest first. *)
Definition ancestors (d : DOM) (i : NodeId) : list Node := tl (rev (path_in d i)).

(** The selector ['.mes .mes_text']: an element of class [mes_text] below an
    element of class [mes]. *)
Definition mes_mes_text (d : DOM) (n : Node) : bool :=
  has_class "mes_text" n && existsb (has_class "mes") (ancestors d (node_id n)).

End Document.

(** [document.readyState] *)
Inductive ReadyState := loading | interactive | complete.

(** What [setup] uses of the event bus of the host. *)
Record EventBus (World : Type) := {
  (** [typeof window.eventSource.on === 'function'] *)
  eventSource_on_is_function : World -> bool;
  (** [window.eventSource.on(name, handler)] *)
  eventSource_on : string -> HostCall World;
}.
Arguments eventSource_on_is_function {World} _.
Arguments eventSource_on {World} _.

(** ** The start of the userscript

    [setup] runs once.  The object [state] it makes is the pair of [observed]
    and [observers] of the state of the script; the array [state.observers] is
    written and never read, and the observer of the chat container, which the
    source pushes to it as well, is kept in a field of its own.  The callback
    of [chatLoaded] does not keep the identifiers of its timers, so the
    pending re-scans are kept as the times at which they are due. *)

Module UserscriptSetup.
Import Dom.

Definition CHAT_SELECTOR : Node -> bool := Document.has_id "chat".
Definition MESSAGE_SELECTOR : Node -> bool := Userscript.MESSAGE_SELECTOR.
Definition MESSAGE_TEXT_SELECTOR : Node -> bool := has_class "mes_text".

(** [a || b] on two nodes that may be [null]. *)
Definition or_node (a b : option Node) : option Node :=
  match a with
  | Some _ => a
  | None => b
  end.

(** The chat container [setup] settles on. *)
Definition chat_container (d : DOM) : option Node :=
  match Document.querySelector d CHAT_SELECTOR with
  | Some chatEl => Some chatEl
  | None =>
      or_node (Document.getElementById d "chat")
        (or_node (Document.querySelector d (has_class "chat")) (Document.body d))
  end.

(** [chatEl.querySelectorAll(MESSAGE_SELECTOR + ' ' + MESSAGE_TEXT_SELECTOR)] *)
Definition message_texts (d : DOM) (chatEl : NodeId) : list Node :=
  querySelectorAll d chatEl (Document.mes_mes_text d).

(** The options of the observer of the chat container. *)
Definition chat_options : MutationObserverInit :=
  {| init_childList := true; init_subtree := true;
     init_characterData := false; init_attributes := false |}.

(** [el.querySelector(MESSAGE_TEXT_SELECTOR) || el.querySelector('.mes_text')] *)
Definition mes_text_of (el : Node) : option Node :=
  or_node (querySelector_of el MESSAGE_TEXT_SELECTOR) (querySelector_of el (has_class "mes_text")).

Section WithHost.
Context {World : Type} (host : Host World) (bus : EventBus World).

Record State := {
  script : @Userscript.State World;
  chatEl : option NodeId;       (** the binding [chatEl] of [setup] *)
  chatObserver : option (NodeId * MutationObserverInit);
  listening : bool;             (** [setup] waits for [DOMContentLoaded] *)
  chatLoaded : bool;            (** the callback of [chatLoaded] is registered *)
  rescans : list N;
}.

Definition set_script (s : @Userscript.State World) (st : State) : State :=
  {| script := s; chatEl := chatEl st; chatObserver := chatObserver st;
     listening := listening st; chatLoaded := chatLoaded st; rescans := rescans st |}.

Definition set_chatEl (c : option NodeId) (st : State) : State :=
  {| script := script st; chatEl := c; chatObserver := chatObserver st;
     listening := listening st; chatLoaded := chatLoaded st; rescans := rescans st |}.

Definition set_chatObserver (o : option (NodeId * MutationObserverInit)) (st : State) : State :=
  {| script := script st; chatEl := chatEl st; chatObserver := o;
     listening := listening st; chatLoaded := chatLoaded st; rescans := rescans st |}.

Definition set_listening (b : bool) (st : State) : State :=
  {| script := script st; chatEl := chatEl st; chatObserver := chatObserver st;
     listening := b; chatLoaded := chatLoaded st; rescans := rescans st |}.

Definition set_chatLoaded (b : bool) (st : State) : State :=
  {| script := script st; chatEl := chatEl st; chatObserver := chatObserver st;
     listening := listening st; chatLoaded := b; rescans := rescans st |}.

Definition set_rescans (l : list N) (st : State) : State :=
  {| script := script st; chatEl := chatEl st; chatObserver := chatObserver st;
     listening := listening st; chatLoaded := chatLoaded st; rescans := l |}.

(** A statement or a function of the script, run on the state of the
    script. *)
Definition lift {X} (m : @Userscript.State World -> X * @Userscript.State World)
  : State -> X * State :=
  fun st => ((m (script st)).1, set_script (m (script st)).2 st).

(** [els.forEach(el => observeMesText(el, state))] *)
Definition observe_each {R} (els : list Node) : Stmt State R unit :=
  for_of els (fun el => lift (call (Userscript.observeMesText host (Some (node_id el))))).

(** [window.eventSource.on('chatLoaded', ...)], inside its [try]. *)
Definition listen {R} : Stmt State R unit :=
  try_catch
    (lift (Userscript.host_call (eventSource_on bus "chatLoaded")) ;;
     modify (set_chatLoaded true))%stmt
    (fun e => ret tt).

Definition setup : State -> Result unit * State :=
  function tt
    (lift (Userscript.log host) ;;
     chat <- gets (fun st => chat_container (Userscript.dom (script st))) ;;
     match chat with
     | None => throw TypeError
     | Some chat =>
         modify (set_chatEl (Some (node_id chat))) ;;
         existing <- gets (fun st => message_texts (Userscript.dom (script st)) (node_id chat)) ;;
         observe_each existing ;;
         modify (set_chatObserver (Some (node_id chat, chat_options))) ;;
         es <- gets (fun st => window_eventSource host (Userscript.world (script st))) ;;
         match es with
         | ES_undefined => ret tt
         | ES_null => throw TypeError
         | ES_object =>
             is_function <- gets (fun st =>
               eventSource_on_is_function bus (Userscript.world (script st))) ;;
             if is_function : bool then listen else ret tt
         end ;;
         lift (Userscript.log host)
     end)%stmt.

(** The callback of the observer of the chat container. *)
Definition onChatMutations (mutations : list MutationRecord) : State -> Result unit * State :=
  function tt
    (for_of mutations
       (fun m =>
          for_of (addedNodes m)
            (fun node =>
               if negb (is_element node) then ret tt
               else if MESSAGE_SELECTOR node then
                 match mes_text_of node with
                 | Some mesText =>
                     lift (call (Userscript.observeMesText host (Some (node_id mesText))))
                 | None => ret tt
                 end
               else
                 for_of (querySelectorAll_of node MESSAGE_SELECTOR)
                   (fun mes =>
                      match mes_text_of mes with
                      | Some mesText =>
                          lift (call (Userscript.observeMesText host (Some (node_id mesText))))
                      | None => ret tt
                      end))))%stmt.

(** The callback of [chatLoaded]: a re-scan 400ms later. *)
Definition onChatLoaded : State -> Result unit * State :=
  function tt
    (lift (Userscript.log host) ;;
     modify (fun st => set_rescans (rescans st ++ [Userscript.now (script st) + 400]%N) st))%stmt.

(** The re-scan. *)
Definition rescan : State -> Result unit * State :=
  function tt
    (chat <- gets chatEl ;;
     match chat with
     | None => throw TypeError
     | Some chatEl =>
         all <- gets (fun st => message_texts (Userscript.dom (script st)) chatEl) ;;
         observe_each all
     end)%stmt.

(** The last lines of the script. *)
Definition start (readyState : ReadyState) : State -> Result unit * State :=
  match readyState with
  | loading => fun st => (Ok tt, set_listening true st)
  | _ => setup
  end.

(** *** What the browser and the host do with the registrations *)

(** [DOMContentLoaded] is fired once. *)
Definition onDOMContentLoaded (st : State) : option (Result unit * State) :=
  if listening st then Some (setup (set_listening false st)) else None.

(** The browser hands the observer of the chat container the records it
    registered for. *)
Definition notify_chat (changes : list MutationRecord) (st : State) : Result unit * State :=
  match chatObserver st with
  | Some (el, o) =>
      match queued (Userscript.dom (script st)) el o changes with
      | [] => (Ok tt, st)
      | records => onChatMutations records st
      end
  | None => (Ok tt, st)
  end.

(** A pending re-scan that is due runs. *)
Definition fire_rescan (j : nat) (st : State) : option (Result unit * State) :=
  match rescans st !! j with
  | Some due =>
      if (due <=? Userscript.now (script st))%N
      then Some (rescan (set_rescans (delete j (rescans st)) st))
      else None
  | None => None
  end.

(** The state the script is loaded in. *)
Definition initial (w : World) (d : DOM) : State :=
  {| script := Userscript.initial w d; chatEl := None; chatObserver := None;
     listening := false; chatLoaded := false; rescans := [] |}.

End WithHost.
End UserscriptSetup.

(** ** The start of the extension

    [setupObservers] calls itself every second until the chat container is
    there.  The bindings [observedElements] and [debounceTimers] it then
    makes are those of the state of the script; like the re-scans of the
    userscript, the pending calls of [setupObservers] are kept as the times at
    which they are due. *)

Module V3Setup.
Import Dom.

(** The options of the observer of the chat container. *)
Definition chat_options : MutationObserverInit :=
  {| init_childList := true; init_subtree := false;
     init_characterData := false; init_attributes := false |}.

(** [chatEl.querySelectorAll('.mes .mes_text')] *)
Definition message_texts (d : DOM) (chatEl : NodeId) : list Node :=
  querySelectorAll d chatEl (Document.mes_mes_text d).

Section WithHost.
Context {World : Type} (host : Host World).

Record State := {
  script : @V3.State World;
  chatObserver : option (NodeId * MutationObserverInit);
  listening : bool;     (** [setupObservers] waits for [DOMContentLoaded] *)
  setups : list N;      (** when the pending calls of [setupObservers] are due *)
}.

Definition set_script (s : @V3.State World) (st : State) : State :=
  {| script := s; chatObserver := chatObserver st; listening := listening st;
     setups := setups st |}.

Definition set_chatObserver (o : option (NodeId * MutationObserverInit)) (st : State) : State :=
  {| script := script st; chatObserver := o; listening := listening st; setups := setups st |}.

Definition set_listening (b : bool) (st : State) : State :=
  {| script := script st; chatObserver := chatObserver st; listening := b; setups := setups st |}.

Definition set_setups (l : list N) (st : State) : State :=
  {| script := script st; chatObserver := chatObserver st; listening := listening st;
     setups := l |}.

Definition lift {X} (m : @V3.State World -> X * @V3.State World) : State -> X * State :=
  fun st => ((m (script st)).1, set_script (m (script st)).2 st).

Definition setupObservers : State -> Result unit * State :=
  function tt
    (chat <- gets (fun st => Document.getElementById (V3.dom (script st)) "chat") ;;
     match chat with
     | None =>
         modify (fun st => set_setups (setups st ++ [V3.now (script st) + 1000]%N) st) ;;
         return_ tt
     | Some chatEl =>
         existing <- gets (fun st => message_texts (V3.dom (script st)) (node_id chatEl)) ;;
         for_of existing (fun el => lift (call (V3.observeMesText (node_id el)))) ;;
         modify (set_chatObserver (Some (node_id chatEl, chat_options)))
     end)%stmt.

(** The last lines of the script. *)
Definition start (readyState : ReadyState) : State -> Result unit * State :=
  match readyState with
  | loading => fun st => (Ok tt, set_listening true st)
  | _ => setupObservers
  end.

(** [DOMContentLoaded] is fired once. *)
Definition onDOMContentLoaded (st : State) : option (Result unit * State) :=
  if listening st then Some (setupObservers (set_listening false st)) else None.

(** A pending call of [setupObservers] that is due runs. *)
Definition fire_setup (j : nat) (st : State) : option (Result unit * State) :=
  match setups st !! j with
  | Some due =>
      if (due <=? V3.now (script st))%N
      then Some (setupObservers (set_setups (delete j (setups st)) st))
      else None
  | None => None
  end.

(** The browser hands the observer of the chat container the records it
    registered for. *)
Definition notify_chat (changes : list MutationRecord) (st : State) : Result unit * State :=
  match chatObserver st with
  | Some (el, o) =>
      match queued (V3.dom (script st)) el o changes with
      | [] => (Ok tt, st)
      | records => lift (V3.onChatMutations records) st
      end
  | None => (Ok tt, st)
  end.

Definition initial (w : World) (d : DOM) : State :=
  {| script := V3.initial w d; chatObserver := None; listening := false; setups := [] |}.

End WithHost.
End V3Setup.

(** * The vocabulary of the further properties *)

Section AttemptVocabulary.
Import Dom Userscript.
Context {World : Type}.

(** How many attempts of strategy [k] are on record. *)
Definition attempts_of (k : nat) (evs : list Event) : nat :=
  length (List.filter (fun e => Nat.eqb (rank e) k) evs).

(** A statement that makes at most one attempt, and none when it completes
    normally. *)
Definition one_shot {A} (m : Stmt (@State World) bool A) : Prop :=
  forall st, exists evs,
    trace (m st).2 = trace st ++ evs /\
    length evs <= 1 /\
    (forall a, (m st).1 = Normal a -> evs = []).

(** A statement that makes at most [n] attempts. *)
Definition bounded {A} (n : nat) (m : Stmt (@State World) bool A) : Prop :=
  forall st, exists evs, trace (m st).2 = trace st ++ evs /\ length evs <= n.

(** A statement whose attempts stay within [limits], strategy by strategy;
    the fourth strategy, which tries as many functions as it finds, is left
    out of the count. *)
Definition within {A} (limits : nat -> nat) (m : Stmt (@State World) bool A) : Prop :=
  forall st, exists evs,
    trace (m st).2 = trace st ++ evs /\
    forall k, k <> 4 -> attempts_of k evs <= limits k.

(** The limit of a block of strategy [k] that makes at most [n] attempts. *)
Definition only (k n : nat) : nat -> nat := fun j => if Nat.eqb j k then n else 0.

End AttemptVocabulary.

Section ObservedVocabulary.
Import Dom Userscript.
Context {World : Type}.

(** An observer without its timer binding: the element it sits on, the
    message id it was made with and its options. *)
Definition site (o : Observer) : NodeId * option string * MutationObserverInit :=
  (mesTextEl_of o, messageId_of o, options o).

Definition sites (st : @State World) : list (NodeId * option string * MutationObserverInit) :=
  map site (observers st).

(** The observers that sit on [el]. *)
Definition sites_on (el : NodeId) (st : @State World)
  : list (NodeId * option string * MutationObserverInit) :=
  List.filter (fun s => N.eqb s.1.1 el) (sites st).

(** What holds of the observers of the userscript at any time: no two sit on
    the same element, each sits on an element of [state.observed], and each
    was registered with the options of [observeMesText]. *)
Definition settled (st : @State World) : Prop :=
  NoDup (map (fun s => s.1.1) (sites st)) /\
  (forall s, s ∈ sites st -> s.1.1 ∈ observed st) /\
  Forall (fun s => s.2 = observer_options) (sites st).

(** The records the browser makes of the marker of the last resort: of its
    insertion under [el], and of its removal. *)
Definition marker_inserted (el marker : NodeId) : MutationRecord :=
  {| type := childList; target := el;
     addedNodes := [marker_node marker]; removedNodes := [] |}.

Definition marker_removed (el marker : NodeId) : MutationRecord :=
  {| type := childList; target := el;
     addedNodes := []; removedNodes := [marker_node marker] |}.

End ObservedVocabulary.

Section StartVocabulary.
Import Dom.
Context {World : Type} (host : Host World) (bus : EventBus World).

(** What can happen once the userscript is loaded: the document gets ready,
    the script itself takes a step, the chat container changes, the host
    announces [chatLoaded], a re-scan runs. *)
Inductive us_step : @UserscriptSetup.State World -> @UserscriptSetup.State World -> Prop :=
| us_step_ready st r :
    UserscriptSetup.onDOMContentLoaded host bus st = Some r -> us_step st r.2
| us_step_script st s :
    step host (UserscriptSetup.script st) s -> us_step st (UserscriptSetup.set_script s st)
| us_step_chat changes st :
    us_step st (UserscriptSetup.notify_chat host changes st).2
| us_step_chatLoaded st :
    UserscriptSetup.chatLoaded st = true -> us_step st (UserscriptSetup.onChatLoaded host st).2
| us_step_rescan j st r :
    UserscriptSetup.fire_rescan host j st = Some r -> us_step st r.2.

(** The states of the userscript after it was loaded into some page. *)
Definition us_started (st : @UserscriptSetup.State World) : Prop :=
  exists readyState w d,
    rtc us_step (UserscriptSetup.start host bus readyState (UserscriptSetup.initial w d)).2 st.

(** A statement or function of the start-up code that moves the state of the
    script by steps of the script. *)
Definition by_steps {X}
    (m : @UserscriptSetup.State World -> X * @UserscriptSetup.State World) : Prop :=
  forall st, rtc (step host) (UserscriptSetup.script st) (UserscriptSetup.script (m st).2).

(** The calls of [observeMesText] a list of elements stands for. *)
Definition calls_on (els : list Node) : list (option NodeId) :=
  map (fun el => Some (node_id el)) els.

(** A statement of the start-up code that completes normally, takes nothing
    out of [state.observed] and puts the elements of [P] into it. *)
Definition marks {R A} (P : NodeId -> Prop) (m : Stmt (@UserscriptSetup.State World) R A)
  : Prop :=
  forall st,
    (exists a, (m st).1 = Normal a) /\
    Userscript.observed (UserscriptSetup.script st)
      ⊆ Userscript.observed (UserscriptSetup.script (m st).2) /\
    forall i, P i -> i ∈ Userscript.observed (UserscriptSetup.script (m st).2).

(** The message-text elements the chat callback finds for an added node:
    that of the node when the node is a message, those of the messages
    inside it otherwise. *)
Definition found_under (node : Node) (i : NodeId) : Prop :=
  is_element node = true /\
  exists mes mesText,
    (if UserscriptSetup.MESSAGE_SELECTOR node then mes = node
     else mes ∈ querySelectorAll_of node UserscriptSetup.MESSAGE_SELECTOR) /\
    UserscriptSetup.mes_text_of mes = Some mesText /\
    i = node_id mesText.

End StartVocabulary.

Section V3StartVocabulary.
Import Dom.
Context {World : Type} (host : Host World).

(** Any run of calls of the extension's [observeMesText]. *)
Fixpoint v3_observe_all (calls : list NodeId) (st : @V3.State World) : @V3.State World :=
  match calls with
  | [] => st
  | el :: rest => v3_observe_all rest (V3.observeMesText el st).2
  end.

(** What can happen once the extension is loaded: the document gets ready, a
    pending call of [setupObservers] runs, the script itself takes a step,
    the chat container changes. *)
Inductive v3_setup_step : @V3Setup.State World -> @V3Setup.State World -> Prop :=
| v3_setup_step_ready st r :
    V3Setup.onDOMContentLoaded st = Some r -> v3_setup_step st r.2
| v3_setup_step_again j st r :
    V3Setup.fire_setup j st = Some r -> v3_setup_step st r.2
| v3_setup_step_script st s :
    v3_step host (V3Setup.script st) s -> v3_setup_step st (V3Setup.set_script s st)
| v3_setup_step_chat changes st :
    v3_setup_step st (V3Setup.notify_chat changes st).2.

(** The states of the extension after it was loaded into some page. *)
Definition v3_started (st : @V3Setup.State World) : Prop :=
  exists readyState w d,
    rtc v3_setup_step (V3Setup.start readyState (V3Setup.initial w d)).2 st.

(** How many calls of [setupObservers] are still to come, and how many
    observers sit on the chat container. *)
Definition to_come (st : @V3Setup.State World) : nat :=
  (if V3Setup.listening st then 1 else 0) + length (V3Setup.setups st).

Definition on_chat (st : @V3Setup.State World) : nat :=
  match V3Setup.chatObserver st with
  | Some _ => 1
  | None => 0
  end.

End V3StartVocabulary.

(** ** More hosts and pages to run the scripts on *)

(** An event bus that takes the registration of a callback. *)
Definition willing_bus : EventBus unit :=
  {| eventSource_on_is_function := fun _ => true;
     eventSource_on := fun _ => returns_normally |}.

(** A page with an event bus whose [emit] throws; everything else comes
    back. *)
Definition faulty_bus_host : Host unit :=
  {| console_log := returns_normally;
     window_TavernHelper := fun _ => TH_undefined;
     refreshOneMessage := fun _ => throws;
     window_eventSource := fun _ => ES_object;
     window_event_types := fun _ => ET_object (JSStr "message_updated");
     eventSource_emit := fun _ _ => throws;
     dispatchEvent := fun _ _ => returns_normally;
     getOwnPropertyNames := fun _ => ["postMessage"; "document"];
     window_is_function := fun _ name => String.eqb name "postMessage";
     call_global := fun _ _ => returns_normally;
     click := fun _ => returns_normally;
     document_createElement := fun w => (Ok tt, w) |}.

(** A chat with one message that holds a block of plain text followed by a
    bare front-end block. *)
Definition plain_first_page : Dom.DOM :=
  [Dom.Element 1%N "div" ["chat"] [("id", "chat")]
     [Dom.Element 2%N "div" ["mes"] [("mesid", "7")]
        [Dom.Element 3%N "div" ["mes_text"] []
           [Dom.Element 4%N "pre" [] [] [Dom.Text 5%N "plain text"];
            Dom.Element 6%N "pre" [] [] [Dom.Text 7%N "<html><body>two</body></html>"]]]]].

(** The same chat with the two blocks the other way round. *)
Definition bare_first_page : Dom.DOM :=
  [Dom.Element 1%N "div" ["chat"] [("id", "chat")]
     [Dom.Element 2%N "div" ["mes"] [("mesid", "7")]
        [Dom.Element 3%N "div" ["mes_text"] []
           [Dom.Element 4%N "pre" [] [] [Dom.Text 5%N "<html><body>two</body></html>"];
            Dom.Element 6%N "pre" [] [] [Dom.Text 7%N "plain text"]]]]].

(** The message of [page] arrives in the chat container. *)
Definition message_added : list Dom.MutationRecord :=
  [{| Dom.type := Dom.childList; Dom.target := 1%N;
      Dom.addedNodes := [page_mes]; Dom.removedNodes := [] |}].

(** A chat with two messages. *)
Definition two_messages : Dom.DOM :=
  [Dom.Element 1%N "div" ["chat"] [("id", "chat")]
     [Dom.Element 2%N "div" ["mes"] [("mesid", "7")]
        [Dom.Element 3%N "div" ["mes_text"] []
           [Dom.Element 4%N "pre" [] [] [Dom.Text 5%N "<html><body>one</body></html>"]]];
      Dom.Element 12%N "div" ["mes"] [("mesid", "8")]
        [Dom.Element 13%N "div" ["mes_text"] []
           [Dom.Element 14%N "pre" [] [] [Dom.Text 15%N "<html><body>two</body></html>"]]]]].

(** The userscript observes both, and a change of the first has started its
    debounce timer. *)
Definition first_changed : @Userscript.State unit :=
  (Userscript.notify 0 nodes_added
     (Userscript.observeMesText bare_host (Some 13%N)
        (Userscript.observeMesText bare_host (Some 3%N)
           (Userscript.initial tt two_messages)).2).2).2.

(** The extension observes both, and the removal of a rendered wrapper from
    the first has started its debounce timer. *)
Definition v3_first_changed : @V3.State unit :=
  (V3.notify 0 wrapper_removed
     (V3.observeMesText 13%N
        (V3.observeMesText 3%N (V3.initial tt two_messages)).2).2).2.

(** A page on which nothing but the marker works: no TavernHelper, no
    event bus; dispatching a custom event, the matching global function and
    the buttons throw. *)
Definition marker_only_host : Host unit :=
  {| console_log := returns_normally;
     window_TavernHelper := fun _ => TH_undefined;
     refreshOneMessage := fun _ => throws;
     window_eventSource := fun _ => ES_undefined;
     window_event_types := fun _ => ET_undefined;
     eventSource_emit := fun _ _ => throws;
     dispatchEvent := fun _ _ => throws;
     getOwnPropertyNames := fun _ => ["postMessage"; "document"];
     window_is_function := fun _ name => String.eqb name "postMessage";
     call_global := fun _ _ => throws;
     click := fun _ => throws;
     document_createElement := fun w => (Ok tt, w) |}.

(** The identities of the children of a node of the forest. *)
Definition children_ids (d : Dom.DOM) (i : Dom.NodeId) : list Dom.NodeId :=
  match Dom.find_node d i with
  | Some n => ids (Dom.children n)
  | None => []
  end.




(** A message text whose only button is labelled [Rend] between two
    no-break spaces (U+00A0). *)
Definition nbsp : string := String (ascii_of_nat 194) (String (ascii_of_nat 160) EmptyString).

Definition nbsp_button_page : Dom.DOM :=
  [Dom.Element 1%N "div" ["chat"] [("id", "chat")]
     [Dom.Element 2%N "div" ["mes"] [("mesid", "7")]
        [Dom.Element 3%N "div" ["mes_text"] []
           [Dom.Element 4%N "button" [] []
              [Dom.Text 5%N (String.append nbsp (String.append "Rend" nbsp))]]]]].

(** A message called [__proto__], with a rendered block. *)
Definition proto_page : Dom.DOM :=
  [Dom.Element 1%N "div" ["chat"] [("id", "chat")]
     [Dom.Element 2%N "div" ["mes"] [("mesid", "__proto__")]
        [Dom.Element 3%N "div" ["mes_text"] []
           [Dom.Element 4%N "div" ["TH-render"] []
              [Dom.Element 7%N "iframe" [] [] []]]]]].


(** * Properties *)

Local Open Scope string_scope.

(** ** Strings *)

Section StringFacts.
Import JSString.

Lemma app_cons a (s t : string) : String a s ++ t = String a (s ++ t).
Proof. reflexivity. Qed.

Lemma app_empty (t : string) : "" ++ t = t.
Proof. reflexivity. Qed.

Lemma startsWith_spec s t : startsWith s t = true <-> exists post, s = t ++ post.
Proof.
  revert s; induction t as [|b t IH]; intros s.
  - split; [intros _; exists s; reflexivity | intros _; destruct s; reflexivity].
  - destruct s as [|a s]; simpl.
    + split; [discriminate | intros [post H]; discriminate].
    + setoid_rewrite app_cons. destruct (Ascii.eqb_spec a b) as [->|Hne].
      * rewrite IH. split; intros [post H]; exists post; congruence.
      * split; [discriminate | intros [post H]; congruence].
Qed.

Lemma includes_empty t : includes "" t = startsWith "" t || false.
Proof. reflexivity. Qed.

Lemma includes_cons a s t :
  includes (String a s) t = startsWith (String a s) t || includes s t.
Proof. reflexivity. Qed.

Lemma includes_spec s t : includes s t = true <-> contains s t.
Proof.
  unfold contains. induction s as [|a s IH];
    [rewrite includes_empty | rewrite includes_cons].
  - rewrite orb_false_r, startsWith_spec. split.
    + intros [post H]. exists "", post. exact H.
    + intros [pre [post H]]. destruct pre as [|c pre].
      * exists post. exact H.
      * rewrite app_cons in H. discriminate.
  - rewrite orb_true_iff, startsWith_spec, IH. split.
    + intros [[post H] | [pre [post H]]].
      * exists "", post. exact H.
      * exists (String a pre), post. rewrite app_cons. congruence.
    + intros [pre [post H]]. destruct pre as [|c pre].
      * left. exists post. exact H.
      * right. exists pre, post. rewrite app_cons in H. congruence.
Qed.

Lemma includes_false s t : includes s t = false <-> ~ contains s t.
Proof.
  rewrite <- includes_spec. destruct (includes s t); split; intros H; congruence.
Qed.

Lemma some_true {A} (p : A -> bool) l :
  some p l = true <-> exists x, x ∈ l /\ p x = true.
Proof.
  induction l as [|y l IH]; simpl.
  - split; [discriminate | intros [x [Hx _]]; inversion Hx].
  - destruct (p y) eqn:Hy.
    + split; [intros _; exists y; split; [left | done] | done].
    + rewrite IH. split; intros [x [Hx Hp]]; exists x; split; try done.
      * by right.
      * inversion Hx; subst; [congruence | done].
Qed.

End StringFacts.

(** ** [isFrontend] *)

Section IsFrontendFacts.
Import JSString.

Lemma v3_isFrontend_spec s :
  exists b, V3.isFrontend (JSStr s) = Ok b /\
    (b = true <-> exists m, m ∈ ["html>"; "<head>"; "<body"] /\ contains s m).
Proof.
  eexists; split; [reflexivity |].
  rewrite some_true. by setoid_rewrite includes_spec.
Qed.

Lemma userscript_isFrontend_spec s :
  exists b, Userscript.isFrontend (JSStr s) = Ok b /\
    (b = true <-> exists m, m ∈ Userscript.FRONTEND_MARKERS /\ contains (toLowerCase s) m).
Proof.
  destruct s as [|c s].
  - exists false. split; [reflexivity |]. split; [discriminate |].
    intros [m [Hm Hc]]. apply includes_spec in Hc.
    unfold Userscript.FRONTEND_MARKERS in Hm.
    repeat (apply elem_of_cons in Hm as [-> | Hm]; [discriminate Hc |]).
    inversion Hm.
  - eexists; split; [reflexivity |].
    rewrite some_true. by setoid_rewrite includes_spec.
Qed.

(** C3, as stated, fails for the userscript: ["<BODY>"] holds none of the
    three substrings, and the userscript's [isFrontend] says yes. *)
Lemma userscript_isFrontend_uppercase_body :
  Userscript.isFrontend (JSStr "<BODY>") = Ok true /\
  ~ (exists m, m ∈ ["html>"; "<head>"; "<body"] /\ contains "<BODY>" m).
Proof.
  split; [reflexivity |].
  intros [m [Hm Hc]]. apply includes_spec in Hc.
  repeat (apply elem_of_cons in Hm as [-> | Hm]; [discriminate Hc |]).
  inversion Hm.
Qed.

(** C3, amended: on every string, the extension's [isFrontend] answers yes
    exactly when the content holds one of ['html>'], ['<head>'], ['<body'],
    and the userscript's [isFrontend] answers yes exactly when the
    lower-cased content holds one of them; otherwise each answers no. *)
Theorem isFrontend_markers (s : string) :
  (exists b, V3.isFrontend (JSStr s) = Ok b /\
     (b = true <-> exists m, m ∈ ["html>"; "<head>"; "<body"] /\ contains s m)) /\
  (exists b, Userscript.isFrontend (JSStr s) = Ok b /\
     (b = true <-> exists m, m ∈ ["html>"; "<head>"; "<body"] /\ contains (toLowerCase s) m)).
Proof.
  split; [apply v3_isFrontend_spec | apply userscript_isFrontend_spec].
Qed.

(** C9: the userscript's [isFrontend] lower-cases the content before it looks
    for the markers, so a content whose lower-casing holds a marker is
    front-end code (['<BODY>'] is), and [null], [undefined] and the empty
    string are not, without an exception. *)
Theorem userscript_isFrontend_case_insensitive :
  (forall s m, m ∈ Userscript.FRONTEND_MARKERS -> contains (toLowerCase s) m ->
     Userscript.isFrontend (JSStr s) = Ok true) /\
  Userscript.isFrontend (JSStr "<BODY>") = Ok true /\
  Userscript.isFrontend JSNull = Ok false /\
  Userscript.isFrontend JSUndefined = Ok false /\
  Userscript.isFrontend (JSStr "") = Ok false.
Proof.
  split; [| by repeat split].
  intros s m Hm Hc.
  destruct (userscript_isFrontend_spec s) as [b [-> Hb]].
  f_equal. apply Hb. by exists m.
Qed.

Lemma userscript_isFrontend_case_insensitive_witness :
  Userscript.isFrontend (JSStr "<Body class=x>") = Ok true.
Proof.
  apply (proj1 userscript_isFrontend_case_insensitive "<Body class=x>" "<body").
  - right; right; left.
  - exists "", " class=x>". reflexivity.
Defined.

End IsFrontendFacts.

Local Open Scope list_scope.

(** ** The DOM *)

Section DomFacts.
Import Dom.

Lemma Node_rect_list (P : Node -> Prop) :
  (forall i d, P (Text i d)) ->
  (forall i t cl attrs cs, Forall P cs -> P (Element i t cl attrs cs)) ->
  forall n, P n.
Proof.
  intros HText HElement. fix IH 1.
  intros [i t cl attrs cs | i d]; [apply HElement | apply HText].
  induction cs as [|c cs IHcs]; constructor; [apply IH | apply IHcs].
Qed.

Lemma descendants_Element i t cl attrs cs :
  descendants (Element i t cl attrs cs) = flat_map subtree cs.
Proof.
  simpl. induction cs as [|c cs IH]; [done |]. simpl. by rewrite IH.
Qed.

Lemma prune_Element c i t cl attrs cs :
  prune c (Element i t cl attrs cs) = Element i t cl attrs (prune_children c cs).
Proof.
  simpl. f_equal. induction cs as [|k cs IH]; [done |]. simpl. by rewrite IH.
Qed.

Lemma node_id_append_under p c n : node_id (append_under p c n) = node_id n.
Proof. by destruct n. Qed.

Lemma fold_max_le (l : list N) x : x ∈ l -> (x <= fold_right N.max 0 l)%N.
Proof.
  induction l as [|y l IH]; [by inversion 1 |].
  intros [-> | H]%elem_of_cons; simpl; [lia |]. specialize (IH H). lia.
Qed.

Lemma fresh_id_fresh d : fresh_id d ∉ ids (all_nodes d).
Proof.
  intros H. apply fold_max_le in H. unfold fresh_id, ids in H. lia.
Qed.

Lemma prune_children_app c l1 l2 :
  prune_children c (l1 ++ l2) = prune_children c l1 ++ prune_children c l2.
Proof.
  induction l1 as [|k l1 IH]; [done |]. simpl. destruct (N.eqb _ _); [done |].
  simpl. by rewrite IH.
Qed.

Lemma ids_subtree_Element i t cl attrs cs :
  ids (subtree (Element i t cl attrs cs)) = i :: ids (flat_map subtree cs).
Proof. unfold subtree. by rewrite descendants_Element. Qed.

Lemma ids_flat_map_cons k cs :
  ids (flat_map subtree (k :: cs)) = ids (subtree k) ++ ids (flat_map subtree cs).
Proof. unfold ids. simpl. by rewrite map_app. Qed.

(** Taking the appended node away again gives the tree back, when the
    identity of the appended node is new to the tree. *)
Lemma prune_append_under p c n :
  node_id c ∉ ids (subtree n) ->
  prune (node_id c) (append_under p c n) = n.
Proof.
  induction n as [i d | i t cl attrs cs IH] using Node_rect_list; [done |].
  rewrite ids_subtree_Element. intros Hnew.
  apply not_elem_of_cons in Hnew as [Hi Hcs].
  simpl append_under. rewrite prune_Element. f_equal.
  assert (Hmap : prune_children (node_id c) (List.map (append_under p c) cs) = cs).
  { clear Hi. induction cs as [|k cs IHcs]; [done |].
    rewrite ids_flat_map_cons in Hcs. apply not_elem_of_app in Hcs as [Hk Hcs].
    apply Forall_cons in IH as [IHk IH]. simpl.
    rewrite node_id_append_under.
    assert (node_id k <> node_id c) as Hne.
    { intros E. apply Hk. rewrite <- E. unfold ids, subtree. simpl. by left. }
    apply N.eqb_neq in Hne. rewrite Hne. f_equal; [by apply IHk | by apply IHcs]. }
  destruct (N.eqb i p); [| done].
  rewrite prune_children_app, Hmap. simpl. rewrite N.eqb_refl. by rewrite app_nil_r.
Qed.

Lemma remove_append_under p c d :
  node_id c ∉ ids (all_nodes d) ->
  remove (node_id c) (List.map (append_under p c) d) = d.
Proof.
  unfold remove. induction d as [|n d IH]; [done |].
  change (all_nodes (n :: d)) with (subtree n ++ all_nodes d).
  unfold ids. rewrite map_app. intros [Hn Hd]%not_elem_of_app.
  simpl. f_equal; [by apply prune_append_under | by apply IH].
Qed.

(** After [remove], the node is a child of no node, whatever the forest
    was. *)
Lemma prune_children_gone c cs : c ∉ ids (prune_children c cs).
Proof.
  induction cs as [|k cs IH]; [by apply not_elem_of_nil |].
  simpl. destruct (N.eqb (node_id k) c) eqn:E; [done |].
  unfold ids. simpl. apply not_elem_of_cons. split; [| done].
  apply N.eqb_neq in E. assert (Hid : node_id (prune c k) = node_id k) by (by destruct k).
  congruence.
Qed.

Lemma prune_children_in c cs m :
  m ∈ prune_children c cs -> exists k, k ∈ cs /\ m = prune c k.
Proof.
  induction cs as [|k cs IH]; [by inversion 1 |].
  simpl. destruct (N.eqb (node_id k) c).
  - intros H. destruct (IH H) as (k' & Hk' & ->). exists k'. split; [by right | done].
  - intros [-> | H]%elem_of_cons.
    + exists k. split; [by left | done].
    + destruct (IH H) as (k' & Hk' & ->). exists k'. split; [by right | done].
Qed.

Lemma prune_gone c n m : m ∈ subtree (prune c n) -> c ∉ ids (children m).
Proof.
  revert m. induction n as [i d | i t cl attrs cs IH] using Node_rect_list; intros m.
  - simpl. intros ->%list_elem_of_singleton. apply not_elem_of_nil.
  - rewrite prune_Element. unfold subtree. rewrite descendants_Element.
    intros [-> | H]%elem_of_cons.
    + simpl. apply prune_children_gone.
    + apply list_elem_of_In, in_flat_map in H as (k' & Hk' & Hm).
      apply list_elem_of_In, prune_children_in in Hk' as (k & Hk & ->).
      rewrite Forall_forall in IH. apply (IH k Hk). by apply list_elem_of_In.
Qed.

Lemma remove_gone c d m : m ∈ all_nodes (remove c d) -> c ∉ ids (children m).
Proof.
  unfold all_nodes, remove. intros H.
  apply list_elem_of_In, in_flat_map in H as (n' & Hn' & Hm).
  apply in_map_iff in Hn' as (n & <- & _). apply (prune_gone c n). by apply list_elem_of_In.
Qed.

Lemma find_app_first {A} (P : A -> bool) l1 l2 :
  List.find P (l1 ++ l2) =
  match List.find P l1 with Some x => Some x | None => List.find P l2 end.
Proof.
  induction l1 as [|x l1 IH]; [done |]. simpl. by destruct (P x).
Qed.

Lemma subtree_Element i t cl attrs cs :
  subtree (Element i t cl attrs cs) = Element i t cl attrs cs :: flat_map subtree cs.
Proof. unfold subtree. by rewrite descendants_Element. Qed.

Lemma append_under_Element p c i t cl attrs cs :
  append_under p c (Element i t cl attrs cs) =
  Element i t cl attrs
    (if N.eqb i p then List.map (append_under p c) cs ++ [c]
     else List.map (append_under p c) cs).
Proof. reflexivity. Qed.

(** Looking a node up by identity after [appendChild]: the appended node has
    another identity and no children, so the node found is the one found
    before, with the new child where it belongs. *)
Lemma find_subtree_append_under p c i n :
  node_id c <> i -> descendants c = [] ->
  List.find (fun x => N.eqb (node_id x) i) (subtree (append_under p c n)) =
  append_under p c <$> List.find (fun x => N.eqb (node_id x) i) (subtree n).
Proof.
  intros Hc Hleaf.
  induction n as [j d | j t cl attrs cs IH] using Node_rect_list.
  { simpl. by destruct (N.eqb j i). }
  rewrite append_under_Element, !subtree_Element.
  cbn [List.find node_id]. destruct (N.eqb j i); [done |].
  assert (Hmap :
    List.find (fun x => N.eqb (node_id x) i) (flat_map subtree (List.map (append_under p c) cs)) =
    append_under p c <$> List.find (fun x => N.eqb (node_id x) i) (flat_map subtree cs)).
  { induction cs as [|k cs IHcs]; [done |].
    apply Forall_cons in IH as [IHk IH]. cbn [List.map flat_map].
    rewrite !find_app_first, IHk, IHcs by done.
    by destruct (List.find _ (subtree k)). }
  destruct (N.eqb j p); [| done].
  rewrite flat_map_app, find_app_first, Hmap.
  destruct (List.find _ (flat_map subtree cs)); [done |].
  cbn [flat_map]. unfold subtree at 1. rewrite Hleaf. simpl.
  apply N.eqb_neq in Hc. by rewrite Hc.
Qed.

Lemma find_node_append_under p c i d :
  node_id c <> i -> descendants c = [] ->
  find_node (List.map (append_under p c) d) i = append_under p c <$> find_node d i.
Proof.
  intros Hc Hleaf. unfold find_node, all_nodes.
  induction d as [|n d IH]; [done |]. cbn [List.map flat_map].
  rewrite !find_app_first, IH, find_subtree_append_under by done.
  by destruct (List.find _ (subtree n)).
Qed.

(** Nothing is appended in a tree that does not hold the parent. *)
Lemma append_under_absent p c n :
  p ∉ ids (subtree n) -> append_under p c n = n.
Proof.
  induction n as [j d | j t cl attrs cs IH] using Node_rect_list; [done |].
  rewrite ids_subtree_Element. intros [Hj Hcs]%not_elem_of_cons.
  rewrite append_under_Element.
  assert (Hmap : List.map (append_under p c) cs = cs).
  { clear Hj. induction cs as [|k cs IHcs]; [done |].
    rewrite ids_flat_map_cons in Hcs. apply not_elem_of_app in Hcs as [Hk Hcs].
    apply Forall_cons in IH as [IHk IH]. simpl. f_equal; [by apply IHk | by apply IHcs]. }
  rewrite Hmap. assert (j <> p) as Hne by congruence.
  apply N.eqb_neq in Hne. by rewrite Hne.
Qed.

Lemma append_under_children p c t cl attrs cs :
  p ∉ ids (flat_map subtree cs) ->
  append_under p c (Element p t cl attrs cs) = Element p t cl attrs (cs ++ [c]).
Proof.
  intros Hcs. rewrite append_under_Element, N.eqb_refl. f_equal. f_equal.
  induction cs as [|k cs IH]; [done |].
  rewrite ids_flat_map_cons in Hcs. apply not_elem_of_app in Hcs as [Hk Hcs].
  simpl. f_equal; [by apply append_under_absent | by apply IH].
Qed.

Lemma find_node_id d i n : find_node d i = Some n -> node_id n = i.
Proof.
  unfold find_node. intros H. apply find_some in H as [_ H]. by apply N.eqb_eq in H.
Qed.

Lemma find_node_fresh d : find_node d (fresh_id d) = None.
Proof.
  unfold find_node. destruct (List.find _ _) as [n |] eqn:H; [| done].
  apply find_some in H as [Hin H]. apply N.eqb_eq in H.
  exfalso. apply (fresh_id_fresh d). rewrite <- H. unfold ids.
  apply list_elem_of_fmap. exists n. split; [done |]. by apply list_elem_of_In.
Qed.

End DomFacts.

(** ** [tryTriggerRerender] *)

Section TriggerFacts.
Import Dom Userscript.
Context {World : Type} (host : Host World).

Lemma attempt_in_weaken lo hi lo' hi' evs :
  lo' <= lo -> hi <= hi' -> Forall (attempt_in lo hi) evs -> Forall (attempt_in lo' hi') evs.
Proof.
  intros Hlo Hhi HF. eapply Forall_impl; [exact HF |].
  intros e (a & ok & -> & H). exists a, ok. split; [done | lia].
Qed.

Lemma in_order_app lo1 hi1 lo2 hi2 evs1 evs2 :
  hi1 <= lo2 ->
  Forall (attempt_in lo1 hi1) evs1 -> Forall (attempt_in lo2 hi2) evs2 ->
  in_order evs1 -> in_order evs2 -> in_order (evs1 ++ evs2).
Proof.
  intros Hle H1 H2 S1 S2. unfold in_order in *.
  induction S1 as [|e evs1 S1 IH Hall]; simpl; [done |].
  inversion H1 as [|? ? He H1']; subst.
  constructor; [by apply IH |].
  apply Forall_app. split; [done |].
  destruct He as (a & ok & -> & Ha). simpl.
  eapply Forall_impl; [exact H2 |].
  intros e' (a' & ok' & -> & Ha'). simpl. lia.
Qed.

Lemma ends_app {A B} (c1 : Completion bool A) (c2 : Completion bool B) evs1 evs2 :
  Forall failed evs1 -> ends c2 evs2 -> ends c2 (evs1 ++ evs2).
Proof.
  intros H1 H2. destruct c2 as [b | [|] | e]; simpl in *;
    try (apply Forall_app; by split).
  destruct H2 as (pre & a & -> & Hpre).
  exists (evs1 ++ pre), a. split; [by rewrite app_assoc |].
  apply Forall_app; by split.
Qed.

Lemma cascade_bind {A B} lo1 hi1 lo2 hi2 lo hi
    (m : Stmt (@State World) bool A) (k : A -> Stmt (@State World) bool B) :
  lo <= lo1 -> lo1 <= hi1 -> hi1 <= lo2 -> lo2 <= hi2 -> hi2 <= hi ->
  cascade (World := World) lo1 hi1 m ->
  (forall a, cascade (World := World) lo2 hi2 (k a)) ->
  cascade (World := World) lo hi (bind m k).
Proof.
  intros ? ? ? ? ? Hm Hk st. destruct (Hm st) as (evs1 & T1 & F1 & O1 & E1).
  unfold bind. destruct (m st) as [[a | r | e] st1]; simpl in *.
  - destruct (Hk a st1) as (evs2 & T2 & F2 & O2 & E2).
    exists (evs1 ++ evs2). repeat split.
    + by rewrite T2, T1, app_assoc.
    + apply Forall_app; split;
        [apply (attempt_in_weaken lo1 hi1) | apply (attempt_in_weaken lo2 hi2)];
        try done; lia.
    + by apply (in_order_app lo1 hi1 lo2 hi2).
    + by apply (ends_app (Normal a)).
  - exists evs1. repeat split; try done.
    apply (attempt_in_weaken lo1 hi1); try done; lia.
  - exists evs1. repeat split; try done.
    apply (attempt_in_weaken lo1 hi1); try done; lia.
Qed.

Lemma cascade_try_catch {A} k (body : Stmt (@State World) bool A)
    (h : Exn -> Stmt (@State World) bool A) :
  cascade (World := World) k k body ->
  (forall e, cascade (World := World) k k (h e)) ->
  cascade (World := World) k k (try_catch body h).
Proof.
  intros Hm Hk st. destruct (Hm st) as (evs1 & T1 & F1 & O1 & E1).
  unfold try_catch. destruct (body st) as [[a | r | e] st1]; simpl in *.
  - by exists evs1.
  - by exists evs1.
  - destruct (Hk e st1) as (evs2 & T2 & F2 & O2 & E2).
    exists (evs1 ++ evs2). repeat split.
    + by rewrite T2, T1, app_assoc.
    + apply Forall_app; by split.
    + by apply (in_order_app k k k k).
    + by apply (ends_app (@Throw bool A e)).
Qed.

Lemma cascade_quiet {A} lo hi (m : Stmt (@State World) bool A) :
  (forall st, trace (m st).2 = trace st /\ (m st).1 <> Return true) ->
  cascade (World := World) lo hi m.
Proof.
  intros H st. destruct (H st) as [T N]. exists []. rewrite app_nil_r.
  repeat split; try done; try constructor.
  destruct (m st).1 as [a | [|] | e]; simpl; try done.
Qed.

Lemma cascade_ret {A} lo hi (a : A) : cascade (World := World) lo hi (ret a).
Proof. by apply cascade_quiet. Qed.

Lemma cascade_gets {A} lo hi (f : State -> A) : cascade (World := World) lo hi (gets f).
Proof. by apply cascade_quiet. Qed.

Lemma cascade_throw {A} lo hi e : cascade (World := World) lo hi (@throw _ _ A e).
Proof. by apply cascade_quiet. Qed.

Lemma cascade_return_false {A} lo hi : cascade (World := World) lo hi (@return_ _ _ A false).
Proof. by apply cascade_quiet. Qed.

Lemma cascade_log lo hi :
  cascade (World := World) lo hi (@log World host bool).
Proof. by apply cascade_quiet. Qed.

Lemma cascade_attempt {A} k a f (rest : Stmt (@State World) bool A) :
  strategy a = k -> returns_true (World := World) rest ->
  cascade (World := World) k k (attempt a f ;; rest)%stmt.
Proof.
  intros Hk Hrest st. unfold bind, attempt.
  destruct (f (world st) (dom st)) as [[[u | e] w] d]; simpl.
  - destruct (Hrest (record (Attempt a true) (set_env w d st))) as [C T].
    destruct (rest _) as [c st']; simpl in *; subst c.
    exists [Attempt a true]. repeat split.
    + by rewrite T.
    + constructor; [| constructor]. exists a, true. split; [done | lia].
    + repeat constructor.
    + exists [], a. by split.
  - exists [Attempt a false]. repeat split.
    + constructor; [| constructor]. exists a, false. split; [done | lia].
    + repeat constructor.
    + constructor; [| constructor]. by exists a.
Qed.

Lemma cascade_for_of {X} k (l : list X) (body : X -> Stmt (@State World) bool unit) :
  (forall x, cascade (World := World) k k (body x)) -> cascade (World := World) k k (for_of l body).
Proof.
  intros H. induction l as [|x l IH]; simpl.
  - apply cascade_ret.
  - eapply (cascade_bind k k k k); eauto.
Qed.

Lemma cascade_attempt_fails {A} k a e (rest : Stmt (@State World) bool A) :
  strategy a = k -> cascade (World := World) k k (attempt_fails a e ;; rest)%stmt.
Proof.
  intros Hk st. exists [Attempt a false]. repeat split.
  - constructor; [| constructor]. exists a, false. split; [done | lia].
  - repeat constructor.
  - constructor; [| constructor]. by exists a.
Qed.

Lemma cascade_emit {A} name n (rest : Stmt (@State World) bool A) :
  returns_true (World := World) rest ->
  cascade (World := World) 2 2 (emit host name n ;; rest)%stmt.
Proof.
  intros Hrest st.
  destruct (window_eventSource host (world st)) eqn:Hes.
  - destruct (cascade_attempt_fails 2 (Emit name n) TypeError rest eq_refl st) as (evs & H).
    exists evs. unfold emit, bind, gets in *. simpl in *. by rewrite Hes.
  - destruct (cascade_attempt_fails 2 (Emit name n) TypeError rest eq_refl st) as (evs & H).
    exists evs. unfold emit, bind, gets in *. simpl in *. by rewrite Hes.
  - destruct (cascade_attempt 2 (Emit name n) (eventSource_emit host name n) rest eq_refl Hrest st)
      as (evs & H).
    exists evs. unfold emit, bind, gets in *. simpl in *. by rewrite Hes.
Qed.

Lemma cascade_appendMarker {A} el marker (rest : Stmt (@State World) bool A) :
  returns_true (World := World) rest ->
  cascade (World := World) 6 6 (appendMarker el marker ;; rest)%stmt.
Proof.
  intros Hrest st. unfold bind, appendMarker.
  destruct (appendChild el marker (dom st)) as [d | e]; simpl.
  - destruct (Hrest (record (Attempt (InsertMarker el (node_id marker)) true) (set_dom d st)))
      as [C T].
    destruct (rest _) as [c st']; simpl in *; subst c.
    exists [Attempt (InsertMarker el (node_id marker)) true]. repeat split.
    + by rewrite T.
    + constructor; [| constructor]. eexists _, true. split; [done | simpl; lia].
    + repeat constructor.
    + exists [], (InsertMarker el (node_id marker)). by split.
  - exists [Attempt (InsertMarker el (node_id marker)) false]. repeat split.
    + constructor; [| constructor]. eexists _, false. split; [done | simpl; lia].
    + repeat constructor.
    + constructor; [| constructor]. by eexists.
Qed.

Lemma cascade_createMarker el : cascade (World := World) 6 6 (createMarker host (R := bool) el).
Proof.
  intros st. unfold createMarker.
  destruct (document_createElement host (world st)) as [[u | e] w]; simpl.
  - exists []. rewrite app_nil_r. repeat split; constructor.
  - eexists [_]. repeat split.
    + constructor; [| constructor]. eexists _, false. split; [done | simpl; lia].
    + repeat constructor.
    + constructor; [| constructor]. by eexists.
Qed.

Ltac cascade_block k :=
  repeat first
    [ apply cascade_createMarker | apply cascade_ret | apply cascade_gets
    | apply cascade_throw | apply cascade_log
    | apply cascade_attempt; [reflexivity | by intros ?]
    | apply cascade_emit; by intros ?
    | apply cascade_appendMarker; by intros ?
    | apply cascade_try_catch; [| intros ?]
    | apply cascade_for_of; intros ?
    | apply (cascade_bind k k k k k k); [lia .. | | intros ?]
    | match goal with
      | |- cascade _ _ (match ?x with _ => _ end) => destruct x
      end ].

Lemma cascade_primary messageId : cascade (World := World) 1 1 (primary host messageId).
Proof. unfold primary. cascade_block 1. Qed.

Lemma cascade_secondary messageId : cascade (World := World) 2 2 (secondary host messageId).
Proof. unfold secondary. cascade_block 2. Qed.

Lemma cascade_third messageId mesTextEl :
  cascade (World := World) 3 3 (third host messageId mesTextEl).
Proof. unfold third. cascade_block 3. Qed.

Lemma cascade_fourth messageId : cascade (World := World) 4 4 (fourth host messageId).
Proof. unfold fourth. cascade_block 4. Qed.

Lemma cascade_fifth mesTextEl : cascade (World := World) 5 5 (fifth host mesTextEl).
Proof. unfold fifth. cascade_block 5. Qed.

Lemma cascade_last_resort mesTextEl : cascade (World := World) 6 6 (last_resort host mesTextEl).
Proof. unfold last_resort. cascade_block 6. Qed.

Lemma completes_bind {A B} t (m : Stmt (@State World) bool A)
    (k : A -> Stmt (@State World) bool B) :
  completes (World := World) t m ->
  (forall a, completes (World := World) t (k a)) ->
  completes (World := World) t (bind m k).
Proof.
  intros Hm Hk st. specialize (Hm st). unfold bind.
  destruct (m st) as [[a | r | e] st1]; simpl in *; try done.
  apply Hk.
Qed.

Lemma completes_try_catch {A} t (body : Stmt (@State World) bool A)
    (h : Exn -> Stmt (@State World) bool A) :
  completes (World := World) true body ->
  (forall e, completes (World := World) t (h e)) ->
  completes (World := World) t (try_catch body h).
Proof.
  intros Hm Hk st. specialize (Hm st). unfold try_catch.
  destruct (body st) as [[a | r | e] st1]; simpl in *; try done.
  apply Hk.
Qed.

Lemma completes_for_of {X} t (l : list X) (body : X -> Stmt (@State World) bool unit) :
  (forall x, completes (World := World) t (body x)) -> completes (World := World) t (for_of l body).
Proof.
  intros H. induction l as [|x l IH]; simpl; [done |].
  by apply completes_bind.
Qed.

Ltac completes_atom :=
  intros ?; cbv [ret gets throw return_ log DEBUG attempt attempt_fails appendMarker
                 createMarker setTimeout modify fst];
  repeat case_match; simplify_eq/=; done.

Ltac completes_block :=
  unfold emit;
  repeat first
    [ apply completes_try_catch; [| intros ?]
    | apply completes_for_of; intros ?
    | apply completes_bind; [| intros ?]
    | match goal with
      | |- completes _ (match ?x with _ => _ end) => destruct x
      end
    | completes_atom ].

Lemma completes_primary messageId : completes (World := World) false (primary host messageId).
Proof. unfold primary. completes_block. Qed.

Lemma completes_secondary messageId : completes (World := World) false (secondary host messageId).
Proof. unfold secondary. completes_block. Qed.

Lemma completes_third messageId mesTextEl :
  completes (World := World) false (third host messageId mesTextEl).
Proof. unfold third. completes_block. Qed.

Lemma completes_fourth messageId : completes (World := World) false (fourth host messageId).
Proof. unfold fourth. completes_block. Qed.

Lemma completes_fifth mesTextEl : completes (World := World) false (fifth host mesTextEl).
Proof. unfold fifth. completes_block. Qed.

Lemma completes_last_resort mesTextEl :
  completes (World := World) false (last_resort host mesTextEl).
Proof. unfold last_resort. completes_block. Qed.

Lemma tryTriggerRerender_blocks messageId mesTextEl st :
  tryTriggerRerender host messageId mesTextEl st =
  function false (blocks host messageId mesTextEl) (record (Entered messageId mesTextEl) st).
Proof. reflexivity. Qed.

Lemma cascade_blocks messageId mesTextEl :
  cascade (World := World) 1 6 (blocks host messageId mesTextEl).
Proof.
  unfold blocks.
  apply (cascade_bind 1 1 1 6); [lia .. | apply cascade_log | intros _].
  apply (cascade_bind 1 1 2 6); [lia .. | apply cascade_primary | intros _].
  apply (cascade_bind 2 2 3 6); [lia .. | apply cascade_secondary | intros _].
  apply (cascade_bind 3 3 4 6); [lia .. | apply cascade_third | intros _].
  apply (cascade_bind 4 4 5 6); [lia .. | apply cascade_fourth | intros _].
  apply (cascade_bind 5 5 6 6); [lia .. | apply cascade_fifth | intros _].
  apply (cascade_bind 6 6 6 6); [lia .. | apply cascade_last_resort | intros _].
  apply (cascade_bind 6 6 6 6); [lia .. | apply cascade_log | intros _].
  apply cascade_return_false.
Qed.

Lemma blocks_return messageId mesTextEl st :
  exists b, (blocks host messageId mesTextEl st).1 = Return b.
Proof.
  unfold blocks, bind. unfold log at 1, DEBUG, ret.
  pose proof (completes_primary messageId st) as H1.
  destruct (primary host messageId st) as [[[] | r | e] s1]; simpl in *; [| by eexists | done].
  pose proof (completes_secondary messageId s1) as H2.
  destruct (secondary host messageId s1) as [[[] | r | e] s2]; simpl in *; [| by eexists | done].
  pose proof (completes_third messageId mesTextEl s2) as H3.
  destruct (third host messageId mesTextEl s2) as [[[] | r | e] s3]; simpl in *;
    [| by eexists | done].
  pose proof (completes_fourth messageId s3) as H4.
  destruct (fourth host messageId s3) as [[[] | r | e] s4]; simpl in *; [| by eexists | done].
  pose proof (completes_fifth mesTextEl s4) as H5.
  destruct (fifth host mesTextEl s4) as [[[] | r | e] s5]; simpl in *; [| by eexists | done].
  pose proof (completes_last_resort mesTextEl s5) as H6.
  destruct (last_resort host mesTextEl s5) as [[[] | r | e] s6]; simpl in *;
    [| by eexists | done].
  by eexists.
Qed.

Lemma tryTriggerRerender_spec messageId mesTextEl st :
  exists b evs,
    (tryTriggerRerender host messageId mesTextEl st).1 = Ok b /\
    trace (tryTriggerRerender host messageId mesTextEl st).2 =
      trace st ++ Entered messageId mesTextEl :: evs /\
    Forall (attempt_in 1 6) evs /\
    in_order evs /\
    (if b then exists pre a, evs = pre ++ [Attempt a true] /\ Forall failed pre
     else Forall failed evs).
Proof.
  rewrite tryTriggerRerender_blocks.
  set (st0 := record (Entered messageId mesTextEl) st).
  destruct (cascade_blocks messageId mesTextEl st0) as (evs & T & F & O & E).
  destruct (blocks_return messageId mesTextEl st0) as [b Hb].
  exists b, evs. unfold function.
  destruct (blocks host messageId mesTextEl st0) as [c s']; simpl in *; subst c.
  split; [done |]. split; [| split; [done | split; [done |]]].
  - simpl. rewrite T. by rewrite <- app_assoc.
  - by destruct b.
Qed.





(** *** The loops of the fourth and the fifth strategy *)

Lemma by_name_skip fnName :
  negb (JSString.includes (JSString.toLowerCase fnName) "message")
  && negb (JSString.includes (JSString.toLowerCase fnName) "refresh") = negb (by_name fnName).
Proof. unfold by_name. by rewrite negb_orb. Qed.

(** One round of the loop of the fourth strategy: nothing, or one call of a
    promising name. *)
Lemma fourth_body_cases messageId fnName (st : @State World) :
  fourth_body host messageId fnName st = (Normal tt, st) \/
  (by_name fnName = true /\
   exists ok w d,
     fourth_body host messageId fnName st =
     (if ok : bool then Return true else Normal tt,
      record (Attempt (CallGlobal fnName (Number messageId)) ok) (set_env w d st))).
Proof.
  unfold fourth_body. rewrite by_name_skip.
  destruct (by_name fnName); cbn [negb]; [| by left].
  cbv [bind gets try_catch attempt log DEBUG ret return_].
  destruct (window_is_function host (world st) fnName); [| by left].
  right. split; [done |].
  destruct (call_global host fnName (Number messageId) (world st) (dom st))
    as [[[u | e] w] d]; simpl.
  - by exists true, w, d.
  - by exists false, w, d.
Qed.

(** The loop over the known phrases: a click as soon as one fits. *)
Lemma fifth_phrases btn txt cands (st : @State World) :
  for_of cands
    (fun candidate =>
       if JSString.includes txt candidate || JSString.includes candidate txt
       then
         log host ;; attempt (ClickButton (node_id btn)) (click host (node_id btn)) ;;
         return_ true
       else ret tt)%stmt st =
  if existsb (fun candidate => JSString.includes txt candidate || JSString.includes candidate txt)
       cands
  then
    (attempt (ClickButton (node_id btn)) (click host (node_id btn)) ;;
     return_ (A := unit) true)%stmt st
  else (Normal tt, st).
Proof.
  induction cands as [|c cands IH]; [done |].
  cbn [for_of existsb]. unfold bind at 1.
  destruct (JSString.includes txt c || JSString.includes c txt); cbn [orb].
  - unfold bind, log, DEBUG, ret, attempt, return_.
    by destruct (click host (node_id btn) (world st) (dom st)) as [[[u | e] w] d].
  - exact IH.
Qed.

(** The loop over the buttons: the first render button is clicked, and the
    loop ends with it. *)
Lemma fifth_loop buttons (st : @State World) :
  for_of buttons (fifth_body host) st =
  match List.find render_button buttons with
  | Some btn =>
      (attempt (ClickButton (node_id btn)) (click host (node_id btn)) ;;
       return_ (A := unit) true)%stmt st
  | None => (Normal tt, st)
  end.
Proof.
  induction buttons as [|btn buttons IH]; [done |].
  cbn [List.find for_of]. unfold bind at 1, fifth_body at 1, render_button at 1. cbv zeta.
  destruct (JSString.nonempty (JSString.trim (textContent btn))); cbn [negb andb].
  - rewrite fifth_phrases. destruct (existsb _ possibleButtonTexts).
    + unfold bind, attempt, return_.
      by destruct (click host (node_id btn) (world st) (dom st)) as [[[u | e] w] d].
    + exact IH.
  - exact IH.
Qed.

(** *** What each strategy tries first *)










(** *** Each strategy goes through its candidates in turn *)










(** *** The strategies in turn *)









(** C4: [tryTriggerRerender] never hands an exception to its caller,
    whatever the host does: it returns a boolean, and each of its six [try]
    blocks ends by falling through to the next statement or by
    [return true], never by a [throw]. *)
Theorem tryTriggerRerender_never_throws messageId mesTextEl :
  (forall st, exists b, (tryTriggerRerender host messageId mesTextEl st).1 = Ok b) /\
  completes (World := World) false (primary host messageId) /\
  completes (World := World) false (secondary host messageId) /\
  completes (World := World) false (third host messageId mesTextEl) /\
  completes (World := World) false (fourth host messageId) /\
  completes (World := World) false (fifth host mesTextEl) /\
  completes (World := World) false (last_resort host mesTextEl).
Proof.
  split.
  - intros st. rewrite tryTriggerRerender_blocks. unfold function.
    destruct (blocks_return messageId mesTextEl (record (Entered messageId mesTextEl) st))
      as [b Hb].
    destruct (blocks _ _ _ _) as [c s']. simpl in Hb. subst c. by exists b.
  - repeat split; [apply completes_primary | apply completes_secondary | apply completes_third
                   | apply completes_fourth | apply completes_fifth | apply completes_last_resort].
Qed.

End TriggerFacts.

(** Three runs.  On the bare page the first thing that applies is the custom
    event, and it comes back. *)
Example run_on_bare_host :
  let r := Userscript.tryTriggerRerender bare_host (Some "7") (Some 3%N)
             (Userscript.initial tt page) in
  r.1 = Ok true /\
  Userscript.trace r.2 =
    [Userscript.Entered (Some "7") (Some 3%N);
     Userscript.Attempt (Userscript.DispatchCustomEvent 3%N (Number (Some "7"))) true].
Proof. by vm_compute. Qed.

(** On the hostile page every strategy applies and throws. *)
Example run_on_hostile_host :
  let r := Userscript.tryTriggerRerender hostile_host (Some "7") (Some 3%N)
             (Userscript.initial tt page) in
  r.1 = Ok false /\
  Userscript.trace r.2 =
    [Userscript.Entered (Some "7") (Some 3%N);
     Userscript.Attempt (Userscript.CallRefreshOneMessage (Number (Some "7"))) false;
     Userscript.Attempt (Userscript.Emit (JSStr "message_updated") (Number (Some "7"))) false;
     Userscript.Attempt (Userscript.DispatchCustomEvent 3%N (Number (Some "7"))) false;
     Userscript.Attempt (Userscript.CallGlobal "postMessage" (Number (Some "7"))) false;
     Userscript.Attempt (Userscript.ClickButton 10%N) false;
     Userscript.Attempt (Userscript.InsertMarker 3%N 12%N) false] /\
  Timers.pending (Userscript.timers r.2) = [].
Proof. by vm_compute. Qed.

(** Without a message-text element only the strategies that go through
    [window] are tried. *)
Example run_without_element :
  let r := Userscript.tryTriggerRerender hostile_host (Some "7") None
             (Userscript.initial tt page) in
  r.1 = Ok false /\
  Userscript.trace r.2 =
    [Userscript.Entered (Some "7") None;
     Userscript.Attempt (Userscript.CallRefreshOneMessage (Number (Some "7"))) false;
     Userscript.Attempt (Userscript.Emit (JSStr "message_updated") (Number (Some "7"))) false;
     Userscript.Attempt (Userscript.CallGlobal "postMessage" (Number (Some "7"))) false].
Proof. by vm_compute. Qed.

(** A label is trimmed the way [String.prototype.trim] does it: the
    no-break spaces go, and the button is clicked. *)
Example run_on_nbsp_button :
  JSString.trim (String.append nbsp (String.append "Rend" nbsp)) = "Rend"%string /\
  let r := Userscript.fifth bare_host (Some 3%N) (Userscript.initial tt nbsp_button_page) in
  r.1 = Return true /\
  Userscript.trace r.2 = [Userscript.Attempt (Userscript.ClickButton 4%N) true].
Proof. by vm_compute. Qed.

(** ** The marker of the last resort *)

Section MarkerFacts.
Import Dom Userscript.
Context {World : Type} (host : Host World).

(** C8, amended: on a message-text element that is in the DOM, the last
    resort returns [true] after it appended one hidden [span], new to the
    DOM, as the last child of the element and scheduled the removal of that
    [span] 300ms later.  Whenever the removal runs, it returns and the
    [span] is the child of no node any more; when it runs on a DOM left as
    the strategy left it, the DOM, and with it the children of the element,
    is what it was before the strategy ran. *)
Theorem last_resort_net_unchanged el t cl attrs cs (st : @State World) :
  (document_createElement host (world st)).1 = Ok tt ->
  find_node (dom st) el = Some (Element el t cl attrs cs) ->
  el ∉ ids (flat_map subtree cs) ->
  let marker := fresh_id (dom st) in
  let st1 := (last_resort host (Some el) st).2 in
  (last_resort host (Some el) st).1 = Return true /\
  find_node (dom st) marker = None /\
  find_node (dom st1) el =
    Some (Element el t cl attrs
            (cs ++ [Element marker "span" ["__cb_rerender_marker__"]
                      [("style", "display: none;")] []])) /\
  Timers.pending (timers st1) =
    Timers.pending (timers st) ++
    [{| Timers.timer_id := Timers.next_id (timers st);
        Timers.due := (now st + 300)%N;
        Timers.task := RemoveMarker marker |}] /\
  forall st',
    (run_task host (RemoveMarker marker) st').1 = Ok tt /\
    (forall n, n ∈ all_nodes (dom (run_task host (RemoveMarker marker) st').2) ->
               marker ∉ ids (children n)) /\
    (dom st' = dom st1 -> dom (run_task host (RemoveMarker marker) st').2 = dom st).
Proof.
  intros Hcreate Hfind Hself marker st1.
  assert (Hrun : last_resort host (Some el) st =
    (Return true,
     set_timers
       (Timers.setTimeout (RemoveMarker marker) 300 (now st) (timers st)).2
       (record (Attempt (InsertMarker el marker) true)
          (set_dom (List.map (append_under el (marker_node marker)) (dom st))
             (set_env (document_createElement host (world st)).2 (dom st) st))))).
  { unfold last_resort, try_catch, bind, createMarker, appendMarker, appendChild.
    destruct (document_createElement host (world st)) as [[[] | e] w]; [| done].
    simpl. by rewrite Hfind. }
  subst st1. rewrite Hrun. simpl.
  split; [done |]. split; [apply find_node_fresh |]. split.
  - rewrite find_node_append_under, Hfind; [| | done].
    + simpl fmap. f_equal. by apply append_under_children.
    + simpl. intros E. pose proof (find_node_fresh (dom st)) as F.
      fold marker in F. rewrite E, Hfind in F. done.
  - split; [done |]. intros st'. split; [done |]. split.
    + intros n. apply remove_gone.
    + intros Hdom. rewrite Hdom.
      apply (remove_append_under el (marker_node marker)). apply fresh_id_fresh.
Qed.

End MarkerFacts.

Lemma last_resort_net_unchanged_witness :
  (Userscript.last_resort bare_host (Some 3%N) (Userscript.initial tt page)).1 = Return true /\
  forall st',
    Userscript.dom st' =
    Userscript.dom (Userscript.last_resort bare_host (Some 3%N) (Userscript.initial tt page)).2 ->
    Userscript.dom (Userscript.run_task bare_host (Userscript.RemoveMarker 12%N) st').2 = page.
Proof.
  pose proof (last_resort_net_unchanged bare_host 3%N "div" ["mes_text"] []
    [Dom.Element 4%N "div" ["TH-render"] []
       [Dom.Element 5%N "pre" [] [] [Dom.Text 6%N "<html><body>one</body></html>"];
        Dom.Element 7%N "iframe" [] [] []];
     Dom.Element 8%N "pre" [] [] [Dom.Text 9%N "<html><body>two</body></html>"];
     Dom.Element 10%N "button" [] [] [Dom.Text 11%N " Render "]]
    (Userscript.initial tt page) eq_refl eq_refl) as H.
  destruct H as (H1 & _ & _ & _ & H5).
  - vm_compute. intros H. repeat (apply elem_of_cons in H as [H | H]; [discriminate H |]).
    inversion H.
  - split; [exact H1 |]. intros st' Hst'. exact (proj2 (proj2 (H5 st')) Hst').
Defined.

(** C8, as stated, fails in a run of the script itself.  The message text
    of [page] is observed and changes; the evaluation, 120ms later, falls
    back on the last resort, which appends the marker 12 to the children 4, 8
    and 10 of the element and schedules its removal for 420ms.  The insertion
    is a mutation of the element: the observer is told, and the next
    evaluation, at 240ms, appends the marker 13.  When the removal of the
    marker 12 has run, the children of the element are 4, 8, 10 and 13, not
    what they were before the strategy ran. *)
Lemma marker_removed_children_changed :
  let host := marker_only_host in
  let s1 := (Userscript.notify 0 nodes_added observed_page).2 in
  exists r2 r4 r5,
    children_ids (Userscript.dom s1) 3%N = [4; 8; 10]%N /\
    Userscript.fire host 1 (Userscript.elapse 120 s1) = Some r2 /\
    Userscript.trace r2.2 =
      [Userscript.Evaluated 0;
       Userscript.Entered (Some "7") (Some 3%N);
       Userscript.Attempt (Userscript.DispatchCustomEvent 3%N (Number (Some "7"))) false;
       Userscript.Attempt (Userscript.CallGlobal "postMessage" (Number (Some "7"))) false;
       Userscript.Attempt (Userscript.ClickButton 10%N) false;
       Userscript.Attempt (Userscript.InsertMarker 3%N 12%N) true] /\
    children_ids (Userscript.dom r2.2) 3%N = [4; 8; 10; 12]%N /\
    Timers.pending (Userscript.timers r2.2) =
      [{| Timers.timer_id := 2; Timers.due := 420;
          Timers.task := Userscript.RemoveMarker 12%N |}] /\
    Userscript.fire host 3
      (Userscript.elapse 120
         (Userscript.notify 0 [marker_inserted 3%N 12%N] r2.2).2) = Some r4 /\
    Userscript.fire host 2 (Userscript.elapse 180 r4.2) = Some r5 /\
    Userscript.now r5.2 = 420%N /\
    children_ids (Userscript.dom r5.2) 3%N = [4; 8; 10; 13]%N.
Proof.
  intros host s1. eexists _, _, _.
  split; [by vm_compute |].
  split; [by vm_compute |].
  split; [by vm_compute |].
  split; [by vm_compute |].
  split; [by vm_compute |].
  split; [by vm_compute |].
  split; [by vm_compute |].
  split; by vm_compute.
Qed.

(** ** Observers *)

Section ObserverFacts.
Import Dom.
Context {World : Type} (host : Host World).

Lemma userscript_observeMesText_seen el (st : @Userscript.State World) :
  el ∈ Userscript.observed st ->
  Userscript.observeMesText host (Some el) st = (Ok tt, st).
Proof.
  intros H. unfold Userscript.observeMesText, function, bind, gets. simpl.
  by rewrite bool_decide_eq_true_2.
Qed.

Lemma userscript_observeMesText_new el (st : @Userscript.State World) :
  el ∉ Userscript.observed st ->
  Userscript.observeMesText host (Some el) st =
  (Ok tt,
   match closest (Userscript.dom st) el Userscript.MESSAGE_SELECTOR with
   | Some mesEl =>
       Userscript.set_observers
         (Userscript.observers st ++ [userscript_observer el mesEl])
         (Userscript.set_observed ({[el]} ∪ Userscript.observed st) st)
   | None => Userscript.set_observed ({[el]} ∪ Userscript.observed st) st
   end).
Proof.
  intros H. unfold Userscript.observeMesText, function, bind, gets, modify. simpl.
  rewrite bool_decide_eq_false_2 by done. simpl.
  by destruct (closest _ _ _).
Qed.

Lemma userscript_observeMesText_marks el (st : @Userscript.State World) :
  el ∈ Userscript.observed (Userscript.observeMesText host (Some el) st).2.
Proof.
  destruct (decide (el ∈ Userscript.observed st)) as [H | H].
  - by rewrite userscript_observeMesText_seen.
  - rewrite userscript_observeMesText_new by done.
    destruct (closest _ _ _); simpl; set_solver.
Qed.

Lemma userscript_observeMesText_once_each mesTextEl (st : @Userscript.State World) :
  once_each st -> once_each (Userscript.observeMesText host mesTextEl st).2.
Proof.
  intros [Hnd Hobs]. destruct mesTextEl as [el |]; [| done].
  destruct (decide (el ∈ Userscript.observed st)) as [H | H].
  - by rewrite userscript_observeMesText_seen.
  - rewrite userscript_observeMesText_new by done. unfold once_each.
    destruct (closest _ _ _); cbn [snd Userscript.observers Userscript.observed
      Userscript.set_observers Userscript.set_observed].
    + split.
      * rewrite map_app. apply NoDup_app. split; [done |]. split.
        -- intros x Hx [-> | []%elem_of_nil]%elem_of_cons.
           apply list_elem_of_fmap in Hx as (o & Ho1 & Ho). simpl in Ho1.
           apply H. rewrite Ho1. by apply Hobs.
        -- apply NoDup_singleton.
      * intros o [Ho | ->%list_elem_of_singleton]%elem_of_app; simpl; [| set_solver].
        apply elem_of_union_r. by apply Hobs.
    + split; [done |]. intros o Ho. apply elem_of_union_r. by apply Hobs.
Qed.

(** Whatever elements the userscript's [observeMesText] is called on, and
    however often, no element ends up with two observers. *)
Lemma userscript_observes_once calls w d :
  NoDup (map Userscript.mesTextEl_of
           (Userscript.observers (userscript_observe_all host calls (Userscript.initial w d)))).
Proof.
  assert (H : once_each (Userscript.initial w d)).
  { split; [constructor | intros o Ho; inversion Ho]. }
  revert H. generalize (Userscript.initial w d).
  induction calls as [|el calls IH]; intros st H; simpl; [apply H |].
  apply IH. by apply userscript_observeMesText_once_each.
Qed.

Lemma v3_observeMesText_attaches el (st : @V3.State World) :
  V3.observedElements st = ∅ ->
  V3.observeMesText el st =
  (Ok tt, V3.set_attached (V3.attached st ++ [v3_observer el]) st).
Proof.
  intros H. unfold V3.observeMesText, function, bind, gets, modify. simpl.
  rewrite H. by rewrite bool_decide_eq_false_2 by set_solver.
Qed.

End ObserverFacts.

(** C2 fails in the extension: [observeMesText] asks [observedElements.has]
    where it means to [add], so the set stays empty and a second call on the
    same element attaches a second observer.  The chat observer makes such a
    call when a [.mes] element is added to the chat again. *)
Theorem v3_observeMesText_attaches_twice {World} (w : World) d el :
  let st1 := (V3.observeMesText el (V3.initial w d)).2 in
  let st2 := (V3.observeMesText el st1).2 in
  V3.attached st2 = [v3_observer el; v3_observer el] /\
  V3.observedElements st2 = ∅ /\
  V3.attached
    (V3.onChatMutations
       [{| Dom.type := Dom.childList; Dom.target := 1%N;
           Dom.addedNodes := [page_mes]; Dom.removedNodes := [] |};
        {| Dom.type := Dom.childList; Dom.target := 1%N;
           Dom.addedNodes := [page_mes]; Dom.removedNodes := [] |}]
       (V3.initial tt page)).2
  = [v3_observer 3%N; v3_observer 3%N].
Proof.
  intros st1 st2. subst st1 st2.
  rewrite v3_observeMesText_attaches by done. simpl.
  rewrite v3_observeMesText_attaches by done. simpl.
  by repeat split.
Qed.

(** ** Attribute changes *)

Section AttributeFacts.
Import Dom Userscript.
Context {World : Type} (host : Host World).

Lemma queued_attribute_only d el o changes :
  init_attributes o = false -> attribute_only changes -> queued d el o changes = [].
Proof.
  intros Ho H. unfold queued. induction H as [|r changes Hr H IH]; [done |].
  cbn [List.filter].
  replace (wants o (type r)) with false by (unfold wants; by rewrite Hr, Ho).
  rewrite andb_false_r. exact IH.
Qed.

Lemma userscript_observers_options calls w d :
  Forall (fun o => options o = observer_options)
    (observers (userscript_observe_all host calls (initial w d))).
Proof.
  assert (H : Forall (fun o => options o = observer_options) (observers (initial w d)))
    by constructor.
  revert H. generalize (initial w d).
  induction calls as [|el calls IH]; intros st H; simpl; [done |].
  apply IH. destruct el as [el |]; [| done].
  destruct (decide (el ∈ observed st)) as [Hin | Hin].
  - by rewrite userscript_observeMesText_seen.
  - rewrite userscript_observeMesText_new by done.
    destruct (closest _ _ _); simpl; [| done].
    apply Forall_app. split; [done |]. by constructor.
Qed.

(** C10: the filter of the observer callback takes a record of type
    ['attributes'] for significant, but the observers are registered with
    [attributes: false]: the browser hands them no such record, so whatever
    attribute-only changes happen, the callback does not run and the state,
    with its timers, stays as it is. *)
Theorem attribute_changes_start_no_timer (st : @State World) batches :
  Forall (fun o => init_attributes (options o) = false) (observers st) ->
  Forall (fun b => attribute_only b.2) batches ->
  notify_all batches st = st /\
  (forall r rest, type r = attributes -> significant (r :: rest) = true) /\
  (forall calls w d,
     Forall (fun o => init_attributes (options o) = false)
       (observers (userscript_observe_all host calls (initial w d)))).
Proof.
  intros Hobs Hb. split; [| split].
  - induction Hb as [|[k changes] batches Hc Hb IH]; [done |].
    simpl. unfold notify.
    destruct (observers st !! k) as [o |] eqn:Hk; [| exact IH].
    rewrite queued_attribute_only; [exact IH | | exact Hc].
    eapply Forall_lookup_1 in Hobs; [exact Hobs | exact Hk].
  - intros r rest Hr. simpl. by rewrite Hr.
  - intros calls w d. eapply Forall_impl; [apply userscript_observers_options |].
    by intros o ->.
Qed.

End AttributeFacts.

Lemma attribute_changes_start_no_timer_witness :
  let st := (Userscript.observeMesText bare_host (Some 3%N) (Userscript.initial tt page)).2 in
  notify_all
    [(0, [{| Dom.type := Dom.attributes; Dom.target := 3%N;
             Dom.addedNodes := []; Dom.removedNodes := [] |}])] st = st.
Proof.
  intros st.
  apply (attribute_changes_start_no_timer bare_host st).
  - repeat constructor.
  - repeat constructor.
Defined.

(** ** The debounced evaluation *)

Section EvaluationFacts.
Import Dom Userscript.
Context {World : Type} (host : Host World).

Lemma scan_spec d pres found :
  scan d pres found = Ok (found || existsb front_end pres, existsb (unrendered d) pres).
Proof.
  revert found. induction pres as [|pre pres IH]; intros found.
  - simpl. by rewrite orb_false_r.
  - cbn [scan existsb]. unfold unrendered at 1.
    destruct (isFrontend (JSStr (JSString.trim (textContent pre)))) as [[|] | e] eqn:Hf.
    + assert (Hfe : front_end pre = true) by (unfold front_end; by rewrite Hf).
      rewrite Hfe.
      destruct (isPreRendered d (Some pre)); cbn [negb andb orb].
      * rewrite IH. by destruct found.
      * by destruct found.
    + assert (Hfe : front_end pre = false) by (unfold front_end; by rewrite Hf).
      rewrite Hfe. cbn [negb andb orb]. by rewrite IH.
    + exfalso. unfold isFrontend in Hf. by destruct (negb _).
Qed.

Lemma evaluating_observer k o (st : @State World) :
  observers st !! k = Some o ->
  observers (evaluating k st) !! k =
  Some {| mesTextEl_of := mesTextEl_of o; messageId_of := messageId_of o;
          options := options o; timer := None |}.
Proof.
  intros H. unfold evaluating, set_timer. simpl.
  rewrite list_lookup_alter_eq. by rewrite H.
Qed.

(** The evaluation, case by case. *)
Lemma evaluate_unfold k o (st : @State World) :
  observers st !! k = Some o ->
  evaluate host k st =
  if existsb (unrendered (dom st)) (querySelectorAll (dom st) (mesTextEl_of o) (has_tag "pre"))
  then
    match tryTriggerRerender host (messageId_of o) (Some (mesTextEl_of o)) (evaluating k st) with
    | (Ok true, s) => (Ok tt, s)
    | (Ok false, s) =>
        (Ok tt, set_timers
                  (Timers.setTimeout (Retry (messageId_of o) (Some (mesTextEl_of o))) 250
                     (now s) (timers s)).2 s)
    | (Raise e, s) => (Raise e, s)
    end
  else (Ok tt, evaluating k st).
Proof.
  intros Hk. cbv beta iota delta [evaluate function bind gets modify call].
  change (record (Evaluated k) (set_timer k None st)) with (evaluating k st).
  rewrite (evaluating_observer k o st Hk). cbv beta iota.
  cbn [mesTextEl_of messageId_of]. rewrite scan_spec.
  change (dom (evaluating k st)) with (dom st). cbn [orb].
  destruct (existsb (unrendered (dom st)) _) eqn:Hun.
  - assert (Hfe : existsb front_end
        (querySelectorAll (dom st) (mesTextEl_of o) (has_tag "pre")) = true).
    { apply existsb_exists in Hun as (pre & Hin & Hpre). apply existsb_exists.
      exists pre. split; [done |]. unfold unrendered in Hpre.
      by apply andb_true_iff in Hpre as [? _]. }
    rewrite Hfe. simpl.
    destruct (tryTriggerRerender host _ _ _) as [[[|] | e] s]; simpl; done.
  - by destruct (existsb front_end _).
Qed.

(** C5, amended: when every front-end code block the debounced evaluation
    finds in the message is wrapped in a rendered iframe container, the
    evaluation clears the timer binding and does nothing else:
    [tryTriggerRerender] is not called.  (The extension looks for an
    [iframe] anywhere in the message text and, when there is one, does
    nothing either.) *)
Theorem evaluate_rendered_no_trigger k o (st : @State World) :
  observers st !! k = Some o ->
  Forall (fun pre => front_end pre = true -> isPreRendered (dom st) (Some pre) = true)
    (querySelectorAll (dom st) (mesTextEl_of o) (has_tag "pre")) ->
  evaluate host k st = (Ok tt, record (Evaluated k) (set_timer k None st)) /\
  (forall messageId mesTextEl,
     Entered messageId mesTextEl ∈ trace (evaluate host k st).2 ->
     Entered messageId mesTextEl ∈ trace st) /\
  (forall el frame (s : @V3.State World),
     querySelector (V3.dom s) el (has_tag "iframe") = Some frame ->
     V3.check host el s = (Ok tt, V3.record (V3.Checked el) s)).
Proof.
  intros Hk Hall.
  assert (Heval : evaluate host k st = (Ok tt, evaluating k st)).
  { rewrite (evaluate_unfold k o st Hk).
    destruct (existsb _ _) eqn:Hun; [| done].
    apply existsb_exists in Hun as (pre & Hin & Hpre).
    unfold unrendered in Hpre. apply andb_true_iff in Hpre as [Hfe Hnot].
    rewrite Forall_forall in Hall.
    rewrite (Hall pre) in Hnot; [done | by apply list_elem_of_In | done]. }
  split; [exact Heval |]. split.
  - intros messageId mesTextEl. rewrite Heval. simpl.
    intros [H | H%list_elem_of_singleton]%elem_of_app; [done | discriminate].
  - intros el frame s Hframe. unfold V3.check, function, bind, gets, modify. simpl.
    change (V3.dom (V3.record (V3.Checked el) s)) with (V3.dom s). by rewrite Hframe.
Qed.

(** The other way round: an unrendered front-end block makes the evaluation
    call [tryTriggerRerender]. *)
Lemma evaluate_unrendered_triggers k o (st : @State World) :
  observers st !! k = Some o ->
  existsb (unrendered (dom st))
    (querySelectorAll (dom st) (mesTextEl_of o) (has_tag "pre")) = true ->
  Entered (messageId_of o) (Some (mesTextEl_of o)) ∈ trace (evaluate host k st).2.
Proof.
  intros Hk Hun. rewrite (evaluate_unfold k o st Hk), Hun.
  destruct (tryTriggerRerender_spec host (messageId_of o) (Some (mesTextEl_of o))
              (evaluating k st)) as (b & evs & R & T & _).
  destruct (tryTriggerRerender host _ _ (evaluating k st)) as [[[|] | e] s]; simpl in *;
    try done; rewrite T; apply elem_of_app; right; by left.
Qed.

End EvaluationFacts.

(** C5, as stated, fails: the evaluation of the message of [page] finds a
    front-end block that is wrapped in a rendered iframe container, and
    [tryTriggerRerender] is called all the same, for the sake of the second,
    bare block. *)
Lemma evaluate_rendered_block_yet_trigger :
  (exists pre,
     pre ∈ Dom.querySelectorAll (Userscript.dom observed_page) 3%N (Dom.has_tag "pre") /\
     front_end pre = true /\
     Userscript.isPreRendered (Userscript.dom observed_page) (Some pre) = true) /\
  Userscript.Entered (Some "7") (Some 3%N)
    ∈ Userscript.trace (Userscript.evaluate bare_host 0 observed_page).2.
Proof.
  split.
  - exists (Dom.Element 5%N "pre" [] [] [Dom.Text 6%N "<html><body>one</body></html>"]).
    split; [| by split]. vm_compute. left.
  - vm_compute. right. left.
Qed.

Lemma evaluate_rendered_no_trigger_witness :
  let st := (Userscript.observeMesText bare_host (Some 3%N)
               (Userscript.initial tt rendered_page)).2 in
  Userscript.evaluate bare_host 0 st =
  (Ok tt, Userscript.record (Userscript.Evaluated 0) (Userscript.set_timer 0 None st)).
Proof.
  intros st.
  apply (evaluate_rendered_no_trigger bare_host 0
           (userscript_observer 3%N page_mes) st).
  - reflexivity.
  - change (Forall (fun pre => front_end pre = true ->
                             Userscript.isPreRendered rendered_page (Some pre) = true)
              [Dom.Element 5%N "pre" [] [] [Dom.Text 6%N "<html><body>one</body></html>"];
               Dom.Element 8%N "pre" [] [] [Dom.Text 9%N "plain text"]]).
    constructor; [intros _; reflexivity |].
    constructor; [intros H; discriminate H | constructor].
Defined.

(** ** What [tryTriggerRerender] leaves alone *)

Section FrameFacts.
Import Dom Userscript.
Context {World : Type} (host : Host World).

Lemma keeps_bind {A B} (m : Stmt (@State World) bool A) (k : A -> Stmt (@State World) bool B) :
  keeps (World := World) m ->
  (forall a, keeps (World := World) (k a)) ->
  keeps (World := World) (bind m k).
Proof.
  intros Hm Hk st. destruct (Hm st) as (O & S & N & T). unfold bind.
  destruct (m st) as [[a | r | e] st1]; simpl in *.
  - destruct T as [T | [? _]]; [| done].
    destruct (Hk a st1) as (O' & S' & N' & T'). rewrite T, N in T'.
    by rewrite O', S', N'.
  - repeat split; try done. destruct T as [T | [T1 T2]]; [by left |].
    right. split; [by inversion T1 | done].
  - repeat split; try done. destruct T as [T | [? _]]; [by left | done].
Qed.

Lemma keeps_try_catch {A} (body : Stmt (@State World) bool A)
    (h : Exn -> Stmt (@State World) bool A) :
  keeps (World := World) body ->
  (forall e, keeps (World := World) (h e)) ->
  keeps (World := World) (try_catch body h).
Proof.
  intros Hm Hk st. destruct (Hm st) as (O & S & N & T). unfold try_catch.
  destruct (body st) as [[a | r | e] st1]; simpl in *.
  - done.
  - done.
  - destruct T as [T | [? _]]; [| done].
    destruct (Hk e st1) as (O' & S' & N' & T'). rewrite T, N in T'.
    by rewrite O', S', N'.
Qed.

Lemma keeps_for_of {X} (l : list X) (body : X -> Stmt (@State World) bool unit) :
  (forall x, keeps (World := World) (body x)) -> keeps (World := World) (for_of l body).
Proof.
  intros H. induction l as [|x l IH]; simpl.
  - intros st. repeat split; by left.
  - by apply keeps_bind.
Qed.

Lemma keeps_schedule marker :
  keeps (World := World) (A := unit)
    (setTimeout (RemoveMarker marker) 300 ;; log host ;; return_ true)%stmt.
Proof.
  intros st. repeat split; try done. right. split; [done |]. by exists marker.
Qed.

Ltac keeps_atom :=
  intros ?; cbv [ret gets throw return_ log DEBUG attempt attempt_fails appendMarker
                 createMarker modify fst snd];
  repeat case_match; simplify_eq/=; repeat split; try done; by left.

Ltac keeps_block :=
  unfold emit;
  repeat first
    [ apply keeps_schedule
    | apply keeps_try_catch; [| intros ?]
    | apply keeps_for_of; intros ?
    | apply keeps_bind; [| intros ?]
    | match goal with
      | |- keeps (World := World) (match ?x with _ => _ end) => destruct x
      end
    | keeps_atom ].

Lemma keeps_blocks messageId mesTextEl : keeps (World := World) (blocks host messageId mesTextEl).
Proof.
  unfold blocks, primary, secondary, third, fourth, fifth, last_resort. keeps_block.
Qed.

(** [tryTriggerRerender] leaves the observers, the observed set and the clock
    alone; it leaves the timers alone when it returns [false], and adds at
    most the removal of its marker when it returns [true]. *)
Lemma tryTriggerRerender_keeps messageId mesTextEl st :
  let r := tryTriggerRerender host messageId mesTextEl st in
  observers r.2 = observers st /\
  observed r.2 = observed st /\
  now r.2 = now st /\
  (timers r.2 = timers st \/
   (r.1 = Ok true /\
    exists marker,
      timers r.2 = (Timers.setTimeout (RemoveMarker marker) 300 (now st) (timers st)).2)).
Proof.
  intros r. subst r. rewrite tryTriggerRerender_blocks.
  destruct (keeps_blocks messageId mesTextEl (record (Entered messageId mesTextEl) st))
    as (O & S & N & T).
  unfold function. destruct (blocks _ _ _ _) as [[a | r | e] s']; simpl in *;
    repeat split; try done;
    destruct T as [T | [T1 T2]]; try (by left); try done.
  right. split; [by inversion T1 | done].
Qed.

(** [tryTriggerRerender] returns to its caller. *)
Lemma tryTriggerRerender_returns messageId mesTextEl st :
  exists b, (tryTriggerRerender host messageId mesTextEl st).1 = Ok b.
Proof.
  destruct (tryTriggerRerender_spec host messageId mesTextEl st) as (b & _ & H & _).
  by exists b.
Qed.

Lemma retries_tryTriggerRerender messageId mesTextEl st :
  retries (tryTriggerRerender host messageId mesTextEl st).2 = retries st.
Proof.
  destruct (tryTriggerRerender_keeps messageId mesTextEl st) as (_ & _ & _ & [T | [_ [m T]]]);
    unfold retries; rewrite T; [done |].
  simpl. rewrite List.filter_app. simpl. by rewrite app_nil_r.
Qed.

(** One call of [tryTriggerRerender] is one more entry on record. *)
Lemma entries_tryTriggerRerender messageId mesTextEl st :
  entries (trace (tryTriggerRerender host messageId mesTextEl st).2) = S (entries (trace st)).
Proof.
  destruct (tryTriggerRerender_spec host messageId mesTextEl st) as (b & evs & _ & T & F & _).
  rewrite T. unfold entries. rewrite List.filter_app, length_app. simpl.
  assert (Hevs : List.filter is_entered evs = []).
  { clear T. induction F as [|e evs (a & ok & -> & _) _ IH]; [done |]. simpl. exact IH. }
  rewrite Hevs. simpl. lia.
Qed.

(** C7: when the debounced evaluation finds unrendered front-end code, it
    calls [tryTriggerRerender] at once.  If that call returns [true], the
    evaluation ends there and schedules no re-attempt.  If it returns [false],
    the evaluation schedules one timer on top of what the call left, the
    re-attempt, 250ms ahead, and nothing else.  The re-attempt is one more
    call of [tryTriggerRerender] with the same message id and element;
    whatever that call returns, the re-attempt returns and schedules no
    re-attempt. *)
Theorem single_delayed_retry k o (st : @State World) :
  observers st !! k = Some o ->
  existsb (unrendered (dom st))
    (querySelectorAll (dom st) (mesTextEl_of o) (has_tag "pre")) = true ->
  let messageId := messageId_of o in
  let mesTextEl := Some (mesTextEl_of o) in
  let immediate := tryTriggerRerender host messageId mesTextEl (evaluating k st) in
  (exists b,
     immediate.1 = Ok b /\
     (evaluate host k st).1 = Ok tt /\
     entries (trace (evaluate host k st).2) = S (entries (trace st)) /\
     if b then
       (evaluate host k st).2 = immediate.2 /\
       retries (evaluate host k st).2 = retries st
     else
       (evaluate host k st).2 =
         set_timers
           (Timers.setTimeout (Retry messageId mesTextEl) 250 (now st) (timers immediate.2)).2
           immediate.2 /\
       Timers.pending (timers (evaluate host k st).2) =
         Timers.pending (timers st) ++
         [{| Timers.timer_id := Timers.next_id (timers st);
             Timers.due := (now st + 250)%N;
             Timers.task := Retry messageId mesTextEl |}]) /\
  forall s,
    run_task host (Retry messageId mesTextEl) s =
      (Ok tt, (tryTriggerRerender host messageId mesTextEl s).2) /\
    entries (trace (run_task host (Retry messageId mesTextEl) s).2) = S (entries (trace s)) /\
    retries (run_task host (Retry messageId mesTextEl) s).2 = retries s.
Proof.
  intros Hk Hun messageId mesTextEl immediate. split.
  - pose proof (entries_tryTriggerRerender messageId mesTextEl (evaluating k st)) as En.
    pose proof (retries_tryTriggerRerender messageId mesTextEl (evaluating k st)) as Re.
    destruct (tryTriggerRerender_keeps messageId mesTextEl (evaluating k st))
      as (_ & _ & N & T).
    destruct (tryTriggerRerender_returns messageId mesTextEl (evaluating k st)) as [b Hb].
    exists b. split; [exact Hb |].
    rewrite (evaluate_unfold host k o st Hk), Hun.
    fold messageId mesTextEl immediate in En, Re, N, T, Hb |- *.
    assert (E0 : entries (trace (evaluating k st)) = entries (trace st)).
    { unfold evaluating, entries. simpl. rewrite List.filter_app, length_app. simpl. lia. }
    assert (R0 : retries (evaluating k st) = retries st) by done.
    destruct immediate as [[[|] | e] s1]; simpl in *; simplify_eq.
    + split; [done |]. split; [by rewrite En, E0 |]. split; [done | by rewrite Re].
    + destruct T as [T | [? _]]; [| done].
      split; [done |]. split; [by rewrite En, E0 |]. split; [by rewrite N |].
      by rewrite T, N.
  - intros s. unfold run_task, function, bind, call.
    pose proof (retries_tryTriggerRerender messageId mesTextEl s) as R.
    pose proof (entries_tryTriggerRerender messageId mesTextEl s) as En.
    destruct (tryTriggerRerender_returns messageId mesTextEl s) as [b Hb].
    destruct (tryTriggerRerender host _ _ s) as [r s2]. simpl in *. by subst r.
Qed.

End FrameFacts.

Lemma single_delayed_retry_witness :
  (Userscript.tryTriggerRerender hostile_host (Some "7") (Some 3%N)
     (evaluating 0 observed_page)).1 = Ok false /\
  Timers.pending (Userscript.timers (Userscript.evaluate hostile_host 0 observed_page).2) =
  [{| Timers.timer_id := 1; Timers.due := 250;
      Timers.task := Userscript.Retry (Some "7") (Some 3%N) |}].
Proof.
  destruct (single_delayed_retry hostile_host 0 (userscript_observer 3%N page_mes)
              observed_page eq_refl eq_refl) as [(b & Hb & _ & _ & H) _].
  assert (E : b = false).
  { vm_compute in Hb. by injection Hb as <-. }
  subst b. split; [exact Hb | exact (proj2 H)].
Defined.

(** ** Debouncing *)

Section TimerFacts.
Context {Task : Type}.

Lemma timers_wf_empty : timers_wf (@Timers.empty Task).
Proof. split; constructor. Qed.

Lemma NoDup_map_filter {A B} (f : A -> B) (p : A -> bool) (l : list A) :
  NoDup (map f l) -> NoDup (map f (List.filter p l)).
Proof.
  induction l as [|x l IH]; simpl; [done |].
  intros [Hin Hnd]%NoDup_cons. destruct (p x); [| by apply IH].
  simpl. apply NoDup_cons. split; [| by apply IH].
  intros Hin'. apply Hin. apply list_elem_of_fmap in Hin' as (y & -> & Hy).
  apply list_elem_of_fmap. exists y. split; [done |].
  apply list_elem_of_In in Hy. apply filter_In in Hy as [Hy _].
  by apply list_elem_of_In.
Qed.

Lemma timers_wf_clearTimeout i (tb : Timers.Table Task) :
  timers_wf tb -> timers_wf (Timers.clearTimeout i tb).
Proof.
  intros [Hnd Hlt]. unfold Timers.clearTimeout. split; simpl.
  - by apply NoDup_map_filter.
  - apply Forall_forall. intros t Ht%list_elem_of_In. apply filter_In in Ht as [Ht _].
    rewrite Forall_forall in Hlt. apply Hlt. by apply list_elem_of_In.
Qed.

Lemma timers_wf_setTimeout (task : Task) delay now tb :
  timers_wf tb -> timers_wf (Timers.setTimeout task delay now tb).2.
Proof.
  intros [Hnd Hlt]. unfold Timers.setTimeout. split; simpl.
  - rewrite map_app. apply NoDup_app. split; [done |]. split; [| apply NoDup_singleton].
    intros i Hi [-> | []%elem_of_nil]%elem_of_cons.
    apply list_elem_of_fmap in Hi as (t & Ht & Hin).
    rewrite Forall_forall in Hlt. specialize (Hlt t Hin). simpl in Ht. lia.
  - apply Forall_app. split.
    + eapply Forall_impl; [exact Hlt |]. intros t Ht. simpl in *. lia.
    + constructor; [simpl; lia | constructor].
Qed.

End TimerFacts.

Section DebounceFacts.
Import Dom Userscript.
Context {World : Type} (host : Host World).

Lemma onMutations_significant k records (st : @State World) :
  significant records = true ->
  onMutations k records st =
  (Ok tt,
   set_timer k (Some (Timers.next_id (cleared k st)))
     (set_timers
        (Timers.setTimeout (DebouncedEvaluation k) DEBOUNCE_MS (now st) (cleared k st)).2 st)).
Proof.
  intros H. unfold onMutations, function, bind, gets, modify, clearTimeout, setTimeout, cleared.
  rewrite H. simpl. by destruct (timer_of k st).
Qed.

Lemma onMutations_insignificant k records (st : @State World) :
  significant records = false -> onMutations k records st = (Ok tt, st).
Proof.
  intros H. unfold onMutations, function. by rewrite H.
Qed.

Lemma cleared_no_evaluation k (st : @State World) :
  debounce_inv k st ->
  List.filter (fun t => is_evaluation k (Timers.task t)) (Timers.pending (cleared k st)) = [].
Proof.
  intros [_ Hinv]. rewrite Forall_forall in Hinv.
  destruct (List.filter _ _) as [|t l] eqn:Hf; [done |]. exfalso.
  assert (Hin : In t (List.filter (fun t => is_evaluation k (Timers.task t))
                        (Timers.pending (cleared k st)))) by (rewrite Hf; by left).
  apply filter_In in Hin as [Hin Hev]. unfold cleared in Hin.
  destruct (timer_of k st) as [i |] eqn:Ht.
  - simpl in Hin. apply filter_In in Hin as [Hin Hne].
    apply list_elem_of_In in Hin. specialize (Hinv t Hin Hev).
    injection Hinv as Hi. rewrite Hi, Pos.eqb_refl in Hne. done.
  - apply list_elem_of_In in Hin. by specialize (Hinv t Hin Hev).
Qed.

Lemma cleared_wf k (st : @State World) : timers_wf (timers st) -> timers_wf (cleared k st).
Proof.
  intros H. unfold cleared. destruct (timer_of k st); [by apply timers_wf_clearTimeout | done].
Qed.

Lemma timer_of_set_timer k v o (st : @State World) :
  observers st !! k = Some o -> timer_of k (set_timer k v st) = v.
Proof.
  intros H. unfold timer_of, set_timer. simpl. by rewrite list_lookup_alter_eq, H.
Qed.

(** One significant batch: whatever was pending for the observer is gone, and
    one evaluation is pending, [DEBOUNCE_MS] ahead. *)
Lemma onMutations_reschedules k o records (st : @State World) :
  debounce_inv k st -> observers st !! k = Some o -> significant records = true ->
  let st' := (onMutations k records st).2 in
  pending_evaluations k st' =
    [{| Timers.timer_id := Timers.next_id (timers st);
        Timers.due := (now st + DEBOUNCE_MS)%N;
        Timers.task := DebouncedEvaluation k |}] /\
  now st' = now st /\
  trace st' = trace st /\
  (exists o', observers st' !! k = Some o') /\
  debounce_inv k st'.
Proof.
  intros Hinv Hk Hsig st'. subst st'. rewrite onMutations_significant by done.
  assert (Hnext : Timers.next_id (cleared k st) = Timers.next_id (timers st)).
  { unfold cleared. by destruct (timer_of k st). }
  cbn [snd]. unfold pending_evaluations, debounce_inv.
  cbn [timers set_timer set_observers set_timers Timers.setTimeout snd Timers.pending].
  rewrite List.filter_app, cleared_no_evaluation by done.
  cbn [List.filter Timers.task is_evaluation]. rewrite Nat.eqb_refl, Hnext.
  split; [done |]. split; [done |]. split; [done |]. split.
  { unfold set_timer. simpl. rewrite list_lookup_alter_eq, Hk. by eexists. }
  split.
  - rewrite <- Hnext.
    apply (timers_wf_setTimeout (DebouncedEvaluation k) DEBOUNCE_MS (now st) (cleared k st)).
    apply cleared_wf, Hinv.
  - apply Forall_forall. intros t Ht Hev. simpl in Ht.
    apply elem_of_app in Ht as [Ht | Ht%list_elem_of_singleton].
    + exfalso. pose proof (cleared_no_evaluation k st Hinv) as Hnone.
      assert (Hin : In t (List.filter (fun t => is_evaluation k (Timers.task t))
                            (Timers.pending (cleared k st)))).
      { apply filter_In. split; [by apply list_elem_of_In | done]. }
      by rewrite Hnone in Hin.
    + subst t. simpl. by rewrite (timer_of_set_timer k _ o).
Qed.









End DebounceFacts.

Section V3DebounceFacts.
Import Dom.
Context {World : Type} (host : Host World).

Lemma stored_own m (o : gmap string positive) : V3.is_proto m = false -> V3.stored m o = o !! m.
Proof. intros H. unfold V3.stored. by rewrite H. Qed.

Lemma stored_Some m (o : gmap string positive) i : V3.stored m o = Some i -> o !! m = Some i.
Proof. unfold V3.stored. by destruct (V3.is_proto m). Qed.

Lemma store_own m i (o : gmap string positive) :
  V3.is_proto m = false -> V3.store m i o = <[m := i]> o.
Proof. intros H. unfold V3.store. by rewrite H. Qed.


Lemma v3_onMutations_significant m el records (st : @V3.State World) :
  v3_significant m el records st ->
  V3.onMutations el records st =
  (Ok tt,
   V3.set_debounceTimers
     (V3.store m (Timers.next_id (v3_cleared m st)) (V3.debounceTimers st))
     (V3.set_timers
        (Timers.setTimeout (V3.DebouncedCheck el m) V3.DEBOUNCE_MS (V3.now st)
           (v3_cleared m st)).2 st)).
Proof.
  intros (H1 & H2 & H3).
  unfold V3.onMutations, function, bind, gets, modify, V3.clearTimeout, V3.setTimeout, v3_cleared.
  rewrite H1. simpl. rewrite H2, H3. simpl. by destruct (V3.stored m (V3.debounceTimers st)).
Qed.

Lemma v3_cleared_no_check m (st : @V3.State World) :
  v3_debounce_inv m st ->
  List.filter (fun t => is_check m (Timers.task t)) (Timers.pending (v3_cleared m st)) = [].
Proof.
  intros [_ Hinv]. rewrite Forall_forall in Hinv.
  destruct (List.filter _ _) as [|t l] eqn:Hf; [done |]. exfalso.
  assert (Hin : In t (List.filter (fun t => is_check m (Timers.task t))
                        (Timers.pending (v3_cleared m st)))) by (rewrite Hf; by left).
  apply filter_In in Hin as [Hin Hev]. unfold v3_cleared in Hin.
  destruct (V3.stored m (V3.debounceTimers st)) as [i |] eqn:Ht.
  - simpl in Hin. apply filter_In in Hin as [Hin Hne].
    apply list_elem_of_In in Hin. specialize (Hinv t Hin Hev).
    injection Hinv as Hi. rewrite Hi, Pos.eqb_refl in Hne. done.
  - apply list_elem_of_In in Hin. by specialize (Hinv t Hin Hev).
Qed.





End V3DebounceFacts.

(** ** The debounce discipline holds in every state the userscript reaches *)

Section ReachableFacts.
Import Dom Userscript.
Context {World : Type} (host : Host World).

Lemma coherent_debounce_inv k (st : @State World) : coherent st -> debounce_inv k st.
Proof.
  intros H. split; [apply H |]. apply Forall_forall. intros t Ht Hev.
  by apply (coherent_pending st H).
Qed.

Lemma coherent_same (st st' : @State World) :
  timers st' = timers st -> observers st' = observers st -> coherent st -> coherent st'.
Proof.
  intros T O [H1 H2 H3 H4].
  assert (Hv : forall k, timer_of k st' = timer_of k st).
  { intros k. unfold timer_of. by rewrite O. }
  split.
  - by rewrite T.
  - intros k t. rewrite T, Hv. apply H2.
  - intros k t. rewrite T, Hv. apply H3.
  - intros k i. rewrite T, Hv. apply H4.
Qed.

Lemma coherent_initial (w : World) d : coherent (initial w d).
Proof.
  split; simpl.
  - apply timers_wf_empty.
  - intros k t Ht. inversion Ht.
  - intros k t _ Ht. inversion Ht.
  - intros k i H. discriminate.
Qed.

(** Clearing a timer keeps (World := World) the state coherent. *)
Lemma coherent_clearTimeout i (st : @State World) :
  coherent st -> coherent (set_timers (Timers.clearTimeout i (timers st)) st).
Proof.
  intros [H1 H2 H3 H4]. split; simpl.
  - by apply timers_wf_clearTimeout.
  - intros k t Ht%list_elem_of_In Hev. apply filter_In in Ht as [Ht _].
    apply H2; [by apply list_elem_of_In | done].
  - intros k t Hk Ht%list_elem_of_In. apply filter_In in Ht as [Ht _].
    apply H3; [done | by apply list_elem_of_In].
  - exact H4.
Qed.

(** Scheduling something that is not an evaluation keeps (World := World) the state
    coherent. *)
Lemma coherent_setTimeout task delay t0 (st : @State World) :
  (forall k, is_evaluation k task = false) ->
  coherent st -> coherent (set_timers (Timers.setTimeout task delay t0 (timers st)).2 st).
Proof.
  intros Htask [H1 H2 H3 H4]. split; simpl.
  - by apply (timers_wf_setTimeout task delay t0).
  - intros k t [Ht | ->%list_elem_of_singleton]%elem_of_app Hev; [by apply H2 |].
    simpl in Hev. by rewrite Htask in Hev.
  - intros k t Hk [Ht | ->%list_elem_of_singleton]%elem_of_app; [by apply H3 |].
    simpl in Hk. apply H4 in Hk. lia.
  - intros k i Hk. apply H4 in Hk. lia.
Qed.

Lemma coherent_tryTriggerRerender messageId mesTextEl (st : @State World) :
  coherent st -> coherent (tryTriggerRerender host messageId mesTextEl st).2.
Proof.
  intros H.
  destruct (tryTriggerRerender_keeps host messageId mesTextEl st) as (O & _ & _ & T).
  destruct T as [T | [_ [marker T]]].
  - by apply (coherent_same st).
  - apply (coherent_same
             (set_timers (Timers.setTimeout (RemoveMarker marker) 300 (now st) (timers st)).2 st));
      [done | done |].
    by apply coherent_setTimeout.
Qed.

Lemma timer_of_set_timer_eq k v (st : @State World) :
  timer_of k (set_timer k v st) = match observers st !! k with Some _ => v | None => None end.
Proof.
  unfold timer_of, set_timer. simpl. rewrite list_lookup_alter_eq.
  by destruct (observers st !! k).
Qed.

Lemma timer_of_set_timer_ne k k' v (st : @State World) :
  k <> k' -> timer_of k (set_timer k' v st) = timer_of k st.
Proof.
  intros H. unfold timer_of, set_timer. simpl. by rewrite list_lookup_alter_ne.
Qed.

(** Forgetting the binding of an observer that has no evaluation pending
    keeps (World := World) the state coherent. *)
Lemma coherent_forget k' (st : @State World) :
  (forall t, t ∈ Timers.pending (timers st) -> is_evaluation k' (Timers.task t) = false) ->
  coherent st -> coherent (set_timer k' None st).
Proof.
  intros Hnone [H1 H2 H3 H4]. split; simpl.
  - exact H1.
  - intros k t Ht Hev. destruct (decide (k = k')) as [-> | Hne].
    + by rewrite (Hnone t Ht) in Hev.
    + rewrite timer_of_set_timer_ne by done. by apply H2.
  - intros k t Hk Ht. destruct (decide (k = k')) as [-> | Hne].
    + rewrite timer_of_set_timer_eq in Hk. by destruct (observers st !! k').
    + rewrite timer_of_set_timer_ne in Hk by done. by apply H3.
  - intros k i Hk. destruct (decide (k = k')) as [-> | Hne].
    + rewrite timer_of_set_timer_eq in Hk. by destruct (observers st !! k').
    + rewrite timer_of_set_timer_ne in Hk by done. by apply (H4 k).
Qed.

Lemma coherent_evaluate k' (st : @State World) :
  (forall t, t ∈ Timers.pending (timers st) -> is_evaluation k' (Timers.task t) = false) ->
  coherent st -> coherent (evaluate host k' st).2.
Proof.
  intros Hnone H.
  assert (Hev : coherent (evaluating k' st)).
  { apply (coherent_same (set_timer k' None st)); [done | done |].
    by apply coherent_forget. }
  destruct (observers st !! k') as [o |] eqn:Hk.
  - rewrite (evaluate_unfold host k' o st Hk).
    destruct (existsb _ _); [| done].
    pose proof (coherent_tryTriggerRerender (messageId_of o) (Some (mesTextEl_of o))
                  (evaluating k' st) Hev) as Htry.
    destruct (tryTriggerRerender host _ _ (evaluating k' st)) as [[[|] | e] s]; simpl in *;
      try done.
    by apply coherent_setTimeout.
  - cbv beta iota delta [evaluate function bind gets modify call].
    change (record (Evaluated k') (set_timer k' None st)) with (evaluating k' st).
    assert (Hnone' : observers (evaluating k' st) !! k' = None).
    { unfold evaluating, set_timer. simpl. by rewrite list_lookup_alter_eq, Hk. }
    rewrite Hnone'. exact Hev.
Qed.

Lemma coherent_onMutations k' o records (st : @State World) :
  observers st !! k' = Some o ->
  coherent st -> coherent (onMutations k' records st).2.
Proof.
  intros Hk H. destruct (significant records) eqn:Hsig;
    [| by rewrite onMutations_insignificant].
  rewrite onMutations_significant by done. simpl.
  assert (Hnext : Timers.next_id (cleared k' st) = Timers.next_id (timers st)).
  { unfold cleared. by destruct (timer_of k' st). }
  assert (Hsub : forall t, t ∈ Timers.pending (cleared k' st) ->
                           t ∈ Timers.pending (timers st)).
  { intros t. unfold cleared. destruct (timer_of k' st); [| done].
    simpl. intros Ht%list_elem_of_In. apply filter_In in Ht as [Ht _].
    by apply list_elem_of_In. }
  assert (Hgone : forall t, t ∈ Timers.pending (cleared k' st) ->
                            is_evaluation k' (Timers.task t) = false).
  { intros t Ht. destruct (is_evaluation k' (Timers.task t)) eqn:Hev; [| done].
    exfalso. pose proof (cleared_no_evaluation k' st (coherent_debounce_inv k' st H)) as Hn.
    assert (Hin : In t (List.filter (fun t => is_evaluation k' (Timers.task t))
                          (Timers.pending (cleared k' st)))).
    { apply filter_In. split; [by apply list_elem_of_In | done]. }
    by rewrite Hn in Hin. }
  destruct H as [H1 H2 H3 H4].
  assert (Hwf : timers_wf (cleared k' st)) by (by apply cleared_wf).
  assert (Hbelow : forall t, t ∈ Timers.pending (cleared k' st) ->
                             (Timers.timer_id t < Timers.next_id (cleared k' st))%positive).
  { intros t Ht. destruct Hwf as [_ Hlt]. rewrite Forall_forall in Hlt. by apply Hlt. }
  split; simpl.
  - by apply (timers_wf_setTimeout (DebouncedEvaluation k') DEBOUNCE_MS (now st)).
  - intros k t [Ht | ->%list_elem_of_singleton]%elem_of_app Hev.
    + destruct (decide (k = k')) as [-> | Hne]; [by rewrite (Hgone t Ht) in Hev |].
      rewrite timer_of_set_timer_ne by done. apply H2; [by apply Hsub | done].
    + simpl in Hev. apply Nat.eqb_eq in Hev. subst k.
      rewrite timer_of_set_timer_eq. simpl. by rewrite Hk.
  - intros k t Hv [Ht | ->%list_elem_of_singleton]%elem_of_app.
    + destruct (decide (k = k')) as [-> | Hne].
      * rewrite timer_of_set_timer_eq in Hv. simpl in Hv. rewrite Hk in Hv.
        injection Hv as Hv. specialize (Hbelow t Ht). lia.
      * rewrite timer_of_set_timer_ne in Hv by done. apply H3; [done | by apply Hsub].
    + simpl in *. destruct (decide (k = k')) as [-> | Hne]; [by rewrite Nat.eqb_refl |].
      rewrite timer_of_set_timer_ne in Hv by done. apply H4 in Hv. lia.
  - intros k i Hv. destruct (decide (k = k')) as [-> | Hne].
    + rewrite timer_of_set_timer_eq in Hv. simpl in Hv. rewrite Hk in Hv.
      injection Hv as <-. lia.
    + rewrite timer_of_set_timer_ne in Hv by done. apply H4 in Hv. lia.
Qed.

Lemma coherent_observeMesText mesTextEl (st : @State World) :
  coherent st -> coherent (observeMesText host mesTextEl st).2.
Proof.
  intros H. destruct mesTextEl as [el |]; [| done].
  destruct (decide (el ∈ observed st)) as [Hin | Hin].
  - by rewrite userscript_observeMesText_seen.
  - rewrite userscript_observeMesText_new by done.
    destruct (closest _ _ _) as [mesEl |]; [| by apply (coherent_same st)].
    simpl.
    set (st' := set_observers _ _).
    assert (Hv : forall k i, timer_of k st' = Some i -> timer_of k st = Some i).
    { intros k i. unfold timer_of, st'. simpl.
      destruct (decide (k < length (observers st))) as [Hlt | Hge].
      - by rewrite lookup_app_l.
      - rewrite lookup_app_r by lia.
        by destruct (k - length (observers st)) as [|[|n]]. }
    assert (Hv' : forall k i, timer_of k st = Some i -> timer_of k st' = Some i).
    { intros k i. unfold timer_of, st'. simpl.
      destruct (observers st !! k) as [o |] eqn:Hk; [| done].
      by rewrite (lookup_app_l_Some _ _ _ _ Hk). }
    destruct H as [H1 H2 H3 H4]. split.
    + exact H1.
    + intros k t Ht Hev. apply Hv'. by apply H2.
    + intros k t Hk Ht. apply H3; [by apply Hv | done].
    + intros k i Hk. apply (H4 k). by apply Hv.
Qed.

Lemma coherent_fire i (st : @State World) r :
  fire host i st = Some r -> coherent st -> coherent r.2.
Proof.
  unfold fire, Timers.take. intros Hfire H.
  destruct (List.find _ _) as [t |] eqn:Hfind; [| done].
  destruct (_ <=? _)%N; [| done]. injection Hfire as <-.
  apply find_some in Hfind as [Hin Hid]. apply Pos.eqb_eq in Hid. subst i.
  pose proof (coherent_clearTimeout (Timers.timer_id t) st H) as Hc.
  destruct (Timers.task t) as [k | messageId mesTextEl | marker] eqn:Htask; simpl.
  - apply coherent_evaluate; [| done].
    intros t' Ht'%list_elem_of_In. simpl in Ht'. apply filter_In in Ht' as [Ht' Hne].
    destruct (is_evaluation k (Timers.task t')) eqn:Hev; [| done]. exfalso.
    destruct H as [_ H2 _ _].
    assert (E1 : timer_of k st = Some (Timers.timer_id t)).
    { apply H2; [by apply list_elem_of_In |]. rewrite Htask. simpl. by rewrite Nat.eqb_refl. }
    assert (E2 : timer_of k st = Some (Timers.timer_id t')).
    { apply H2; [by apply list_elem_of_In | done]. }
    rewrite E1 in E2. injection E2 as E2. rewrite E2, Pos.eqb_refl in Hne. done.
  - unfold function, bind, call.
    pose proof (coherent_tryTriggerRerender messageId mesTextEl _ Hc) as Htry.
    by destruct (tryTriggerRerender host _ _ _) as [[b | e] s].
  - by apply (coherent_same (set_timers (Timers.clearTimeout (Timers.timer_id t) (timers st)) st)).
Qed.

Lemma coherent_step (st st' : @State World) : step host st st' -> coherent st -> coherent st'.
Proof.
  intros [mesTextEl s | k changes s | i s r Hfire | gap s | w d s] H.
  - by apply coherent_observeMesText.
  - unfold notify. destruct (observers s !! k) as [o |] eqn:Hk; [| done].
    destruct (queued _ _ _ _); [done |]. by apply (coherent_onMutations k o).
  - by apply (coherent_fire i s).
  - by apply (coherent_same s).
  - by apply (coherent_same s).
Qed.

(** In every state the userscript reaches, the debounce discipline holds for
    every observer. *)
Lemma reachable_debounce_inv (st : @State World) k : reachable host st -> debounce_inv k st.
Proof.
  intros (w & d & Hrtc). apply coherent_debounce_inv.
  revert st Hrtc. apply rtc_ind_r; [apply coherent_initial |].
  intros y z _ Hstep IH. by apply (coherent_step y).
Qed.

End ReachableFacts.

(** ** The debounce discipline holds in every state the extension reaches *)

Section V3ReachableFacts.
Import Dom.
Context {World : Type} (host : Host World).

Lemma v3_coherent_debounce_inv m (st : @V3.State World) :
  V3.is_proto m = false -> v3_coherent st -> v3_debounce_inv m st.
Proof.
  intros Hm H. split; [apply H |]. apply Forall_forall. intros t Ht Hev.
  rewrite stored_own by done. by apply (v3_coherent_pending st H).
Qed.

Lemma v3_coherent_same (st st' : @V3.State World) :
  V3.timers st' = V3.timers st -> V3.debounceTimers st' = V3.debounceTimers st ->
  v3_coherent st -> v3_coherent st'.
Proof.
  intros T D [H1 H2 H3 H4]. split.
  - by rewrite T.
  - intros m t. rewrite T, D. apply H2.
  - intros m t. rewrite T, D. apply H3.
  - intros m i. rewrite T, D. apply H4.
Qed.

Lemma v3_coherent_initial (w : World) d : v3_coherent (V3.initial w d).
Proof.
  split; simpl.
  - apply timers_wf_empty.
  - intros m t _ Ht. inversion Ht.
  - intros m t _ Ht. inversion Ht.
  - intros m i H. by rewrite lookup_empty in H.
Qed.

Lemma v3_coherent_clearTimeout i (st : @V3.State World) :
  v3_coherent st -> v3_coherent (V3.set_timers (Timers.clearTimeout i (V3.timers st)) st).
Proof.
  intros [H1 H2 H3 H4]. split; simpl.
  - by apply timers_wf_clearTimeout.
  - intros m t Hm Ht%list_elem_of_In Hev. apply filter_In in Ht as [Ht _].
    apply H2; [done | by apply list_elem_of_In | done].
  - intros m t Hm Ht%list_elem_of_In. apply filter_In in Ht as [Ht _].
    apply H3; [done | by apply list_elem_of_In].
  - exact H4.
Qed.

Lemma v3_observeMesText_same el (st : @V3.State World) :
  V3.timers (V3.observeMesText el st).2 = V3.timers st /\
  V3.debounceTimers (V3.observeMesText el st).2 = V3.debounceTimers st.
Proof.
  unfold V3.observeMesText, function, bind, gets, modify. simpl.
  by destruct (bool_decide _).
Qed.

Lemma v3_onChatMutations_same mutations (st : @V3.State World) :
  V3.timers (V3.onChatMutations mutations st).2 = V3.timers st /\
  V3.debounceTimers (V3.onChatMutations mutations st).2 = V3.debounceTimers st.
Proof.
  unfold V3.onChatMutations, function.
  set (inner := fun node : Node => _).
  assert (Hinner : forall node s,
            V3.timers (inner node s).2 = V3.timers s /\
            V3.debounceTimers (inner node s).2 = V3.debounceTimers s).
  { intros node s. unfold inner. destruct (_ && _); [| done].
    destruct (querySelector_of _ _) as [mesText |]; [| done].
    unfold call. pose proof (v3_observeMesText_same (node_id mesText) s) as H.
    by destruct (V3.observeMesText _ s) as [[[] | e] s']. }
  assert (Hloop : forall (X : Type) (body : X -> Stmt (@V3.State World) unit unit) l,
            (forall x s, V3.timers (body x s).2 = V3.timers s /\
                         V3.debounceTimers (body x s).2 = V3.debounceTimers s) ->
            forall s, V3.timers (for_of l body s).2 = V3.timers s /\
                      V3.debounceTimers (for_of l body s).2 = V3.debounceTimers s).
  { intros X body l Hbody. induction l as [|x l IH]; intros s; [done |].
    simpl. unfold bind. destruct (Hbody x s) as [T D].
    destruct (body x s) as [[[] | r | e] s1]; simpl in *; [| done | done].
    destruct (IH s1) as [T' D']. by rewrite T', D'. }
  pose proof (Hloop _ (fun mutation => for_of (addedNodes mutation) inner) mutations
                (fun mutation s => Hloop _ inner (addedNodes mutation) Hinner s) st) as H.
  by destruct (for_of mutations _ st) as [[[] | r | e] s'].
Qed.

Lemma v3_check_same el (st : @V3.State World) :
  V3.timers (V3.check host el st).2 = V3.timers st /\
  V3.debounceTimers (V3.check host el st).2 = V3.debounceTimers st.
Proof.
  unfold V3.check, V3.triggerPartialRender, function, bind, gets, modify, call, V3.log,
    V3.DEBUG, V3.host_call, V3.isFrontend, ret, return_, throw.
  cbn [fst snd V3.dom V3.record V3.world V3.set_env].
  repeat case_match; simplify_eq/=; done.
Qed.

Lemma v3_coherent_onMutations el records (st : @V3.State World) :
  v3_coherent st -> v3_coherent (V3.onMutations el records st).2.
Proof.
  intros H.
  destruct (V3.shouldRender records) eqn:Hs;
    [| unfold V3.onMutations, function; by rewrite Hs].
  destruct (V3.getMessageId (V3.dom st) el) as [m |] eqn:Hid;
    [| unfold V3.onMutations, function, bind, gets; rewrite Hs; simpl; by rewrite Hid].
  destruct (JSString.nonempty m) eqn:Hne;
    [| unfold V3.onMutations, function, bind, gets; rewrite Hs; simpl; by rewrite Hid, Hne].
  rewrite (v3_onMutations_significant m) by done. simpl.
  assert (Hnext : Timers.next_id (v3_cleared m st) = Timers.next_id (V3.timers st)).
  { unfold v3_cleared. by destruct (V3.stored m (V3.debounceTimers st)). }
  assert (Hsub : forall t, t ∈ Timers.pending (v3_cleared m st) ->
                           t ∈ Timers.pending (V3.timers st)).
  { intros t. unfold v3_cleared. destruct (V3.stored m (V3.debounceTimers st)); [| done].
    simpl. intros Ht%list_elem_of_In. apply filter_In in Ht as [Ht _].
    by apply list_elem_of_In. }
  assert (Hwf : timers_wf (v3_cleared m st)).
  { unfold v3_cleared. destruct (V3.stored m (V3.debounceTimers st));
      [apply timers_wf_clearTimeout |]; apply H. }
  assert (Hbelow : forall t, t ∈ Timers.pending (v3_cleared m st) ->
                             (Timers.timer_id t < Timers.next_id (v3_cleared m st))%positive).
  { intros t Ht. destruct Hwf as [_ Hlt]. rewrite Forall_forall in Hlt. by apply Hlt. }
  destruct (V3.is_proto m) eqn:Hm.
  - (* a message called [__proto__]: nothing is cleared, nothing is stored *)
    unfold V3.store. rewrite Hm. destruct H as [H1 H2 H3 H4]. split; simpl.
    + by apply (timers_wf_setTimeout (V3.DebouncedCheck el m) V3.DEBOUNCE_MS (V3.now st)).
    + intros m' t Hm' [Ht | ->%list_elem_of_singleton]%elem_of_app Hev.
      * apply H2; [done | by apply Hsub | done].
      * simpl in Hev. apply String.eqb_eq in Hev. subst m'. by rewrite Hm in Hm'.
    + intros m' t Hv [Ht | ->%list_elem_of_singleton]%elem_of_app.
      * apply H3; [done | by apply Hsub].
      * simpl in Hv. apply H4 in Hv. lia.
    + intros m' i Hv. apply H4 in Hv. lia.
  - rewrite store_own by done.
    assert (Hgone : forall t, t ∈ Timers.pending (v3_cleared m st) ->
                              is_check m (Timers.task t) = false).
    { intros t Ht. destruct (is_check m (Timers.task t)) eqn:Hev; [| done].
      exfalso.
      pose proof (v3_cleared_no_check m st (v3_coherent_debounce_inv m st Hm H)) as Hn.
      assert (Hin : In t (List.filter (fun t => is_check m (Timers.task t))
                            (Timers.pending (v3_cleared m st)))).
      { apply filter_In. split; [by apply list_elem_of_In | done]. }
      by rewrite Hn in Hin. }
    destruct H as [H1 H2 H3 H4]. split; simpl.
    + by apply (timers_wf_setTimeout (V3.DebouncedCheck el m) V3.DEBOUNCE_MS (V3.now st)).
    + intros m' t Hm' [Ht | ->%list_elem_of_singleton]%elem_of_app Hev.
      * destruct (decide (m = m')) as [<- | Hmm]; [by rewrite (Hgone t Ht) in Hev |].
        rewrite lookup_insert_ne by done. apply H2; [done | by apply Hsub | done].
      * simpl in Hev. apply String.eqb_eq in Hev. subst m'. by rewrite lookup_insert_eq.
    + intros m' t Hv [Ht | ->%list_elem_of_singleton]%elem_of_app.
      * destruct (decide (m = m')) as [<- | Hmm].
        -- rewrite lookup_insert_eq in Hv. injection Hv as Hv. specialize (Hbelow t Ht). lia.
        -- rewrite lookup_insert_ne in Hv by done. apply H3; [done | by apply Hsub].
      * simpl in *. destruct (decide (m = m')) as [<- | Hmm]; [by rewrite String.eqb_refl |].
        rewrite lookup_insert_ne in Hv by done. apply H4 in Hv. lia.
    + intros m' i Hv. destruct (decide (m = m')) as [<- | Hmm].
      * rewrite lookup_insert_eq in Hv. injection Hv as <-. lia.
      * rewrite lookup_insert_ne in Hv by done. apply H4 in Hv. lia.
Qed.

Lemma v3_coherent_step (st st' : @V3.State World) :
  v3_step host st st' -> v3_coherent st -> v3_coherent st'.
Proof.
  intros [el s | mutations s | k changes s | i s r Hfire | gap s | w d s] H.
  - destruct (v3_observeMesText_same el s). by apply (v3_coherent_same s).
  - destruct (v3_onChatMutations_same mutations s). by apply (v3_coherent_same s).
  - unfold V3.notify. destruct (V3.attached s !! k) as [o |]; [| done].
    destruct (queued _ _ _ _); [done |]. by apply v3_coherent_onMutations.
  - unfold V3.fire, Timers.take in Hfire.
    destruct (List.find _ _) as [t |]; [| done].
    destruct (_ <=? _)%N; [| done]. injection Hfire as <-.
    destruct (Timers.task t) as [el key]. simpl.
    destruct (v3_check_same el (V3.set_timers (Timers.clearTimeout i (V3.timers s)) s)).
    eapply v3_coherent_same; [done | done |]. by apply v3_coherent_clearTimeout.
  - by apply (v3_coherent_same s).
  - by apply (v3_coherent_same s).
Qed.


End V3ReachableFacts.




(** What the amended statement leaves aside: for a message called
    [__proto__] the extension finds no timer to clear and stores none, so
    every batch adds a check. *)
Lemma proto_checks_pile_up :
  map Timers.task
    (Timers.pending
       (V3.timers
          (v3_burst 3%N [(100%N, wrapper_removed)]
             (V3.onMutations 3%N wrapper_removed (V3.initial tt proto_page)).2))) =
  [V3.DebouncedCheck 3%N "__proto__"; V3.DebouncedCheck 3%N "__proto__"].
Proof. by vm_compute. Qed.

(** * Further properties *)

(** ** The strategies of [tryTriggerRerender], one by one *)

Section StrategyFacts.
Import Dom Userscript.
Context {World : Type} (host : Host World).

(** X1: when [window.eventSource] is defined and
    [event_types.MESSAGE_UPDATED] is truthy, the second strategy emits exactly
    one event, of that type, with [Number(messageId)].  It returns [true] if
    the [emit] came back; if the [emit] threw, or [eventSource] is [null], it
    falls through to the third strategy, and none of the six guessed names is
    tried. *)
Theorem secondary_known_type_only messageId v (st : @State World) :
  window_eventSource host (world st) <> ES_undefined ->
  window_event_types host (world st) = ET_object v ->
  truthy v = true ->
  exists ok,
    trace (secondary host messageId st).2 =
      trace st ++ [Attempt (Emit v (Number messageId)) ok] /\
    (secondary host messageId st).1 = (if ok then Return true else Normal tt).
Proof.
  intros Hes Het Hv.
  cbv [secondary try_catch bind gets emit log DEBUG ret return_ attempt attempt_fails].
  destruct (window_eventSource host (world st)) eqn:E; [done | |]; rewrite Het, Hv; simpl;
    rewrite E; simpl.
  - by exists false.
  - destruct (eventSource_emit host v (Number messageId) (world st) (dom st))
      as [[[u | e] w] d]; simpl; [by exists true | by exists false].
Qed.

(** The loop of the fourth strategy, from any state: the functions it calls
    are promising names of the list, in the order of the list, each called
    once. *)
Lemma fourth_loop messageId names (st : @State World) :
  exists called : list (string * bool),
    trace (for_of names (fourth_body host messageId) st).2 =
      trace st ++ map (fun c => Attempt (CallGlobal c.1 (Number messageId)) c.2) called /\
    sublist (map fst called) (List.filter by_name names) /\
    (forall e, (for_of names (fourth_body host messageId) st).1 <> Throw (R := bool) e).
Proof.
  revert st. induction names as [|fnName names IH]; intros st.
  - exists []. simpl. rewrite app_nil_r. by repeat split.
  - cbn [for_of List.filter]. unfold bind.
    destruct (fourth_body_cases host messageId fnName st) as [-> | (Hn & ok & w & d & ->)].
    + destruct (IH st) as (called & T & S & N).
      exists called. split; [done |]. split; [| done].
      destruct (by_name fnName); [by apply sublist_cons | done].
    + rewrite Hn. destruct ok.
      * exists [(fnName, true)]. simpl. split; [done |]. split; [| done].
        apply sublist_skip, sublist_nil_l.
      * destruct (IH (record (Attempt (CallGlobal fnName (Number messageId)) false)
                        (set_env w d st))) as (called & T & S & N).
        exists ((fnName, false) :: called). cbn [map fst snd]. split; [| split; [| done]].
        -- rewrite T. simpl. by rewrite <- app_assoc.
        -- by apply sublist_skip.
Qed.

(** X2: all the fourth strategy does to the host is to call global
    functions: each call is [f(Number(messageId))] for a name [f] of
    [Object.getOwnPropertyNames(window)], read at the start of the strategy,
    whose lower-cased name holds ['message'] or ['refresh'].  The calls follow
    the order of that list, and no entry of the list is called twice. *)
Theorem fourth_calls_promising_functions_once messageId (st : @State World) :
  exists called : list (string * bool),
    trace (fourth host messageId st).2 =
      trace st ++ map (fun c => Attempt (CallGlobal c.1 (Number messageId)) c.2) called /\
    sublist (map fst called) (List.filter by_name (getOwnPropertyNames host (world st))).
Proof.
  destruct (fourth_loop messageId (getOwnPropertyNames host (world st)) st)
    as (called & T & S & N).
  exists called. split; [| done].
  change (fourth host messageId) with
    (try_catch
       (names <- gets (fun st => getOwnPropertyNames host (world st)) ;;
        for_of names (fourth_body host messageId))%stmt
       (fun e => log host (R := bool))).
  unfold try_catch. unfold bind at 1, gets at 1.
  destruct (for_of _ _ st) as [[a | r | e] s] eqn:E; simpl in *; done.
Qed.

(** X3: without a message-text element the fifth strategy does nothing.
    With one, it clicks the first element matching
    ['button, a, .btn, .TH-collapse-code-block-button'] inside it, in document
    order, whose trimmed text is not empty and holds, or is held by, one of the
    seven known phrases.  It clicks that one element only: it returns [true]
    if the click came back and falls through if it threw.  Where there is no
    such element it does nothing. *)
Theorem fifth_clicks_first_render_button el (st : @State World) :
  fifth host None st = (Normal tt, st) /\
  match List.find render_button (querySelectorAll (dom st) el button_selector) with
  | None => fifth host (Some el) st = (Normal tt, st)
  | Some btn =>
      exists ok,
        trace (fifth host (Some el) st).2 =
          trace st ++ [Attempt (ClickButton (node_id btn)) ok] /\
        (fifth host (Some el) st).1 = (if ok then Return true else Normal tt)
  end.
Proof.
  split; [done |].
  change (fifth host (Some el) st) with
    (try_catch (for_of (querySelectorAll (dom st) el button_selector) (fifth_body host))
       (fun e => log host) st).
  unfold try_catch. rewrite fifth_loop.
  destruct (List.find _ _) as [btn |]; [| done].
  unfold bind, attempt, return_.
  destruct (click host (node_id btn) (world st) (dom st)) as [[[u | e] w] d]; simpl;
    [by exists true | by exists false].
Qed.

(** X4: with a message-text element on which the dispatch of the custom
    event does not throw, [tryTriggerRerender] returns [true] and never gets
    past the third strategy: it calls no global function, clicks no button and
    inserts no marker. *)
Theorem custom_event_ends_the_cascade messageId el (st : @State World) :
  (forall w d, (dispatchEvent host el (Number messageId) w d).1.1 = Ok tt) ->
  exists evs,
    (tryTriggerRerender host messageId (Some el) st).1 = Ok true /\
    trace (tryTriggerRerender host messageId (Some el) st).2 =
      trace st ++ Entered messageId (Some el) :: evs /\
    Forall (attempt_in 1 3) evs.
Proof.
  intros Hdispatch. rewrite tryTriggerRerender_blocks.
  set (st0 := record (Entered messageId (Some el)) st).
  assert (H : exists evs,
             (blocks host messageId (Some el) st0).1 = Return true /\
             trace (blocks host messageId (Some el) st0).2 = trace st0 ++ evs /\
             Forall (attempt_in 1 3) evs).
  { remember (blocks host messageId (Some el) st0) as res eqn:Hres.
    unfold blocks, bind in Hres. unfold log, DEBUG, ret in Hres.
    destruct (cascade_primary host messageId st0) as (e1 & T1 & F1 & _).
    pose proof (completes_primary host messageId st0) as C1.
    destruct (primary host messageId st0) as [[[] | r | e] s1]; simpl in *; [| | done].
    2: { subst r res. exists e1. repeat split; try done.
         by apply (attempt_in_weaken 1 1); [lia | lia |]. }
    destruct (cascade_secondary host messageId s1) as (e2 & T2 & F2 & _).
    pose proof (completes_secondary host messageId s1) as C2.
    destruct (secondary host messageId s1) as [[[] | r | e] s2]; simpl in *; [| | done].
    2: { subst r res. exists (e1 ++ e2). split; [done |].
         split; [simpl; by rewrite T2, T1, app_assoc |].
         apply Forall_app. split;
           [by apply (attempt_in_weaken 1 1); [lia | lia |]
           | by apply (attempt_in_weaken 2 2); [lia | lia |]]. }
    unfold third, try_catch, bind, attempt in Hres.
    specialize (Hdispatch (world s2) (dom s2)).
    destruct (dispatchEvent host el (Number messageId) (world s2) (dom s2))
      as [[[[] | e] w] d]; simpl in *; [| done].
    subst res.
    exists (e1 ++ e2 ++ [Attempt (DispatchCustomEvent el (Number messageId)) true]).
    split; [done |]. split; [simpl; by rewrite T2, T1, <- !app_assoc |].
    apply Forall_app. split; [by apply (attempt_in_weaken 1 1); [lia | lia |] |].
    apply Forall_app. split; [by apply (attempt_in_weaken 2 2); [lia | lia |] |].
    constructor; [| constructor]. eexists _, true. split; [done | simpl; lia]. }
  destruct H as (evs & R & T & F). exists evs. unfold function.
  destruct (blocks host messageId (Some el) st0) as [c s']; simpl in *; subst c.
  split; [done |]. split; [| done]. simpl. rewrite T. by rewrite <- app_assoc.
Qed.

(** *** How many attempts a run makes *)

Ltac counted := repeat split; simpl; try done; try lia.

Lemma one_shot_quiet {A} (m : Stmt (@State World) bool A) :
  (forall st, trace (m st).2 = trace st) -> one_shot m.
Proof.
  intros H st. exists []. rewrite app_nil_r. counted.
Qed.

Lemma one_shot_bind {A B} (m : Stmt (@State World) bool A) (k : A -> Stmt (@State World) bool B) :
  one_shot m -> (forall a, one_shot (k a)) -> one_shot (bind m k).
Proof.
  intros Hm Hk st. destruct (Hm st) as (evs1 & T1 & L1 & N1). unfold bind.
  destruct (m st) as [[a | r | e] st1]; simpl in *.
  - rewrite (N1 a eq_refl), app_nil_r in T1.
    destruct (Hk a st1) as (evs2 & T2 & L2 & N2). exists evs2. rewrite T2, T1. counted.
  - exists evs1. counted.
  - exists evs1. counted.
Qed.

Lemma one_shot_for_of {X} (l : list X) (body : X -> Stmt (@State World) bool unit) :
  (forall x, one_shot (body x)) -> one_shot (for_of l body).
Proof.
  intros H. induction l as [|x l IH]; simpl.
  - by apply one_shot_quiet.
  - by apply one_shot_bind.
Qed.

Lemma one_shot_attempt {A} a f (rest : Stmt (@State World) bool A) :
  returns_true rest -> one_shot (attempt a f ;; rest)%stmt.
Proof.
  intros Hrest st. unfold bind, attempt.
  destruct (f (world st) (dom st)) as [[[u | e] w] d]; simpl.
  - destruct (Hrest (record (Attempt a true) (set_env w d st))) as [C T].
    destruct (rest _) as [c st']; simpl in *; subst c.
    exists [Attempt a true]. rewrite T. counted.
  - exists [Attempt a false]. counted.
Qed.

Lemma one_shot_emit {A} name n (rest : Stmt (@State World) bool A) :
  returns_true rest -> one_shot (emit host name n ;; rest)%stmt.
Proof.
  intros Hrest st.
  destruct (one_shot_attempt (Emit name n) (eventSource_emit host name n) rest Hrest st)
    as (evs & H).
  unfold emit, bind, gets, attempt_fails in *. simpl in *.
  destruct (window_eventSource host (world st));
    [exists [Attempt (Emit name n) false]; counted .. | by exists evs].
Qed.

Lemma one_shot_createMarker el : one_shot (createMarker host (R := bool) el).
Proof.
  intros st. unfold createMarker.
  destruct (document_createElement host (world st)) as [[u | e] w]; simpl.
  - exists []. rewrite app_nil_r. counted.
  - eexists [_]. counted.
Qed.

Lemma one_shot_appendMarker {A} el marker (rest : Stmt (@State World) bool A) :
  returns_true rest -> one_shot (appendMarker el marker ;; rest)%stmt.
Proof.
  intros Hrest st. unfold bind, appendMarker.
  destruct (appendChild el marker (dom st)) as [d | e]; simpl.
  - destruct (Hrest (record (Attempt (InsertMarker el (node_id marker)) true) (set_dom d st)))
      as [C T].
    destruct (rest _) as [c st']; simpl in *; subst c.
    eexists [_]. rewrite T. counted.
  - eexists [_]. counted.
Qed.

Lemma bounded_one_shot {A} (m : Stmt (@State World) bool A) : one_shot m -> bounded 1 m.
Proof. intros H st. destruct (H st) as (evs & T & L & _). by exists evs. Qed.

Lemma bounded_weaken {A} n n' (m : Stmt (@State World) bool A) :
  n <= n' -> bounded n m -> bounded n' m.
Proof. intros Hn H st. destruct (H st) as (evs & T & L). exists evs. split; [done | lia]. Qed.

Lemma bounded_one_shot_bind {A B} n (m : Stmt (@State World) bool A)
    (k : A -> Stmt (@State World) bool B) :
  1 <= n -> one_shot m -> (forall a, bounded n (k a)) -> bounded n (bind m k).
Proof.
  intros Hn Hm Hk st. destruct (Hm st) as (evs1 & T1 & L1 & N1). unfold bind.
  destruct (m st) as [[a | r | e] st1]; simpl in *.
  - rewrite (N1 a eq_refl), app_nil_r in T1.
    destruct (Hk a st1) as (evs2 & T2 & L2). exists evs2. rewrite T2, T1. counted.
  - exists evs1. split; [done | lia].
  - exists evs1. split; [done | lia].
Qed.

Lemma bounded_try_catch {A} n (body : Stmt (@State World) bool A)
    (h : Exn -> Stmt (@State World) bool A) :
  bounded n body -> (forall e st, trace (h e st).2 = trace st) ->
  bounded n (try_catch body h).
Proof.
  intros Hm Hh st. destruct (Hm st) as (evs & T & L). unfold try_catch.
  destruct (body st) as [[a | r | e] st1]; simpl in *; exists evs; [done | done |].
  by rewrite Hh.
Qed.

Lemma bounded_for_of {X} (l : list X) (body : X -> Stmt (@State World) bool unit) :
  (forall x, bounded 1 (body x)) -> bounded (length l) (for_of l body).
Proof.
  intros H. induction l as [|x l IH]; simpl.
  - intros st. exists []. rewrite app_nil_r. counted.
  - intros st. unfold bind. destruct (H x st) as (evs1 & T1 & L1).
    destruct (body x st) as [[a | r | e] st1]; simpl in *.
    + destruct (IH st1) as (evs2 & T2 & L2). exists (evs1 ++ evs2).
      rewrite T2, T1, app_assoc, length_app. split; [done | lia].
    + exists evs1. split; [done | lia].
    + exists evs1. split; [done | lia].
Qed.

Ltac one_shot_block :=
  repeat first
    [ apply one_shot_createMarker
    | apply one_shot_attempt; by intros ?
    | apply one_shot_emit; by intros ?
    | apply one_shot_appendMarker; by intros ?
    | apply one_shot_for_of; intros ?
    | apply one_shot_bind; [| intros ?]
    | match goal with
      | |- one_shot (match ?x with _ => _ end) => destruct x
      end
    | by apply one_shot_quiet ].

Lemma bounded_primary messageId : bounded 1 (primary host messageId).
Proof.
  unfold primary. apply bounded_try_catch; [| done].
  apply bounded_one_shot. one_shot_block.
Qed.

Lemma bounded_secondary messageId : bounded 6 (secondary host messageId).
Proof.
  unfold secondary. apply bounded_try_catch; [| done].
  apply bounded_one_shot_bind; [lia | by apply one_shot_quiet | intros es].
  assert (H : bounded (World := World) (A := unit) 6
    (et <- gets (fun st => window_event_types host (world st)) ;;
     match et with
     | ET_object v =>
         if truthy v then
           log host ;; emit host v (Number messageId) ;; return_ true
         else ret tt
     | _ => ret tt
     end ;;
     for_of ["MESSAGE_UPDATED"; "message_updated"; "messageUpdated";
             "MESSAGE:UPDATED"; "render_message"; "refresh_message"]
       (fun name =>
          try_catch
            (log host ;; emit host (JSStr name) (Number messageId) ;; return_ true)
            (fun e => ret tt)))%stmt).
  { apply bounded_one_shot_bind; [lia | by apply one_shot_quiet | intros et].
    apply bounded_one_shot_bind; [lia | one_shot_block | intros _].
    apply (bounded_for_of [_; _; _; _; _; _]). intros name.
    apply bounded_try_catch; [| done]. apply bounded_one_shot. one_shot_block. }
  destruct es; [| exact H | exact H].
  intros st. exists []. rewrite app_nil_r. counted.
Qed.

Lemma bounded_third messageId mesTextEl : bounded 1 (third host messageId mesTextEl).
Proof.
  unfold third. apply bounded_try_catch; [| done].
  apply bounded_one_shot. one_shot_block.
Qed.

Lemma bounded_fifth mesTextEl : bounded 1 (fifth host mesTextEl).
Proof.
  unfold fifth. apply bounded_try_catch; [| done].
  apply bounded_one_shot. one_shot_block.
Qed.

Lemma bounded_last_resort mesTextEl : bounded 1 (last_resort host mesTextEl).
Proof.
  unfold last_resort. apply bounded_try_catch; [| done].
  apply bounded_one_shot. one_shot_block.
Qed.

Lemma attempts_of_app k evs1 evs2 :
  attempts_of k (evs1 ++ evs2) = attempts_of k evs1 + attempts_of k evs2.
Proof. unfold attempts_of. by rewrite List.filter_app, length_app. Qed.

Lemma attempts_of_length k evs : attempts_of k evs <= length evs.
Proof.
  unfold attempts_of. induction evs as [|e evs IH]; simpl; [lia |].
  destruct (Nat.eqb (rank e) k); simpl; lia.
Qed.

Lemma attempts_of_other k j evs :
  j <> k -> Forall (attempt_in k k) evs -> attempts_of j evs = 0.
Proof.
  intros Hj H. unfold attempts_of. induction H as [|e evs (a & ok & -> & Ha) _ IH]; [done |].
  simpl. replace (Nat.eqb (strategy a) j) with false; [exact IH |].
  symmetry. apply Nat.eqb_neq. lia.
Qed.

Lemma within_block {A} k n (m : Stmt (@State World) bool A) :
  cascade k k m -> bounded n m -> within (only k n) m.
Proof.
  intros Hc Hb st. destruct (Hc st) as (evs & T & F & _). destruct (Hb st) as (evs' & T' & L).
  rewrite T in T'. apply app_inv_head in T'. subst evs'.
  exists evs. split; [done |]. intros j _. unfold only.
  destruct (Nat.eqb_spec j k) as [-> | Hj].
  - pose proof (attempts_of_length k evs). lia.
  - by rewrite (attempts_of_other k j).
Qed.

Lemma within_fourth messageId : within (fun _ => 0) (fourth host messageId).
Proof.
  intros st. destruct (cascade_fourth host messageId st) as (evs & T & F & _).
  exists evs. split; [done |]. intros j Hj. by rewrite (attempts_of_other 4 j).
Qed.

Lemma within_quiet {A} (m : Stmt (@State World) bool A) :
  (forall st, trace (m st).2 = trace st) -> within (fun _ => 0) m.
Proof. intros H st. exists []. rewrite app_nil_r. by split. Qed.

Lemma within_bind {A B} l1 l2 (m : Stmt (@State World) bool A)
    (k : A -> Stmt (@State World) bool B) :
  within l1 m -> (forall a, within l2 (k a)) -> within (fun j => l1 j + l2 j) (bind m k).
Proof.
  intros Hm Hk st. destruct (Hm st) as (evs1 & T1 & L1). unfold bind.
  destruct (m st) as [[a | r | e] st1]; simpl in *.
  - destruct (Hk a st1) as (evs2 & T2 & L2). exists (evs1 ++ evs2).
    split; [by rewrite T2, T1, app_assoc |].
    intros j Hj. rewrite attempts_of_app. specialize (L1 j Hj). specialize (L2 j Hj). lia.
  - exists evs1. split; [done |]. intros j Hj. specialize (L1 j Hj). lia.
  - exists evs1. split; [done |]. intros j Hj. specialize (L1 j Hj). lia.
Qed.

(** X5: one call of [tryTriggerRerender] makes at most one call of
    [refreshOneMessage], at most six [emit]s, at most one dispatch of the
    custom event, at most one click and at most one marker insertion. *)
Theorem tryTriggerRerender_attempts_bounded messageId mesTextEl (st : @State World) :
  exists evs,
    trace (tryTriggerRerender host messageId mesTextEl st).2 =
      trace st ++ Entered messageId mesTextEl :: evs /\
    attempts_of 1 evs <= 1 /\
    attempts_of 2 evs <= 6 /\
    attempts_of 3 evs <= 1 /\
    attempts_of 5 evs <= 1 /\
    attempts_of 6 evs <= 1.
Proof.
  assert (H : exists limits,
             within limits (blocks host messageId mesTextEl) /\
             limits 1 <= 1 /\ limits 2 <= 6 /\ limits 3 <= 1 /\ limits 5 <= 1 /\ limits 6 <= 1).
  { eexists. split.
    - unfold blocks.
      eapply within_bind; [by apply within_quiet | intros _].
      eapply within_bind;
        [apply within_block; [apply cascade_primary | apply bounded_primary] | intros _].
      eapply within_bind;
        [apply within_block; [apply cascade_secondary | apply bounded_secondary] | intros _].
      eapply within_bind;
        [apply within_block; [apply cascade_third | apply bounded_third] | intros _].
      eapply within_bind; [apply within_fourth | intros _].
      eapply within_bind;
        [apply within_block; [apply cascade_fifth | apply bounded_fifth] | intros _].
      eapply within_bind;
        [apply within_block; [apply cascade_last_resort | apply bounded_last_resort] | intros _].
      eapply within_bind; [by apply within_quiet | intros _]. by apply within_quiet.
    - cbv [only Nat.eqb]. repeat split; simpl; lia. }
  destruct H as (limits & H & L1 & L2 & L3 & L5 & L6).
  rewrite tryTriggerRerender_blocks.
  destruct (H (record (Entered messageId mesTextEl) st)) as (evs & T & L).
  exists evs. split.
  - unfold function. destruct (blocks _ _ _ _) as [[a | r | e] s']; simpl in *;
      rewrite T; by rewrite <- app_assoc.
  - pose proof (L 1). pose proof (L 2). pose proof (L 3). pose proof (L 5). pose proof (L 6).
    repeat split; lia.
Qed.

End StrategyFacts.

Lemma secondary_known_type_only_witness :
  exists ok,
    Userscript.trace
      (Userscript.secondary hostile_host (Some "7") (Userscript.initial tt page)).2 =
      [] ++ [Userscript.Attempt
               (Userscript.Emit (JSStr "message_updated") (Number (Some "7"))) ok] /\
    (Userscript.secondary hostile_host (Some "7") (Userscript.initial tt page)).1 =
      (if ok then Return true else Normal tt).
Proof.
  apply (secondary_known_type_only hostile_host (Some "7") (JSStr "message_updated")
           (Userscript.initial tt page)).
  - discriminate.
  - reflexivity.
  - reflexivity.
Defined.

Lemma custom_event_ends_the_cascade_witness :
  exists evs,
    (Userscript.tryTriggerRerender bare_host (Some "7") (Some 3%N) (Userscript.initial tt page)).1
      = Ok true /\
    Userscript.trace
      (Userscript.tryTriggerRerender bare_host (Some "7") (Some 3%N)
         (Userscript.initial tt page)).2 =
      [] ++ Userscript.Entered (Some "7") (Some 3%N) :: evs /\
    Forall (attempt_in 1 3) evs.
Proof.
  apply (custom_event_ends_the_cascade bare_host (Some "7") 3%N (Userscript.initial tt page)).
  intros w d. reflexivity.
Defined.

(** ** The observers of the userscript, at any time *)

Section SettledFacts.
Import Dom Userscript.
Context {World : Type} (host : Host World).

Lemma sites_same (st st' : @State World) : observers st' = observers st -> sites st' = sites st.
Proof. unfold sites. by intros ->. Qed.

Lemma sites_set_timer k v (st : @State World) : sites (set_timer k v st) = sites st.
Proof.
  unfold sites, set_timer. simpl. generalize (observers st). intros l. revert k.
  induction l as [|o l IH]; intros [|k]; try done.
  cbn [alter list_alter map]. f_equal. apply IH.
Qed.

Lemma sites_tryTriggerRerender messageId mesTextEl (st : @State World) :
  sites (tryTriggerRerender host messageId mesTextEl st).2 = sites st /\
  observed (tryTriggerRerender host messageId mesTextEl st).2 = observed st.
Proof.
  destruct (tryTriggerRerender_keeps host messageId mesTextEl st) as (O & S & _).
  split; [by apply sites_same | done].
Qed.

Lemma sites_evaluate k (st : @State World) :
  sites (evaluate host k st).2 = sites st /\ observed (evaluate host k st).2 = observed st.
Proof.
  assert (He : sites (evaluating k st) = sites st /\ observed (evaluating k st) = observed st).
  { split; [| done]. unfold evaluating.
    rewrite (sites_same (set_timer k None st)) by done. apply sites_set_timer. }
  destruct (observers st !! k) as [o |] eqn:Hk.
  - rewrite (evaluate_unfold host k o st Hk).
    destruct (existsb _ _); [| done].
    destruct (sites_tryTriggerRerender (messageId_of o) (Some (mesTextEl_of o))
                (evaluating k st)) as [S O].
    destruct He as [He1 He2]. rewrite He1 in S. rewrite He2 in O.
    by destruct (tryTriggerRerender host _ _ (evaluating k st)) as [[[|] | e] s].
  - cbv beta iota delta [evaluate function bind gets modify call].
    change (record (Evaluated k) (set_timer k None st)) with (evaluating k st).
    assert (Hnone : observers (evaluating k st) !! k = None).
    { unfold evaluating, set_timer. simpl. by rewrite list_lookup_alter_eq, Hk. }
    by rewrite Hnone.
Qed.

Lemma sites_onMutations k records (st : @State World) :
  sites (onMutations k records st).2 = sites st /\
  observed (onMutations k records st).2 = observed st.
Proof.
  destruct (significant records) eqn:Hsig.
  - rewrite onMutations_significant by done. simpl. split; [| done].
    by rewrite sites_set_timer.
  - by rewrite onMutations_insignificant.
Qed.

Lemma sites_fire i (st : @State World) r :
  fire host i st = Some r -> sites r.2 = sites st /\ observed r.2 = observed st.
Proof.
  unfold fire. destruct (Timers.take _ _ _) as [[t tb] |]; [| done].
  intros [= <-]. destruct t as [k | messageId mesTextEl | marker]; simpl.
  - apply (sites_evaluate k (set_timers tb st)).
  - unfold function, bind, call.
    destruct (sites_tryTriggerRerender messageId mesTextEl (set_timers tb st)) as [S O].
    by destruct (tryTriggerRerender host _ _ _) as [[b | e] s].
  - done.
Qed.

(** A step of the userscript is a call of [observeMesText], or leaves the
    observers where they are. *)
Lemma step_sites (st st' : @State World) :
  step host st st' ->
  (exists el, st' = (observeMesText host el st).2) \/
  (sites st' = sites st /\ observed st' = observed st).
Proof.
  intros [mesTextEl s | k changes s | i s r Hfire | gap s | w d s].
  - left. by exists mesTextEl.
  - right. unfold notify. destruct (observers s !! k); [| done].
    destruct (queued _ _ _ _); [done |]. apply sites_onMutations.
  - right. by apply (sites_fire i).
  - by right.
  - by right.
Qed.

Lemma settled_observeMesText mesTextEl (st : @State World) :
  settled st -> settled (observeMesText host mesTextEl st).2.
Proof.
  intros (Hnd & Hobs & Hopt). destruct mesTextEl as [el |]; [| done].
  destruct (decide (el ∈ observed st)) as [H | H].
  - by rewrite userscript_observeMesText_seen.
  - rewrite userscript_observeMesText_new by done. unfold settled, sites.
    destruct (closest _ _ _); cbn [snd observers observed set_observers set_observed].
    + rewrite !map_app. cbn [map site userscript_observer mesTextEl_of options fst snd].
      split; [| split].
      * apply NoDup_app. split; [done |]. split; [| apply NoDup_singleton].
        intros x Hx [-> | []%elem_of_nil]%elem_of_cons.
        apply list_elem_of_fmap in Hx as (s & -> & Hs). apply H. by apply Hobs.
      * intros s [Hs | ->%list_elem_of_singleton]%elem_of_app; simpl; [| set_solver].
        apply elem_of_union_r. by apply Hobs.
      * apply Forall_app. split; [done |]. by constructor.
    + split; [done |]. split; [| done]. intros s Hs. apply elem_of_union_r. by apply Hobs.
Qed.

Lemma settled_step (st st' : @State World) : step host st st' -> settled st -> settled st'.
Proof.
  intros Hstep H. destruct (step_sites st st' Hstep) as [[el ->] | [S O]].
  - by apply settled_observeMesText.
  - unfold settled. by rewrite S, O.
Qed.

Lemma settled_initial (w : World) d : settled (initial w d).
Proof. split; [constructor |]. split; [by intros s Hs%elem_of_nil | constructor]. Qed.

Lemma reachable_settled (st : @State World) : reachable host st -> settled st.
Proof.
  intros (w & d & Hrtc). revert st Hrtc. apply rtc_ind_r; [apply settled_initial |].
  intros y z _ Hstep IH. by apply (settled_step y).
Qed.

(** Once an element is in [state.observed], the observers on it stay what
    they are. *)
Lemma observed_step el (st st' : @State World) :
  step host st st' -> el ∈ observed st ->
  el ∈ observed st' /\ sites_on el st' = sites_on el st.
Proof.
  intros Hstep Hel. destruct (step_sites st st' Hstep) as [[[el' |] ->] | [S O]].
  - destruct (decide (el' ∈ observed st)) as [H | H].
    + by rewrite userscript_observeMesText_seen.
    + rewrite userscript_observeMesText_new by done.
      assert (Hne : N.eqb el' el = false).
      { apply N.eqb_neq. by intros ->. }
      unfold sites_on, sites.
      destruct (closest _ _ _); cbn [snd observers observed set_observers set_observed].
      * split; [set_solver |]. rewrite map_app, List.filter_app. simpl.
        rewrite Hne. by rewrite app_nil_r.
      * split; [set_solver | done].
  - done.
  - unfold sites_on. by rewrite S, O.
Qed.

Lemma sites_on_nil el (st : @State World) :
  sites_on el st = [] <-> forall o, o ∈ observers st -> mesTextEl_of o <> el.
Proof.
  unfold sites_on, sites. induction (observers st) as [|o l IH]; simpl.
  - split; [by intros _ o Ho%elem_of_nil | done].
  - change (site o).1.1 with (mesTextEl_of o).
    destruct (N.eqb_spec (mesTextEl_of o) el) as [He | He].
    + split; [done |]. intros H. exfalso. apply (H o); [by left | done].
    + rewrite IH. split.
      * intros H o' [-> | Ho']%elem_of_cons; [done | by apply H].
      * intros H o' Ho'. apply H. by right.
Qed.

(** X6: [observeMesText] puts an element into [state.observed] before it
    looks for the message around it.  So an element that has no [.mes] around
    it when it is first passed gets no observer then and none later, whatever
    happens afterwards: it stays in [state.observed], and no observer is ever
    made for it. *)
Theorem observed_outside_a_message_is_never_observed el (st st' : @State World) :
  reachable host st ->
  el ∉ observed st ->
  closest (dom st) el MESSAGE_SELECTOR = None ->
  rtc (step host) (observeMesText host (Some el) st).2 st' ->
  el ∈ observed st' /\ forall o, o ∈ observers st' -> mesTextEl_of o <> el.
Proof.
  intros Hreach Hnew Hout Hrtc.
  destruct (reachable_settled st Hreach) as (_ & Hobs & _).
  rewrite <- sites_on_nil. revert st' Hrtc. apply rtc_ind_r.
  - rewrite userscript_observeMesText_new by done. rewrite Hout. simpl.
    split; [set_solver |]. apply sites_on_nil. simpl. intros o Ho He.
    apply Hnew. rewrite <- He. apply (Hobs (site o)). unfold sites. by apply list_elem_of_fmap_2.
  - intros y z _ Hstep [IH1 IH2].
    destruct (observed_step el y z Hstep IH1) as [H1 H2]. by rewrite H2.
Qed.

Lemma entries_app tr1 tr2 : entries (tr1 ++ tr2) = entries tr1 + entries tr2.
Proof. unfold entries. by rewrite List.filter_app, length_app. Qed.

Lemma entries_attempts evs : Forall (attempt_in 1 6) evs -> entries evs = 0.
Proof.
  intros H. unfold entries. induction H as [|e evs (a & ok & -> & _) _ IH]; [done | exact IH].
Qed.

(** X7: the debounced evaluation of an observer calls
    [tryTriggerRerender] once, with the message id and the element of the
    observer, when a front-end [pre] block of the message is not pre-rendered,
    and does not call it otherwise. *)
Theorem evaluate_calls_once_when_unrendered k o (st : @State World) :
  observers st !! k = Some o ->
  let pres := querySelectorAll (dom st) (mesTextEl_of o) (has_tag "pre") in
  entries (trace (evaluate host k st).2) =
    entries (trace st) + (if existsb (unrendered (dom st)) pres then 1 else 0) /\
  (existsb (unrendered (dom st)) pres = true ->
   Entered (messageId_of o) (Some (mesTextEl_of o)) ∈ trace (evaluate host k st).2).
Proof.
  intros Hk pres. subst pres. rewrite (evaluate_unfold host k o st Hk).
  assert (He : entries (trace (evaluating k st)) = entries (trace st)).
  { unfold evaluating. simpl. rewrite entries_app.
    change (entries [Evaluated k]) with 0. lia. }
  destruct (existsb _ _); [| split; [cbn [snd]; rewrite He; lia | done]].
  destruct (tryTriggerRerender_spec host (messageId_of o) (Some (mesTextEl_of o))
              (evaluating k st)) as (b & evs & R & T & F & _).
  assert (Hn : entries (trace (tryTriggerRerender host (messageId_of o) (Some (mesTextEl_of o))
                                 (evaluating k st)).2) = entries (trace st) + 1).
  { rewrite T, entries_app, He. change (Entered ?a ?b :: evs) with ([Entered a b] ++ evs).
    rewrite entries_app, (entries_attempts evs F).
    change (entries [Entered (messageId_of o) (Some (mesTextEl_of o))]) with 1. lia. }
  destruct (tryTriggerRerender host _ _ (evaluating k st)) as [[[|] | e] s]; simpl in *;
    try done; (split; [done |]); intros _; rewrite T; apply elem_of_app; right; by left.
Qed.

(** X8: the marker of the last resort wakes the userscript's own observer.
    In any state the script reaches, the record of the insertion of the marker
    under an observed element, and the record of its removal, reach the
    observer of that element and start the debounce timer of its evaluation
    afresh: one evaluation is pending, due [DEBOUNCE_MS] later. *)
Theorem marker_wakes_the_observer k o marker r (st : @State World) :
  reachable host st ->
  observers st !! k = Some o ->
  r = marker_inserted (mesTextEl_of o) marker \/ r = marker_removed (mesTextEl_of o) marker ->
  pending_evaluations k (notify k [r] st).2 =
    [{| Timers.timer_id := Timers.next_id (timers st);
        Timers.due := (now st + DEBOUNCE_MS)%N;
        Timers.task := DebouncedEvaluation k |}].
Proof.
  intros Hreach Hk Hr.
  destruct (reachable_settled st Hreach) as (_ & _ & Hopt).
  assert (Ho : options o = observer_options).
  { rewrite Forall_forall in Hopt. apply (Hopt (site o)).
    unfold sites. apply list_elem_of_fmap_2. by apply list_elem_of_lookup_2 in Hk. }
  assert (Hq : queued (dom st) (mesTextEl_of o) (options o) [r] = [r]).
  { rewrite Ho. unfold queued, in_scope. destruct Hr as [-> | ->]; simpl;
      by rewrite N.eqb_refl. }
  assert (Hs : significant [r] = true) by (by destruct Hr as [-> | ->]).
  unfold notify. rewrite Hk, Hq.
  by destruct (onMutations_reschedules k o [r] st (reachable_debounce_inv host st k Hreach)
                 Hk Hs) as [P _].
Qed.

Lemma reachable_coherent (st : @State World) : reachable host st -> coherent st.
Proof.
  intros (w & d & Hrtc). revert st Hrtc. apply rtc_ind_r; [apply coherent_initial |].
  intros y z _ Hstep IH. by apply (coherent_step host y).
Qed.

(** X9: in any state the userscript reaches, the callback of an observer
    cancels nothing but the pending evaluation of that observer: any other
    pending timer (the evaluation of another message, a re-attempt, the removal
    of a marker) is still pending when the callback has run. *)
Theorem onMutations_cancels_its_own_evaluation_only k records t (st : @State World) :
  reachable host st ->
  t ∈ Timers.pending (timers st) ->
  is_evaluation k (Timers.task t) = false ->
  t ∈ Timers.pending (timers (onMutations k records st).2).
Proof.
  intros Hreach Ht Hev. pose proof (reachable_coherent st Hreach) as Hco.
  destruct (significant records) eqn:Hsig; [| by rewrite onMutations_insignificant].
  rewrite onMutations_significant by done. simpl.
  apply elem_of_app. left. unfold cleared.
  destruct (timer_of k st) as [i |] eqn:Hi; [| done]. simpl.
  apply list_elem_of_In, filter_In. split; [by apply list_elem_of_In |].
  apply negb_true_iff, Pos.eqb_neq. intros <-.
  by rewrite (coherent_binding st Hco k t Hi Ht) in Hev.
Qed.

End SettledFacts.

Lemma observed_outside_a_message_is_never_observed_witness :
  1%N ∈ Userscript.observed
          (Userscript.observeMesText bare_host (Some 1%N) (Userscript.initial tt page)).2.
Proof.
  apply (observed_outside_a_message_is_never_observed bare_host 1%N
           (Userscript.initial tt page)).
  - exists tt, page. apply rtc_refl.
  - simpl. apply not_elem_of_empty.
  - reflexivity.
  - apply rtc_refl.
Defined.

Lemma evaluate_calls_once_when_unrendered_witness :
  entries (Userscript.trace (Userscript.evaluate bare_host 0 observed_page).2) = 1.
Proof.
  apply (proj1 (evaluate_calls_once_when_unrendered bare_host 0
                  (userscript_observer 3%N page_mes) observed_page eq_refl)).
Defined.

Lemma marker_wakes_the_observer_witness :
  pending_evaluations 0
    (Userscript.notify 0 [marker_inserted 3%N 12%N] observed_page).2 =
  [{| Timers.timer_id := 1%positive; Timers.due := 120%N;
      Timers.task := Userscript.DebouncedEvaluation 0 |}].
Proof.
  apply (marker_wakes_the_observer bare_host 0 (userscript_observer 3%N page_mes) 12%N
           (marker_inserted 3%N 12%N) observed_page).
  - exists tt, page. apply rtc_once. apply (step_observe bare_host (Some 3%N)).
  - reflexivity.
  - left. reflexivity.
Defined.

Lemma onMutations_cancels_its_own_evaluation_only_witness :
  {| Timers.timer_id := 1%positive; Timers.due := 120%N;
     Timers.task := Userscript.DebouncedEvaluation 0 |}
  ∈ Timers.pending
      (Userscript.timers
         (Userscript.onMutations 1
            [{| Dom.type := Dom.characterData; Dom.target := 15%N;
                Dom.addedNodes := []; Dom.removedNodes := [] |}]
            first_changed).2).
Proof.
  apply (onMutations_cancels_its_own_evaluation_only bare_host).
  - exists tt, two_messages.
    eapply rtc_l; [apply (step_observe bare_host (Some 3%N)) |].
    eapply rtc_l; [apply (step_observe bare_host (Some 13%N)) |].
    apply rtc_once. apply (step_notify bare_host 0 nodes_added).
  - vm_compute. left.
  - reflexivity.
Defined.

(** ** The start of the userscript *)

Section StartFacts.
Import Dom.
Context {World : Type} (host : Host World) (bus : EventBus World).

Lemma by_steps_keep {X} (m : @UserscriptSetup.State World -> X * @UserscriptSetup.State World) :
  (forall st, UserscriptSetup.script (m st).2 = UserscriptSetup.script st) -> by_steps host m.
Proof. intros H st. by rewrite H. Qed.

Lemma by_steps_bind {R A B} (m : Stmt (@UserscriptSetup.State World) R A)
    (k : A -> Stmt (@UserscriptSetup.State World) R B) :
  by_steps host m -> (forall a, by_steps host (k a)) -> by_steps host (bind m k).
Proof.
  intros Hm Hk st. specialize (Hm st). unfold bind.
  destruct (m st) as [[a | r | e] st1]; simpl in *; try done.
  etrans; [exact Hm | apply Hk].
Qed.

Lemma by_steps_try_catch {R A} (body : Stmt (@UserscriptSetup.State World) R A)
    (h : Exn -> Stmt (@UserscriptSetup.State World) R A) :
  by_steps host body -> (forall e, by_steps host (h e)) -> by_steps host (try_catch body h).
Proof.
  intros Hm Hk st. specialize (Hm st). unfold try_catch.
  destruct (body st) as [[a | r | e] st1]; simpl in *; try done.
  etrans; [exact Hm | apply Hk].
Qed.

Lemma by_steps_for_of {R X} (l : list X) (body : X -> Stmt (@UserscriptSetup.State World) R unit) :
  (forall x, by_steps host (body x)) -> by_steps host (for_of l body).
Proof.
  intros H. induction l as [|x l IH]; simpl.
  - by apply by_steps_keep.
  - by apply by_steps_bind.
Qed.

Lemma by_steps_function {R} (u : R) (body : Stmt (@UserscriptSetup.State World) R unit) :
  by_steps host body -> by_steps host (function u body).
Proof.
  intros H st. specialize (H st). unfold function.
  by destruct (body st) as [[a | r | e] st1].
Qed.

Lemma by_steps_observe {R} el :
  by_steps host
    (UserscriptSetup.lift (call (R := R) (Userscript.observeMesText host el))).
Proof.
  intros st. unfold UserscriptSetup.lift, call. simpl.
  destruct (Userscript.observeMesText host el (UserscriptSetup.script st)) as [[[] | e] s] eqn:E;
    simpl; apply rtc_once;
    replace s with (Userscript.observeMesText host el (UserscriptSetup.script st)).2
      by (by rewrite E); apply step_observe.
Qed.

Lemma by_steps_host_call {R} f :
  by_steps host (UserscriptSetup.lift (Userscript.host_call (R := R) f)).
Proof.
  intros st. unfold UserscriptSetup.lift, Userscript.host_call. simpl.
  destruct (f _ _) as [[[u | e] w] d]; simpl; apply rtc_once, step_page.
Qed.

Ltac by_steps_block :=
  repeat first
    [ apply by_steps_function
    | apply by_steps_observe
    | apply by_steps_host_call
    | apply by_steps_try_catch; [| intros ?]
    | apply by_steps_for_of; intros ?
    | apply by_steps_bind; [| intros ?]
    | match goal with
      | |- by_steps _ (match ?x with _ => _ end) => destruct x
      | |- by_steps _ (if ?x then _ else _) => destruct x
      end
    | by apply by_steps_keep ].

Lemma by_steps_setup : by_steps host (UserscriptSetup.setup host bus).
Proof.
  unfold UserscriptSetup.setup, UserscriptSetup.observe_each, UserscriptSetup.listen.
  by_steps_block.
Qed.

Lemma by_steps_onChatMutations mutations :
  by_steps host (UserscriptSetup.onChatMutations host mutations).
Proof. unfold UserscriptSetup.onChatMutations. by_steps_block. Qed.

Lemma by_steps_rescan : by_steps host (UserscriptSetup.rescan host).
Proof. unfold UserscriptSetup.rescan, UserscriptSetup.observe_each. by_steps_block. Qed.

Lemma by_steps_onChatLoaded : by_steps host (UserscriptSetup.onChatLoaded host).
Proof. unfold UserscriptSetup.onChatLoaded. by_steps_block. Qed.

Lemma us_step_by_steps (st st' : @UserscriptSetup.State World) :
  us_step host bus st st' ->
  rtc (step host) (UserscriptSetup.script st) (UserscriptSetup.script st').
Proof.
  intros [s r Hr | s s' Hs | changes s | s _ | j s r Hr].
  - unfold UserscriptSetup.onDOMContentLoaded in Hr.
    destruct (UserscriptSetup.listening s); [| done]. injection Hr as <-.
    apply (by_steps_setup (UserscriptSetup.set_listening false s)).
  - by apply rtc_once.
  - unfold UserscriptSetup.notify_chat.
    destruct (UserscriptSetup.chatObserver s) as [[el o] |]; [| done].
    destruct (queued _ _ _ _); [done |]. apply by_steps_onChatMutations.
  - apply by_steps_onChatLoaded.
  - unfold UserscriptSetup.fire_rescan in Hr.
    destruct (UserscriptSetup.rescans s !! j); [| done].
    destruct (_ <=? _)%N; [| done]. injection Hr as <-.
    apply (by_steps_rescan (UserscriptSetup.set_rescans _ s)).
Qed.

Lemma us_started_reachable (st : @UserscriptSetup.State World) :
  us_started host bus st -> reachable host (UserscriptSetup.script st).
Proof.
  intros (readyState & w & d & Hrtc). exists w, d.
  assert (H0 : rtc (step host) (Userscript.initial w d)
                 (UserscriptSetup.script
                    (UserscriptSetup.start host bus readyState (UserscriptSetup.initial w d)).2)).
  { destruct readyState; [done | |]; apply (by_steps_setup (UserscriptSetup.initial w d)). }
  revert st Hrtc. apply rtc_ind_r; [exact H0 |].
  intros y z _ Hstep IH. etrans; [exact IH | by apply us_step_by_steps].
Qed.

(** X10: whatever happens once the userscript is loaded ([setup] at once
    or on [DOMContentLoaded], the callback of the chat observer, re-scans after
    [chatLoaded], the callbacks of the observers, timers, changes of the page),
    no element has two observers, every observer sits on an element of
    [state.observed], and every observer is registered with [childList],
    [subtree] and [characterData] and without [attributes]. *)
Theorem userscript_observes_each_element_once (st : @UserscriptSetup.State World) :
  us_started host bus st ->
  NoDup (map Userscript.mesTextEl_of (Userscript.observers (UserscriptSetup.script st))) /\
  forall o, o ∈ Userscript.observers (UserscriptSetup.script st) ->
    Userscript.mesTextEl_of o ∈ Userscript.observed (UserscriptSetup.script st) /\
    Userscript.options o = Userscript.observer_options.
Proof.
  intros H%us_started_reachable. destruct (reachable_settled host _ H) as (Hnd & Hobs & Hopt).
  split.
  - unfold sites in Hnd. by rewrite map_map in Hnd.
  - intros o Ho.
    assert (Hs : site o ∈ sites (UserscriptSetup.script st)).
    { unfold sites. by apply list_elem_of_fmap_2. }
    split; [by apply (Hobs (site o)) |].
    rewrite Forall_forall in Hopt. by apply (Hopt (site o)).
Qed.

(** *** The calls of [observeMesText] *)

Lemma observeMesText_returns el (st : @Userscript.State World) :
  (Userscript.observeMesText host el st).1 = Ok tt.
Proof.
  destruct el as [el |]; [| done].
  destruct (decide (el ∈ Userscript.observed st)) as [H | H].
  - by rewrite userscript_observeMesText_seen.
  - by rewrite userscript_observeMesText_new.
Qed.

Lemma observeMesText_frame el (st : @Userscript.State World) :
  Userscript.world (Userscript.observeMesText host el st).2 = Userscript.world st /\
  Userscript.dom (Userscript.observeMesText host el st).2 = Userscript.dom st /\
  Userscript.observed st ⊆ Userscript.observed (Userscript.observeMesText host el st).2.
Proof.
  destruct el as [el |]; [| done].
  destruct (decide (el ∈ Userscript.observed st)) as [H | H].
  - by rewrite userscript_observeMesText_seen.
  - rewrite userscript_observeMesText_new by done.
    destruct (closest _ _ _); simpl; repeat split; set_solver.
Qed.

Lemma observe_all_frame calls (st : @Userscript.State World) :
  Userscript.world (userscript_observe_all host calls st) = Userscript.world st /\
  Userscript.dom (userscript_observe_all host calls st) = Userscript.dom st /\
  Userscript.observed st ⊆ Userscript.observed (userscript_observe_all host calls st).
Proof.
  revert st. induction calls as [|el calls IH]; intros st; simpl; [done |].
  destruct (IH (Userscript.observeMesText host el st).2) as (W & D & O).
  destruct (observeMesText_frame el st) as (W' & D' & O').
  rewrite W, D, W', D'. repeat split. by etrans.
Qed.

(** Every element a run of calls was made on is in [state.observed]
    afterwards. *)
Lemma observe_all_marks calls el (st : @Userscript.State World) :
  Some el ∈ calls -> el ∈ Userscript.observed (userscript_observe_all host calls st).
Proof.
  revert st. induction calls as [|c calls IH]; intros st; [by intros H%elem_of_nil |].
  intros [<- | H]%elem_of_cons; simpl; [| by apply IH].
  apply (observe_all_frame calls). apply userscript_observeMesText_marks.
Qed.

(** A run of calls on observed elements changes nothing. *)
Lemma observe_all_seen calls (st : @Userscript.State World) :
  (forall el, Some el ∈ calls -> el ∈ Userscript.observed st) ->
  userscript_observe_all host calls st = st.
Proof.
  induction calls as [|[el |] calls IH]; intros H; simpl; [done | |].
  - rewrite userscript_observeMesText_seen by (apply H; by left).
    apply IH. intros el' Hel'. apply H. by right.
  - apply IH. intros el' Hel'. apply H. by right.
Qed.

Lemma observe_all_idempotent calls (st : @Userscript.State World) :
  userscript_observe_all host calls (userscript_observe_all host calls st) =
  userscript_observe_all host calls st.
Proof. apply observe_all_seen. intros el Hel. by apply observe_all_marks. Qed.

Lemma lift_observe {R} el (st : @UserscriptSetup.State World) :
  UserscriptSetup.lift (call (R := R) (Userscript.observeMesText host el)) st =
  (Normal tt,
   UserscriptSetup.set_script (Userscript.observeMesText host el (UserscriptSetup.script st)).2 st).
Proof.
  unfold UserscriptSetup.lift, call.
  pose proof (observeMesText_returns el (UserscriptSetup.script st)) as Hr.
  destruct (Userscript.observeMesText host el (UserscriptSetup.script st)) as [r s].
  simpl in Hr. by subst r.
Qed.

Lemma observe_each_run {R} els (st : @UserscriptSetup.State World) :
  UserscriptSetup.observe_each host (R := R) els st =
  (Normal tt,
   UserscriptSetup.set_script
     (userscript_observe_all host (calls_on els) (UserscriptSetup.script st)) st).
Proof.
  unfold UserscriptSetup.observe_each. revert st.
  induction els as [|el els IH]; intros st; [by destruct st |].
  cbn [for_of calls_on map userscript_observe_all]. unfold bind.
  rewrite lift_observe, IH. done.
Qed.

Lemma rescan_run (st : @UserscriptSetup.State World) :
  UserscriptSetup.rescan host st =
  match UserscriptSetup.chatEl st with
  | Some chat =>
      (Ok tt,
       UserscriptSetup.set_script
         (userscript_observe_all host
            (calls_on (UserscriptSetup.message_texts
                         (Userscript.dom (UserscriptSetup.script st)) chat))
            (UserscriptSetup.script st)) st)
  | None => (Raise TypeError, st)
  end.
Proof.
  unfold UserscriptSetup.rescan, function, bind, gets.
  destruct (UserscriptSetup.chatEl st); [| done]. by rewrite observe_each_run.
Qed.

(** X11: a re-scan that follows a re-scan finds every message-text element
    observed and changes nothing; it ends as the first one did. *)
Theorem rescan_idempotent (st : @UserscriptSetup.State World) :
  UserscriptSetup.rescan host (UserscriptSetup.rescan host st).2 = UserscriptSetup.rescan host st.
Proof.
  rewrite (rescan_run st).
  destruct (UserscriptSetup.chatEl st) as [chat |] eqn:Hchat; cbn [snd].
  - rewrite rescan_run. cbn [UserscriptSetup.chatEl UserscriptSetup.set_script
                             UserscriptSetup.script].
    rewrite Hchat.
    destruct (observe_all_frame
                (calls_on (UserscriptSetup.message_texts
                             (Userscript.dom (UserscriptSetup.script st)) chat))
                (UserscriptSetup.script st)) as (_ & D & _).
    by rewrite D, observe_all_idempotent.
  - by rewrite rescan_run, Hchat.
Qed.

(** [setup], case by case. *)
Lemma setup_run (st : @UserscriptSetup.State World) :
  UserscriptSetup.setup host bus st =
  match UserscriptSetup.chat_container (Userscript.dom (UserscriptSetup.script st)) with
  | None => (Raise TypeError, st)
  | Some chat =>
      let s1 :=
        userscript_observe_all host
          (calls_on (UserscriptSetup.message_texts
                       (Userscript.dom (UserscriptSetup.script st)) (node_id chat)))
          (UserscriptSetup.script st) in
      let st1 :=
        UserscriptSetup.set_chatObserver (Some (node_id chat, UserscriptSetup.chat_options))
          (UserscriptSetup.set_script s1
             (UserscriptSetup.set_chatEl (Some (node_id chat)) st)) in
      match window_eventSource host (Userscript.world s1) with
      | ES_undefined => (Ok tt, st1)
      | ES_null => (Raise TypeError, st1)
      | ES_object =>
          if eventSource_on_is_function bus (Userscript.world s1) then
            match eventSource_on bus "chatLoaded" (Userscript.world s1) (Userscript.dom s1) with
            | (Ok _, w, d) =>
                (Ok tt,
                 UserscriptSetup.set_chatLoaded true
                   (UserscriptSetup.set_script (Userscript.set_env w d s1) st1))
            | (Raise _, w, d) =>
                (Ok tt, UserscriptSetup.set_script (Userscript.set_env w d s1) st1)
            end
          else (Ok tt, st1)
      end
  end.
Proof.
  destruct st as [s c o l cl r].
  cbv [UserscriptSetup.setup function bind gets modify throw ret UserscriptSetup.lift
       Userscript.log Userscript.DEBUG fst snd UserscriptSetup.set_script
       UserscriptSetup.script UserscriptSetup.chatEl UserscriptSetup.chatObserver
       UserscriptSetup.listening UserscriptSetup.chatLoaded UserscriptSetup.rescans
       UserscriptSetup.set_chatEl UserscriptSetup.set_chatObserver
       UserscriptSetup.set_chatLoaded].
  destruct (UserscriptSetup.chat_container (Userscript.dom s)) as [chat |]; [| done].
  rewrite observe_each_run.
  cbv [UserscriptSetup.set_script UserscriptSetup.script UserscriptSetup.chatEl
       UserscriptSetup.chatObserver UserscriptSetup.listening UserscriptSetup.chatLoaded
       UserscriptSetup.rescans].
  destruct (window_eventSource host _); [done | done |].
  destruct (eventSource_on_is_function bus _); [| done].
  cbv [UserscriptSetup.listen try_catch bind UserscriptSetup.lift Userscript.host_call
       modify ret fst snd UserscriptSetup.script UserscriptSetup.set_script
       UserscriptSetup.set_chatLoaded UserscriptSetup.chatEl
       UserscriptSetup.chatObserver UserscriptSetup.listening UserscriptSetup.chatLoaded
       UserscriptSetup.rescans].
  by destruct (eventSource_on bus "chatLoaded" _ _) as [[[u | e] w] d].
Qed.

(** X12: [setup] returns, or throws a [TypeError].  It throws in two cases
    only: there is no chat container (no [#chat], no [.chat], no [body]), or
    [window.eventSource] is [null]; what [eventSource.on] throws is swallowed.
    Once the container is found the chat observer is attached, also when
    [setup] goes on to throw. *)
Theorem setup_error_behaviour (st : @UserscriptSetup.State World) :
  let d := Userscript.dom (UserscriptSetup.script st) in
  let w := Userscript.world (UserscriptSetup.script st) in
  let r := UserscriptSetup.setup host bus st in
  (r.1 = Ok tt \/ r.1 = Raise TypeError) /\
  (r.1 = Raise TypeError <->
   UserscriptSetup.chat_container d = None \/ window_eventSource host w = ES_null) /\
  (forall chat, UserscriptSetup.chat_container d = Some chat ->
     UserscriptSetup.chatObserver r.2 = Some (node_id chat, UserscriptSetup.chat_options)).
Proof.
  intros d w r. subst d w r. rewrite setup_run.
  destruct (UserscriptSetup.chat_container _) as [chat |] eqn:Hchat.
  - cbv zeta.
    destruct (observe_all_frame
                (calls_on (UserscriptSetup.message_texts
                             (Userscript.dom (UserscriptSetup.script st)) (node_id chat)))
                (UserscriptSetup.script st)) as (W & _ & _).
    rewrite W.
    destruct (window_eventSource host (Userscript.world (UserscriptSetup.script st))).
    + split; [by left |]. split; [| by intros ? [= <-]].
      split; [done | by intros [? | ?]].
    + split; [by right |]. split; [| by intros ? [= <-]].
      split; [by right | done].
    + destruct (eventSource_on_is_function bus _).
      * destruct (eventSource_on bus "chatLoaded" _ _) as [[[u | e] w] d];
          (split; [by left |]); (split; [| by intros ? [= <-]]);
          (split; [done | by intros [? | ?]]).
      * split; [by left |]. split; [| by intros ? [= <-]].
        split; [done | by intros [? | ?]].
  - split; [by right |]. split; [| done]. split; [by left | done].
Qed.

Lemma existsb_find {A} (p : A -> bool) l :
  existsb p l = true -> exists x, List.find p l = Some x.
Proof.
  induction l as [|a l IH]; simpl; [done |].
  destruct (p a); [by exists a | exact IH].
Qed.

(** An element the selector ['.mes .mes_text'] finds has a message around
    it. *)
Lemma mes_mes_text_closest d n :
  Document.mes_mes_text d n = true ->
  exists mesEl, closest d (node_id n) Userscript.MESSAGE_SELECTOR = Some mesEl.
Proof.
  unfold Document.mes_mes_text, Document.ancestors, closest, Userscript.MESSAGE_SELECTOR.
  intros [_ H]%andb_true_iff.
  destruct (rev (path_in d (node_id n))) as [|x l]; [done |]. simpl in *.
  destruct (has_class "mes" x); [by exists x | by apply existsb_find].
Qed.

Lemma message_texts_closest d chat el :
  el ∈ UserscriptSetup.message_texts d chat ->
  exists mesEl, closest d (node_id el) Userscript.MESSAGE_SELECTOR = Some mesEl.
Proof.
  unfold UserscriptSetup.message_texts, querySelectorAll, querySelectorAll_of.
  destruct (find_node d chat); [| by intros H%elem_of_nil].
  intros H%list_elem_of_In. apply filter_In in H as [_ [_ H]%andb_true_iff].
  by apply mes_mes_text_closest.
Qed.

(** Where no element was observed outside a message, a run of calls keeps
    it so: an observed element with a message around it has its observer. *)
Lemma observe_all_covers calls (st : @Userscript.State World) :
  (forall i mesEl, i ∈ Userscript.observed st ->
     closest (Userscript.dom st) i Userscript.MESSAGE_SELECTOR = Some mesEl ->
     userscript_observer i mesEl ∈ Userscript.observers st) ->
  forall i mesEl, i ∈ Userscript.observed (userscript_observe_all host calls st) ->
    closest (Userscript.dom st) i Userscript.MESSAGE_SELECTOR = Some mesEl ->
    userscript_observer i mesEl ∈ Userscript.observers (userscript_observe_all host calls st).
Proof.
  revert st. induction calls as [|[el |] calls IH]; intros st H; simpl; [done | | by apply IH].
  intros i mesEl Hi Hc.
  destruct (observeMesText_frame (Some el) st) as (_ & D & _).
  rewrite <- D in Hc. revert i mesEl Hi Hc. apply IH. rewrite D.
  destruct (decide (el ∈ Userscript.observed st)) as [Hel | Hel].
  - by rewrite userscript_observeMesText_seen.
  - rewrite userscript_observeMesText_new by done. intros i mesEl Hi Hc.
    destruct (closest (Userscript.dom st) el Userscript.MESSAGE_SELECTOR) as [mesEl' |] eqn:Hc';
      simpl in *.
    + apply elem_of_union in Hi as [->%elem_of_singleton | Hi].
      * rewrite Hc' in Hc. injection Hc as <-. apply elem_of_app. right. by left.
      * apply elem_of_app. left. by apply H.
    + apply elem_of_union in Hi as [->%elem_of_singleton | Hi]; [congruence | by apply H].
Qed.

(** A run of calls makes observers on the elements it is called on only. *)
Lemma observe_all_only calls (st : @Userscript.State World) o :
  o ∈ Userscript.observers (userscript_observe_all host calls st) ->
  o ∈ Userscript.observers st \/ Some (Userscript.mesTextEl_of o) ∈ calls.
Proof.
  revert st. induction calls as [|[el |] calls IH]; intros st; simpl; [by left | |].
  - intros [Ho | Ho]%IH; [| right; by right].
    destruct (decide (el ∈ Userscript.observed st)) as [Hel | Hel].
    + rewrite userscript_observeMesText_seen in Ho by done. by left.
    + rewrite userscript_observeMesText_new in Ho by done.
      destruct (closest _ _ _); simpl in Ho; [| by left].
      apply elem_of_app in Ho as [Ho | ->%list_elem_of_singleton]; [by left |].
      right. by left.
  - intros [Ho | Ho]%IH; [by left | right; by right].
Qed.

(** X13: on a page that was just loaded and has a chat container, [setup]
    keeps the container, registers the chat observer on it with [childList] and
    [subtree], and gives every element that ['.mes .mes_text'] finds in the
    container an observer, made with the message around it.  It makes no
    other observer. *)
Theorem setup_observes_the_messages w d chat :
  UserscriptSetup.chat_container d = Some chat ->
  let st := (UserscriptSetup.setup host bus (UserscriptSetup.initial w d)).2 in
  UserscriptSetup.chatEl st = Some (node_id chat) /\
  UserscriptSetup.chatObserver st = Some (node_id chat, UserscriptSetup.chat_options) /\
  (forall el, el ∈ UserscriptSetup.message_texts d (node_id chat) ->
     exists mesEl,
       closest d (node_id el) Userscript.MESSAGE_SELECTOR = Some mesEl /\
       userscript_observer (node_id el) mesEl
         ∈ Userscript.observers (UserscriptSetup.script st)) /\
  (forall o, o ∈ Userscript.observers (UserscriptSetup.script st) ->
     exists el, el ∈ UserscriptSetup.message_texts d (node_id chat) /\
                Userscript.mesTextEl_of o = node_id el).
Proof.
  intros Hchat st. subst st. rewrite setup_run. simpl. rewrite Hchat. cbv zeta.
  set (calls := calls_on (UserscriptSetup.message_texts d (node_id chat))).
  set (s1 := userscript_observe_all host calls (Userscript.initial w d)).
  assert (Hcover : forall el, el ∈ UserscriptSetup.message_texts d (node_id chat) ->
            exists mesEl,
              closest d (node_id el) Userscript.MESSAGE_SELECTOR = Some mesEl /\
              userscript_observer (node_id el) mesEl ∈ Userscript.observers s1).
  { intros el Hel. destruct (message_texts_closest d (node_id chat) el Hel) as [mesEl Hc].
    exists mesEl. split; [done |].
    apply (observe_all_covers calls (Userscript.initial w d)); [| | done].
    - by intros i m Hi%elem_of_empty.
    - apply observe_all_marks. unfold calls, calls_on.
      by apply (list_elem_of_fmap_2 (fun el => Some (node_id el))). }
  assert (Honly : forall o, o ∈ Userscript.observers s1 ->
            exists el, el ∈ UserscriptSetup.message_texts d (node_id chat) /\
                       Userscript.mesTextEl_of o = node_id el).
  { intros o [Ho%elem_of_nil | Ho]%observe_all_only; [done |].
    unfold calls, calls_on in Ho. apply list_elem_of_fmap in Ho as (el & [= ->] & Hel).
    by exists el. }
  destruct (window_eventSource host _); [done | done |].
  destruct (eventSource_on_is_function bus _); [| done].
  by destruct (eventSource_on bus "chatLoaded" _ _) as [[[u | e] w'] d'].
Qed.

(** *** The callback of the chat observer *)

Lemma marks_weaken {R A} (P Q : NodeId -> Prop)
    (m : Stmt (@UserscriptSetup.State World) R A) :
  (forall i, Q i -> P i) -> marks P m -> marks Q m.
Proof.
  intros HPQ H st. destruct (H st) as (N & S & M). split; [done |]. split; [done |].
  intros i Hi. by apply M, HPQ.
Qed.

Lemma marks_ret {R A} (a : A) : marks (R := R) (World := World) (fun _ => False) (ret a).
Proof. intros st. split; [by exists a |]. by split. Qed.

Lemma marks_bind {R A B} (P Q : NodeId -> Prop)
    (m : Stmt (@UserscriptSetup.State World) R A)
    (k : A -> Stmt (@UserscriptSetup.State World) R B) :
  marks P m -> (forall a, marks Q (k a)) -> marks (fun i => P i \/ Q i) (bind m k).
Proof.
  intros Hm Hk st. destruct (Hm st) as ([a N] & S & M). unfold bind.
  destruct (m st) as [c st1]; simpl in *; subst c.
  destruct (Hk a st1) as (N' & S' & M'). split; [done |]. split; [by etrans |].
  intros i [Hi | Hi]; [apply S'; by apply M | by apply M'].
Qed.

Lemma marks_for_of {R X} (P : X -> NodeId -> Prop) (l : list X)
    (body : X -> Stmt (@UserscriptSetup.State World) R unit) :
  (forall x, marks (P x) (body x)) ->
  marks (fun i => exists x, x ∈ l /\ P x i) (for_of l body).
Proof.
  intros H. induction l as [|x l IH]; simpl.
  - apply (marks_weaken (fun _ => False)); [| apply marks_ret].
    by intros i (x & Hx%elem_of_nil & _).
  - apply (marks_weaken (fun i => P x i \/ exists y, y ∈ l /\ P y i)).
    + intros i (y & [-> | Hy]%elem_of_cons & Hi); [by left | right; by exists y].
    + by apply marks_bind.
Qed.

Lemma marks_observe {R} el :
  marks (R := R) (fun i => i = el)
    (UserscriptSetup.lift (call (Userscript.observeMesText host (Some el)))).
Proof.
  intros st. rewrite lift_observe. cbn [fst snd UserscriptSetup.script UserscriptSetup.set_script].
  split; [by exists tt |]. split; [apply observeMesText_frame |].
  intros i ->. apply userscript_observeMesText_marks.
Qed.

Lemma marks_mes_text {R} mes :
  marks (R := R) (fun i => exists mesText, UserscriptSetup.mes_text_of mes = Some mesText /\
                                           i = node_id mesText)
    match UserscriptSetup.mes_text_of mes with
    | Some mesText =>
        UserscriptSetup.lift (call (Userscript.observeMesText host (Some (node_id mesText))))
    | None => ret tt
    end.
Proof.
  destruct (UserscriptSetup.mes_text_of mes) as [mesText |].
  - apply (marks_weaken (fun i => i = node_id mesText)); [| apply marks_observe].
    by intros i (? & [= <-] & ->).
  - apply (marks_weaken (fun _ => False)); [| apply marks_ret]. by intros i (? & ? & _).
Qed.

Lemma marks_added_node {R} node :
  marks (R := R) (found_under node)
    (if negb (is_element node) then ret tt
     else if UserscriptSetup.MESSAGE_SELECTOR node then
       match UserscriptSetup.mes_text_of node with
       | Some mesText =>
           UserscriptSetup.lift (call (Userscript.observeMesText host (Some (node_id mesText))))
       | None => ret tt
       end
     else
       for_of (querySelectorAll_of node UserscriptSetup.MESSAGE_SELECTOR)
         (fun mes =>
            match UserscriptSetup.mes_text_of mes with
            | Some mesText =>
                UserscriptSetup.lift
                  (call (Userscript.observeMesText host (Some (node_id mesText))))
            | None => ret tt
            end)).
Proof.
  unfold found_under. destruct (is_element node); cbn [negb].
  - destruct (UserscriptSetup.MESSAGE_SELECTOR node).
    + eapply marks_weaken; [| apply marks_mes_text].
      intros i (_ & mes & mesText & -> & H & ->). by exists mesText.
    + eapply marks_weaken; [| apply marks_for_of; intros mes; apply marks_mes_text].
      intros i (_ & mes & mesText & Hmes & H & ->). exists mes. split; [done |]. by exists mesText.
  - apply (marks_weaken (fun _ => False)); [| apply marks_ret]. by intros i [? _].
Qed.

(** X14: whatever the batch, the callback of the chat observer returns
    normally and takes nothing out of [state.observed]; the first [.mes_text]
    of every added [.mes] element, and of every [.mes] element inside an added
    element that is no message itself, is in [state.observed] when it
    returns. *)
Theorem chat_callback_observes_added_messages mutations
    (st : @UserscriptSetup.State World) :
  (UserscriptSetup.onChatMutations host mutations st).1 = Ok tt /\
  Userscript.observed (UserscriptSetup.script st)
    ⊆ Userscript.observed
        (UserscriptSetup.script (UserscriptSetup.onChatMutations host mutations st).2) /\
  forall m node i,
    m ∈ mutations -> node ∈ addedNodes m -> found_under node i ->
    i ∈ Userscript.observed
          (UserscriptSetup.script (UserscriptSetup.onChatMutations host mutations st).2).
Proof.
  assert (H : marks (R := unit)
                (fun i => exists m, m ∈ mutations /\
                            exists node, node ∈ addedNodes m /\ found_under node i)
                (for_of mutations
                   (fun m =>
                      for_of (addedNodes m)
                        (fun node =>
                           if negb (is_element node) then ret tt
                           else if UserscriptSetup.MESSAGE_SELECTOR node then
                             match UserscriptSetup.mes_text_of node with
                             | Some mesText =>
                                 UserscriptSetup.lift
                                   (call (Userscript.observeMesText host
                                            (Some (node_id mesText))))
                             | None => ret tt
                             end
                           else
                             for_of (querySelectorAll_of node UserscriptSetup.MESSAGE_SELECTOR)
                               (fun mes =>
                                  match UserscriptSetup.mes_text_of mes with
                                  | Some mesText =>
                                      UserscriptSetup.lift
                                        (call (Userscript.observeMesText host
                                                 (Some (node_id mesText))))
                                  | None => ret tt
                                  end))))).
  { apply marks_for_of. intros m'. apply marks_for_of. intros node'. apply marks_added_node. }
  destruct (H st) as ([[] N] & S & M).
  unfold UserscriptSetup.onChatMutations, function.
  destruct (for_of mutations _ st) as [c s'] eqn:E. simpl in *. subst c.
  split; [done |]. split; [done |].
  intros m node i Hm Hnode Hi. apply M. exists m. split; [done |]. by exists node.
Qed.

End StartFacts.

Lemma userscript_observes_each_element_once_witness :
  NoDup (map Userscript.mesTextEl_of
           (Userscript.observers
              (UserscriptSetup.script
                 (UserscriptSetup.start bare_host willing_bus complete
                    (UserscriptSetup.initial tt page)).2))).
Proof.
  apply (userscript_observes_each_element_once bare_host willing_bus).
  exists complete, tt, page. apply rtc_refl.
Defined.

Lemma setup_observes_the_messages_witness :
  UserscriptSetup.chatObserver
    (UserscriptSetup.setup bare_host willing_bus (UserscriptSetup.initial tt page)).2 =
  Some (1%N, UserscriptSetup.chat_options).
Proof.
  apply (setup_observes_the_messages bare_host willing_bus tt page
           (Dom.Element 1%N "div" ["chat"] [("id", "chat")] [page_mes])).
  reflexivity.
Defined.

Lemma chat_callback_observes_added_messages_witness :
  3%N ∈ Userscript.observed
          (UserscriptSetup.script
             (UserscriptSetup.onChatMutations bare_host message_added
                (UserscriptSetup.initial tt page)).2).
Proof.
  refine (proj2 (proj2 (chat_callback_observes_added_messages bare_host
           message_added (UserscriptSetup.initial tt page)))
           {| Dom.type := Dom.childList; Dom.target := 1%N;
              Dom.addedNodes := [page_mes]; Dom.removedNodes := [] |}
           page_mes 3%N _ _ _).
  - left.
  - left.
  - split; [reflexivity |].
    exists page_mes. eexists. split; [reflexivity |]. split; reflexivity.
Defined.

(** ** The extension: what wakes it, and what it checks *)

Section V3Facts.
Import Dom.
Context {World : Type} (host : Host World).

Lemma v3_shouldRender_spec records :
  V3.shouldRender records = true <->
  exists m node, m ∈ records /\ node ∈ removedNodes m /\ V3.removes_render node = true.
Proof.
  induction records as [|m records IH]; simpl.
  - split; [done | by intros (m & node & Hm%elem_of_nil & _)].
  - rewrite orb_true_iff, IH. split.
    + intros [H | (m' & node & Hm' & H)].
      * destruct (0 <? length (removedNodes m))%nat; [| done].
        apply existsb_exists in H as (node & Hin & Hr).
        exists m, node. split; [by left |]. split; [by apply list_elem_of_In | done].
      * exists m', node. split; [by right | done].
    + intros (m' & node & Hm' & Hnode & Hr).
      apply elem_of_cons in Hm' as [-> | Hm'].
      * left. destruct (removedNodes m) as [|n l] eqn:E; [by apply elem_of_nil in Hnode |].
        cbn [length Nat.ltb Nat.leb]. apply existsb_exists. exists node.
        split; [by apply list_elem_of_In | done].
      * right. by exists m', node.
Qed.

(** X15: (extension) a batch of records wakes the callback of an observer
    exactly when one of its removed nodes is an element of class [TH-render]
    or has such an element inside.  On any other batch, and on any batch for
    an element whose message has no non-empty [mesid], the callback leaves the
    state as it is: no timer is cleared and none is started. *)
Theorem v3_onMutations_idle el records (st : @V3.State World) :
  (V3.shouldRender records = true <->
   exists m node, m ∈ records /\ node ∈ removedNodes m /\ V3.removes_render node = true) /\
  (V3.shouldRender records = false \/ V3.no_id (V3.getMessageId (V3.dom st) el) = true ->
   V3.onMutations el records st = (Ok tt, st)).
Proof.
  split; [apply v3_shouldRender_spec |].
  intros H. unfold V3.onMutations, function, bind, gets.
  destruct (V3.shouldRender records); [| done]. destruct H as [H | H]; [done |]. simpl.
  destruct (V3.getMessageId (V3.dom st) el) as [id |]; [| done]. simpl in H.
  by destruct (JSString.nonempty id).
Qed.

(** The check, case by case. *)
Lemma v3_check_run el (st : @V3.State World) :
  V3.check host el st =
  let st0 := V3.record (V3.Checked el) st in
  match querySelector (V3.dom st) el (has_tag "iframe") with
  | Some _ => (Ok tt, st0)
  | None =>
      let code := match querySelector (V3.dom st) el (has_tag "pre") with
                  | Some p => textContent p
                  | None => ""
                  end in
      match V3.isFrontend (JSStr code) with
      | Ok true =>
          match console_log host (V3.world st) (V3.dom st) with
          | (Ok _, w, d) => V3.triggerPartialRender host el (V3.set_env w d st0)
          | (Raise e, w, d) => (Raise e, V3.set_env w d st0)
          end
      | Ok false => (Ok tt, st0)
      | Raise e => (Raise e, st0)
      end
  end.
Proof.
  unfold V3.check, function, bind, gets, modify, call.
  change (V3.dom (V3.record (V3.Checked el) st)) with (V3.dom st).
  destruct (querySelector (V3.dom st) el (has_tag "iframe")); [done |]. cbv beta zeta.
  change (V3.dom (V3.record (V3.Checked el) st)) with (V3.dom st).
  destruct (V3.isFrontend _) as [[|] | e]; [| done | done].
  unfold V3.log, V3.DEBUG, V3.host_call.
  change (V3.dom (V3.record (V3.Checked el) st)) with (V3.dom st).
  change (V3.world (V3.record (V3.Checked el) st)) with (V3.world st).
  destruct (console_log host (V3.world st) (V3.dom st)) as [[[u | e] w] d]; [| done].
  by destruct (V3.triggerPartialRender host el _) as [[[] | e] s'].
Qed.

(** [triggerPartialRender] on an element with a message id, case by case. *)
Lemma v3_triggerPartialRender_run el m (st : @V3.State World) :
  V3.getMessageId (V3.dom st) el = Some m -> JSString.nonempty m = true ->
  V3.triggerPartialRender host el st =
  let st0 := V3.record (V3.PartialRender el) st in
  match console_log host (V3.world st) (V3.dom st) with
  | (Raise e, w, d) => (Raise e, V3.set_env w d st0)
  | (Ok _, w, d) =>
      let st1 := V3.set_env w d st0 in
      match window_eventSource host w, window_event_types host w with
      | ES_undefined, _ => (Ok tt, st1)
      | _, ET_undefined => (Ok tt, st1)
      | ES_object, ET_object v =>
          match eventSource_emit host v (Number (Some m)) w d with
          | (Ok _, w', d') =>
              (Ok tt, V3.record (V3.EmitMessageUpdated v (Number (Some m)) true)
                        (V3.set_env w' d' st1))
          | (Raise e, w', d') =>
              (Raise e, V3.record (V3.EmitMessageUpdated v (Number (Some m)) false)
                          (V3.set_env w' d' st1))
          end
      | _, _ => (Raise TypeError, st1)
      end
  end.
Proof.
  intros Hid Hm.
  unfold V3.triggerPartialRender, function, bind, gets, modify.
  change (V3.dom (V3.record (V3.PartialRender el) st)) with (V3.dom st).
  rewrite Hid. unfold V3.no_id. rewrite Hm. cbn [negb].
  unfold V3.log, V3.DEBUG, V3.host_call.
  change (V3.dom (V3.record (V3.PartialRender el) st)) with (V3.dom st).
  change (V3.world (V3.record (V3.PartialRender el) st)) with (V3.world st).
  destruct (console_log host (V3.world st) (V3.dom st)) as [[[u | e] w] d]; [| done].
  cbv beta zeta. cbn [V3.world V3.dom V3.set_env].
  destruct (window_eventSource host w), (window_event_types host w); try done.
  unfold throw, ret. cbn [V3.world V3.dom V3.set_env].
  by destruct (eventSource_emit host _ _ w d) as [[[u' | e] w'] d'].
Qed.

(** X16: (extension) when the message text holds no [iframe], the check
    goes by the text of the first [pre] block alone, taken as it is: if that
    text holds none of the three markers the check does nothing, whatever the
    later blocks hold; if it holds one, and [console.log] comes back,
    [triggerPartialRender] is called. *)
Theorem v3_check_reads_the_first_pre el (st : @V3.State World) :
  querySelector (V3.dom st) el (has_tag "iframe") = None ->
  let code := match querySelector (V3.dom st) el (has_tag "pre") with
              | Some p => textContent p
              | None => ""
              end in
  ((forall m, m ∈ ["html>"; "<head>"; "<body"] -> ~ JSString.contains code m) ->
   V3.check host el st = (Ok tt, V3.record (V3.Checked el) st)) /\
  ((exists m, m ∈ ["html>"; "<head>"; "<body"] /\ JSString.contains code m) ->
   (console_log host (V3.world st) (V3.dom st)).1.1 = Ok tt ->
   V3.PartialRender el ∈ V3.trace (V3.check host el st).2).
Proof.
  intros Hframe code.
  destruct (v3_isFrontend_spec code) as (b & Hb & Hspec).
  rewrite v3_check_run, Hframe. cbv zeta. fold code. rewrite Hb.
  split.
  - intros Hnone. destruct b; [| done]. exfalso.
    destruct (proj1 Hspec eq_refl) as (m & Hm & Hc). by apply (Hnone m).
  - intros Hsome Hlog. rewrite (proj2 Hspec Hsome).
    destruct (console_log host (V3.world st) (V3.dom st)) as [[[[] | e] w] d]; [| done].
    generalize (V3.set_env w d (V3.record (V3.Checked el) st)). intros s.
    unfold V3.triggerPartialRender, function, bind, gets, modify, V3.log, V3.DEBUG,
      V3.host_call, ret, return_, throw.
    cbn [fst snd V3.dom V3.record V3.world V3.set_env V3.trace].
    repeat case_match; simplify_eq/=;
      rewrite ?elem_of_app, ?list_elem_of_singleton; auto.
Qed.

(** X17: (extension) the check catches nothing.  With a front-end first
    block, no [iframe], a message id and a [console.log] that has no effect,
    the check ends as the [emit] of [MESSAGE_UPDATED] ends, with its exception
    if it throws; it ends with a [TypeError] when one of [eventSource] and
    [event_types] is [null] and the other is defined; and it ends normally,
    without an [emit], when one of them is undefined. *)
Theorem v3_check_does_not_catch el p m (st : @V3.State World) :
  (forall w d, console_log host w d = (Ok tt, w, d)) ->
  querySelector (V3.dom st) el (has_tag "iframe") = None ->
  querySelector (V3.dom st) el (has_tag "pre") = Some p ->
  V3.isFrontend (JSStr (textContent p)) = Ok true ->
  V3.getMessageId (V3.dom st) el = Some m ->
  JSString.nonempty m = true ->
  (V3.check host el st).1 =
  match window_eventSource host (V3.world st), window_event_types host (V3.world st) with
  | ES_undefined, _ => Ok tt
  | _, ET_undefined => Ok tt
  | ES_object, ET_object v =>
      (eventSource_emit host v (Number (Some m)) (V3.world st) (V3.dom st)).1.1
  | _, _ => Raise TypeError
  end.
Proof.
  intros Hlog Hframe Hpre Hfront Hid Hm.
  rewrite v3_check_run, Hframe, Hpre. cbv zeta. rewrite Hfront, Hlog.
  rewrite (v3_triggerPartialRender_run el m) by done. cbv zeta.
  cbn [V3.world V3.dom V3.set_env V3.record]. rewrite Hlog.
  destruct (window_eventSource host (V3.world st)), (window_event_types host (V3.world st));
    try done.
  by destruct (eventSource_emit host _ _ _ _) as [[[[] | e] w] d].
Qed.

End V3Facts.

Lemma v3_check_reads_the_first_pre_witness :
  V3.check bare_host 3%N (V3.initial tt plain_first_page) =
  (Ok tt, V3.record (V3.Checked 3%N) (V3.initial tt plain_first_page)).
Proof.
  apply (v3_check_reads_the_first_pre bare_host 3%N (V3.initial tt plain_first_page)).
  - reflexivity.
  - intros m Hm Hc. apply includes_spec in Hc.
    repeat (apply elem_of_cons in Hm as [-> | Hm]; [discriminate Hc |]).
    inversion Hm.
Defined.

Lemma v3_check_does_not_catch_witness :
  (V3.check faulty_bus_host 3%N (V3.initial tt bare_first_page)).1 =
  Raise (HostError "boom").
Proof.
  apply (v3_check_does_not_catch faulty_bus_host 3%N
           (Dom.Element 4%N "pre" [] [] [Dom.Text 5%N "<html><body>two</body></html>"])
           "7" (V3.initial tt bare_first_page)).
  - intros w d. reflexivity.
  - reflexivity.
  - reflexivity.
  - reflexivity.
  - reflexivity.
  - reflexivity.
Defined.

(** ** The start of the extension *)

Section V3StartFacts.
Import Dom.
Context {World : Type} (host : Host World).

Lemma v3_observeMesText_keeps_empty el (st : @V3.State World) :
  V3.observedElements (V3.observeMesText el st).2 = V3.observedElements st.
Proof.
  unfold V3.observeMesText, function, bind, gets, modify. simpl.
  by destruct (bool_decide _).
Qed.

Lemma v3_for_of_observed {X} (body : X -> Stmt (@V3.State World) unit unit) l :
  (forall x s, V3.observedElements (body x s).2 = V3.observedElements s) ->
  forall s, V3.observedElements (for_of l body s).2 = V3.observedElements s.
Proof.
  intros Hbody. induction l as [|x l IH]; intros s; [done |].
  simpl. unfold bind. pose proof (Hbody x s) as H.
  destruct (body x s) as [[[] | r | e] s1]; simpl in *; [| done | done].
  by rewrite IH.
Qed.

Lemma v3_onChatMutations_observed mutations (st : @V3.State World) :
  V3.observedElements (V3.onChatMutations mutations st).2 = V3.observedElements st.
Proof.
  unfold V3.onChatMutations, function.
  set (inner := fun node : Node => _).
  assert (Hinner : forall node s,
            V3.observedElements (inner node s).2 = V3.observedElements s).
  { intros node s. unfold inner. destruct (_ && _); [| done].
    destruct (querySelector_of _ _) as [mesText |]; [| done].
    unfold call. pose proof (v3_observeMesText_keeps_empty (node_id mesText) s) as H.
    by destruct (V3.observeMesText _ s) as [[[] | e] s']. }
  pose proof (v3_for_of_observed (fun mutation => for_of (addedNodes mutation) inner) mutations
                (fun mutation s => v3_for_of_observed inner (addedNodes mutation) Hinner s) st)
    as H.
  by destruct (for_of mutations _ st) as [[[] | r | e] s'].
Qed.

Lemma v3_onMutations_observed el records (st : @V3.State World) :
  V3.observedElements (V3.onMutations el records st).2 = V3.observedElements st.
Proof.
  destruct (V3.shouldRender records) eqn:Hs.
  - destruct (V3.getMessageId (V3.dom st) el) as [m |] eqn:Hid.
    + destruct (JSString.nonempty m) eqn:Hm.
      * by rewrite (v3_onMutations_significant m).
      * unfold V3.onMutations, function, bind, gets. rewrite Hs. simpl. rewrite Hid. simpl.
        by rewrite Hm.
    + unfold V3.onMutations, function, bind, gets. rewrite Hs. simpl. by rewrite Hid.
  - unfold V3.onMutations, function. by rewrite Hs.
Qed.

Lemma v3_check_observed el (st : @V3.State World) :
  V3.observedElements (V3.check host el st).2 = V3.observedElements st.
Proof.
  unfold V3.check, V3.triggerPartialRender, function, bind, gets, modify, call, V3.log,
    V3.DEBUG, V3.host_call, V3.isFrontend, ret, return_, throw.
  cbn [fst snd V3.dom V3.record V3.world V3.set_env].
  repeat case_match; simplify_eq/=; done.
Qed.

Lemma v3_step_observed (st st' : @V3.State World) :
  v3_step host st st' -> V3.observedElements st' = V3.observedElements st.
Proof.
  intros [el s | mutations s | k changes s | i s r Hfire | gap s | w d s].
  - apply v3_observeMesText_keeps_empty.
  - apply v3_onChatMutations_observed.
  - unfold V3.notify. destruct (V3.attached s !! k) as [o |]; [| done].
    destruct (queued _ _ _ _); [done |]. apply v3_onMutations_observed.
  - unfold V3.fire in Hfire. destruct (Timers.take _ _ _) as [[[el key] tb] |]; [| done].
    injection Hfire as <-. simpl. by rewrite v3_check_observed.
  - done.
  - done.
Qed.

(** X18: (extension) in any state the extension reaches,
    [observedElements] is empty, since nothing is ever added to it; so every
    call of [observeMesText], on whatever element, attaches one more
    observer. *)
Theorem v3_observeMesText_always_attaches el (st : @V3.State World) :
  v3_reachable host st ->
  V3.observedElements st = ∅ /\
  V3.observeMesText el st =
    (Ok tt, V3.set_attached (V3.attached st ++ [v3_observer el]) st).
Proof.
  intros (w & d & Hrtc).
  assert (H : V3.observedElements st = ∅).
  { revert st Hrtc. apply rtc_ind_r; [done |].
    intros y z _ Hstep IH. by rewrite (v3_step_observed y z Hstep). }
  split; [done | by apply v3_observeMesText_attaches].
Qed.

Lemma v3_observe_all_attaches calls (st : @V3.State World) :
  V3.observedElements st = ∅ ->
  v3_observe_all calls st = V3.set_attached (V3.attached st ++ map v3_observer calls) st.
Proof.
  revert st. induction calls as [|el calls IH]; intros st H; simpl.
  - rewrite app_nil_r. by destruct st.
  - rewrite v3_observeMesText_attaches by done. cbn [snd]. rewrite IH by done.
    unfold V3.set_attached. simpl. by rewrite <- app_assoc.
Qed.

Lemma v3_lift_observe {R} el (st : @V3Setup.State World) :
  V3Setup.lift (call (R := R) (V3.observeMesText el)) st =
  (Normal tt, V3Setup.set_script (V3.observeMesText el (V3Setup.script st)).2 st).
Proof.
  unfold V3Setup.lift, call, V3.observeMesText, function, bind, gets, modify. simpl.
  by destruct (bool_decide _).
Qed.

Lemma v3_observe_each_run {R} els (st : @V3Setup.State World) :
  for_of (R := R) els (fun el => V3Setup.lift (call (V3.observeMesText (node_id el)))) st =
  (Normal tt, V3Setup.set_script (v3_observe_all (map node_id els) (V3Setup.script st)) st).
Proof.
  revert st. induction els as [|el els IH]; intros st; [by destruct st |].
  cbn [for_of map v3_observe_all]. unfold bind. rewrite v3_lift_observe, IH. done.
Qed.

(** [setupObservers], case by case. *)
Lemma setupObservers_run (st : @V3Setup.State World) :
  V3Setup.setupObservers st =
  match Document.getElementById (V3.dom (V3Setup.script st)) "chat" with
  | None =>
      (Ok tt, V3Setup.set_setups (V3Setup.setups st ++ [V3.now (V3Setup.script st) + 1000]%N) st)
  | Some chatEl =>
      (Ok tt,
       V3Setup.set_chatObserver (Some (node_id chatEl, V3Setup.chat_options))
         (V3Setup.set_script
            (v3_observe_all
               (map node_id (V3Setup.message_texts (V3.dom (V3Setup.script st)) (node_id chatEl)))
               (V3Setup.script st)) st))
  end.
Proof.
  unfold V3Setup.setupObservers, function, bind, gets, modify, return_.
  destruct (Document.getElementById _ _) as [chatEl |]; [| done].
  by rewrite v3_observe_each_run.
Qed.

(** X19: (extension) on a page that was just loaded and has a [#chat]
    element, [setupObservers] attaches one observer to each element that
    ['.mes .mes_text'] finds in it, in document order, registers the chat
    observer on [#chat] with [childList] alone, and schedules no call of
    itself. *)
Theorem setupObservers_attaches_one_observer_per_message (w : World) d chatEl :
  Document.getElementById d "chat" = Some chatEl ->
  let st := (V3Setup.setupObservers (V3Setup.initial w d)).2 in
  V3.attached (V3Setup.script st) =
    map (fun el => v3_observer (node_id el)) (V3Setup.message_texts d (node_id chatEl)) /\
  V3Setup.chatObserver st = Some (node_id chatEl, V3Setup.chat_options) /\
  V3Setup.setups st = [].
Proof.
  intros Hchat st. subst st. rewrite setupObservers_run. simpl. rewrite Hchat. simpl.
  rewrite v3_observe_all_attaches by done. simpl. by rewrite map_map.
Qed.

Lemma setupObservers_count (st : @V3Setup.State World) :
  V3Setup.chatObserver st = None ->
  let st' := (V3Setup.setupObservers st).2 in
  to_come st' + on_chat st' = S (to_come st) /\
  forall el o, V3Setup.chatObserver st' = Some (el, o) -> o = V3Setup.chat_options.
Proof.
  intros Hnone st'. subst st'. rewrite setupObservers_run.
  destruct (Document.getElementById _ _) as [chatEl |]; unfold to_come, on_chat; simpl.
  - split; [lia | by intros el o [= _ <-]].
  - rewrite Hnone, length_app. simpl. split; [lia | done].
Qed.

Lemma v3_setup_step_count (st st' : @V3Setup.State World) :
  v3_setup_step host st st' ->
  to_come st + on_chat st = 1 /\
  (forall el o, V3Setup.chatObserver st = Some (el, o) -> o = V3Setup.chat_options) ->
  to_come st' + on_chat st' = 1 /\
  (forall el o, V3Setup.chatObserver st' = Some (el, o) -> o = V3Setup.chat_options).
Proof.
  intros [s r Hr | j s r Hr | s s' Hs | changes s] [Hc Ho].
  - unfold V3Setup.onDOMContentLoaded in Hr.
    destruct (V3Setup.listening s) eqn:Hl; [| done]. injection Hr as <-.
    assert (Hnone : V3Setup.chatObserver s = None).
    { unfold to_come, on_chat in Hc. rewrite Hl in Hc.
      destruct (V3Setup.chatObserver s); [lia | done]. }
    destruct (setupObservers_count (V3Setup.set_listening false s) Hnone) as [H1 H2].
    split; [| exact H2]. rewrite H1. unfold to_come, on_chat in *. simpl.
    rewrite Hl, Hnone in Hc. lia.
  - unfold V3Setup.fire_setup in Hr.
    destruct (V3Setup.setups s !! j) as [due |] eqn:Hj; [| done].
    destruct (_ <=? _)%N; [| done]. injection Hr as <-.
    assert (Hlen : length (V3Setup.setups s) = S (length (delete j (V3Setup.setups s)))).
    { rewrite length_delete by (by eexists). apply lookup_lt_Some in Hj. lia. }
    assert (Hnone : V3Setup.chatObserver s = None).
    { unfold to_come, on_chat in Hc.
      destruct (V3Setup.chatObserver s); [| done]. destruct (V3Setup.listening s); lia. }
    destruct (setupObservers_count (V3Setup.set_setups (delete j (V3Setup.setups s)) s) Hnone)
      as [H1 H2].
    split; [| exact H2]. rewrite H1. unfold to_come, on_chat in *. simpl.
    rewrite Hnone in Hc. lia.
  - done.
  - assert (H : to_come (V3Setup.notify_chat changes s).2 = to_come s /\
                V3Setup.chatObserver (V3Setup.notify_chat changes s).2 = V3Setup.chatObserver s).
    { unfold V3Setup.notify_chat.
      destruct (V3Setup.chatObserver s) as [[el o] |] eqn:E; [| simpl; by rewrite E].
      destruct (queued _ _ _ _); simpl; by rewrite E. }
    destruct H as [H1 H2]. unfold on_chat in *. by rewrite H1, H2.
Qed.

Lemma v3_started_count (st : @V3Setup.State World) :
  v3_started host st ->
  to_come st + on_chat st = 1 /\
  (forall el o, V3Setup.chatObserver st = Some (el, o) -> o = V3Setup.chat_options).
Proof.
  intros (readyState & w & d & Hrtc). revert st Hrtc. apply rtc_ind_r.
  - destruct readyState; [by split | |];
      destruct (setupObservers_count (V3Setup.initial w d) eq_refl) as [H1 H2]; by split.
  - intros y z _ Hstep IH. by apply (v3_setup_step_count y).
Qed.

(** X20: (extension) whatever happens once the extension is loaded,
    exactly one of these is there at any time: the listener for
    [DOMContentLoaded], one pending call of [setupObservers], or the chat
    observer.  A pending call that runs while [#chat] is still missing attaches
    nothing, leaves the state of the script as it is and schedules the next
    call one second later. *)
Theorem setupObservers_polls_until_the_chat_is_there (st : @V3Setup.State World) :
  v3_started host st ->
  to_come st + on_chat st = 1 /\
  (forall j r,
     V3Setup.fire_setup j st = Some r ->
     Document.getElementById (V3.dom (V3Setup.script st)) "chat" = None ->
     V3Setup.setups r.2 = [(V3.now (V3Setup.script st) + 1000)%N] /\
     V3Setup.chatObserver r.2 = None /\
     V3Setup.script r.2 = V3Setup.script st).
Proof.
  intros [Hc Ho]%v3_started_count. split; [done |].
  intros j r Hr Hchat. unfold V3Setup.fire_setup in Hr.
  destruct (V3Setup.setups st !! j) as [due |] eqn:Hj; [| done].
  destruct (_ <=? _)%N; [| done]. injection Hr as <-.
  rewrite setupObservers_run. cbn [V3Setup.script V3Setup.set_setups]. rewrite Hchat.
  cbn [snd V3Setup.setups V3Setup.set_setups V3Setup.chatObserver V3Setup.script].
  unfold to_come, on_chat in Hc.
  destruct (V3Setup.chatObserver st); [apply lookup_lt_Some in Hj; lia |].
  destruct (V3Setup.setups st) as [|x [|y l]]; [done | | simpl in Hc; lia].
  destruct j; [done | by destruct j].
Qed.

(** X21: (extension) the chat observer is registered without [subtree]:
    records whose target is not the chat container itself do not reach its
    callback, so a message that is added anywhere but directly under [#chat]
    is not observed. *)
Theorem v3_chat_observer_sees_direct_children_only changes (st : @V3Setup.State World) :
  v3_started host st ->
  (forall chatEl o, V3Setup.chatObserver st = Some (chatEl, o) ->
     Forall (fun r => target r <> chatEl) changes) ->
  V3Setup.notify_chat changes st = (Ok tt, st).
Proof.
  intros [_ Ho]%v3_started_count Hdeep.
  unfold V3Setup.notify_chat.
  destruct (V3Setup.chatObserver st) as [[chatEl o] |] eqn:E; [| done].
  rewrite (Ho chatEl o eq_refl). specialize (Hdeep chatEl o eq_refl).
  replace (queued _ _ _ _) with (@nil MutationRecord); [done |].
  symmetry. unfold queued. induction Hdeep as [|r changes Hr _ IH]; [done |].
  cbn [List.filter]. unfold in_scope at 1. cbn [init_subtree V3Setup.chat_options andb].
  rewrite orb_false_r. apply N.eqb_neq in Hr. by rewrite Hr.
Qed.

Lemma v3_reachable_coherent (st : @V3.State World) : v3_reachable host st -> v3_coherent st.
Proof.
  intros (w & d & Hrtc). revert st Hrtc. apply rtc_ind_r; [apply v3_coherent_initial |].
  intros y z _ Hstep IH. by apply (v3_coherent_step host y).
Qed.

(** X22: (extension) in any state the extension reaches, the callback of
    an observer on an element of message [m] cancels nothing but the pending
    check of [m]: the pending checks of the other messages are still pending
    when the callback has run. *)
Theorem v3_onMutations_cancels_the_check_of_its_message_only el records m t
    (st : @V3.State World) :
  v3_reachable host st ->
  V3.getMessageId (V3.dom st) el = Some m ->
  t ∈ Timers.pending (V3.timers st) ->
  is_check m (Timers.task t) = false ->
  t ∈ Timers.pending (V3.timers (V3.onMutations el records st).2).
Proof.
  intros Hreach Hid Ht Hck. pose proof (v3_reachable_coherent st Hreach) as Hco.
  destruct (V3.shouldRender records) eqn:Hs.
  - destruct (JSString.nonempty m) eqn:Hm.
    + rewrite (v3_onMutations_significant m) by done. simpl.
      apply elem_of_app. left. unfold v3_cleared.
      destruct (V3.stored m (V3.debounceTimers st)) as [i |] eqn:Hi; [| done]. simpl.
      apply stored_Some in Hi.
      apply list_elem_of_In, filter_In. split; [by apply list_elem_of_In |].
      apply negb_true_iff, Pos.eqb_neq. intros <-.
      by rewrite (v3_coherent_entry st Hco m t Hi Ht) in Hck.
    + unfold V3.onMutations, function, bind, gets. rewrite Hs. simpl. rewrite Hid. simpl.
      by rewrite Hm.
  - unfold V3.onMutations, function. by rewrite Hs.
Qed.

End V3StartFacts.

Lemma v3_observeMesText_always_attaches_witness :
  V3.observedElements (V3.observeMesText 3%N (V3.initial tt page)).2 = ∅.
Proof.
  apply (v3_observeMesText_always_attaches bare_host 3%N).
  exists tt, page. apply rtc_once. apply (v3_step_observe bare_host 3%N).
Defined.

Lemma setupObservers_attaches_one_observer_per_message_witness :
  V3.attached (V3Setup.script (V3Setup.setupObservers (V3Setup.initial tt page)).2) =
  [v3_observer 3%N].
Proof.
  apply (setupObservers_attaches_one_observer_per_message tt page
           (Dom.Element 1%N "div" ["chat"] [("id", "chat")] [page_mes])).
  reflexivity.
Defined.

Lemma setupObservers_polls_until_the_chat_is_there_witness :
  to_come (V3Setup.start complete (V3Setup.initial tt [])).2
  + on_chat (V3Setup.start complete (V3Setup.initial tt [])).2 = 1.
Proof.
  apply (setupObservers_polls_until_the_chat_is_there bare_host).
  exists complete, tt, []. apply rtc_refl.
Defined.

Lemma v3_chat_observer_sees_direct_children_only_witness :
  V3Setup.notify_chat
    [{| Dom.type := Dom.childList; Dom.target := 2%N;
        Dom.addedNodes := [page_mes]; Dom.removedNodes := [] |}]
    (V3Setup.start complete (V3Setup.initial tt page)).2 =
  (Ok tt, (V3Setup.start complete (V3Setup.initial tt page)).2).
Proof.
  apply (v3_chat_observer_sees_direct_children_only bare_host).
  - exists complete, tt, page. apply rtc_refl.
  - intros chatEl o H. injection H as <- _. repeat constructor. discriminate.
Defined.

Lemma v3_onMutations_cancels_the_check_of_its_message_only_witness :
  {| Timers.timer_id := 1%positive; Timers.due := 600%N;
     Timers.task := V3.DebouncedCheck 3%N "7" |}
  ∈ Timers.pending
      (V3.timers
         (V3.onMutations 13%N
            [{| Dom.type := Dom.childList; Dom.target := 13%N;
                Dom.addedNodes := [];
                Dom.removedNodes := [Dom.Element 16%N "div" ["TH-render"] [] []] |}]
            v3_first_changed).2).
Proof.
  apply (v3_onMutations_cancels_the_check_of_its_message_only bare_host 13%N _ "8").
  - exists tt, two_messages.
    eapply rtc_l; [apply (v3_step_observe bare_host 3%N) |].
    eapply rtc_l; [apply (v3_step_observe bare_host 13%N) |].
    apply rtc_once. apply (v3_step_notify bare_host 0 wrapper_removed).
  - reflexivity.
  - vm_compute. left.
  - reflexivity.
Defined.
